(** * Creator-coin bonding curve and pricing engine

    A shallow embedding of [src/lib/bondingCurve.ts]
    ([AdvancedBondingCurveCalculator]) and of the pricing data, scoring,
    risk, price impact and aggregation parts of [src/lib/pricingEngine.ts]
    ([PricingEngine]), followed by the properties of the specification
    that they decide and by further properties of the calculator and of
    the engine.

    - JavaScript [number]s are IEEE 754 binary64 values: they are Rocq's
      primitive [float]s, whose operations are the correctly rounded
      binary64 ones.  [x ** 2] is the correctly rounded square [x * x];
      [Math.pow], which ECMA-262 leaves implementation-approximated, is a
      parameter of the environment.
    - [bigint]s are [Z]; their division truncates towards zero ([Z.quot]).
    - An optional argument is an [option]; a [Date] is its [getTime()].
    - A thrown [Error] is an [Err] of the [result] type.
    - The clock and the random generator are read from an environment
      [Env].  The clock is the sequence of the values that the successive
      calls of [Date.now()] return: every call reads the next one, so a
      method that calls [Date.now()] several times may see the time pass.
      Where a function draws several random numbers, or reads
      [new Date()], these are arguments.
    - An [async] function with a [try]/[catch] returns an [outcome]:
      [Resolved] with its value, or [Rejected] with the message of the
      [Error] thrown from the [catch] block. *)

From Stdlib Require Import ZArith Bool List Lia Lra Psatz.
From Stdlib Require Import Permutation.
From Stdlib Require Import Reals.
From Stdlib Require Import Floats.
Import ListNotations.

#[local] Set Warnings "-inexact-float".
#[local] Open Scope Z_scope.

(** ** Results and errors *)

(** The messages of the [Error]s thrown by the source, and the [RangeError]
    the runtime raises when [BigInt] is applied to a non-finite number or a
    bigint is divided by [0n]. *)
Inductive error : Type :=
| SupplyExceedsTotal   (* 'Supply cannot exceed total supply' *)
| InvalidTradeAmount   (* 'Invalid trade amount' *)
| PriceImpactTooHigh   (* 'Price impact too high: ...' *)
| RangeError.          (* BigInt(NaN), BigInt(Infinity), x / 0n *)

Inductive result (A : Type) : Type :=
| Ok (a : A)
| Err (e : error).
Arguments Ok {A} a.
Arguments Err {A} e.

Definition bind {A B : Type} (r : result A) (k : A -> result B) : result B :=
  match r with
  | Ok a => k a
  | Err e => Err e
  end.

Notation "'let*' x ':=' r 'in' k" := (bind r (fun x => k))
  (at level 10, x name, r at level 100, k at level 200).

(** ** JavaScript numbers *)

Module JS.

(** [Number(z)] for a bigint [z]: the nearest binary64 value, ties to
    even, infinite when out of range. *)
Definition Number (z : Z) : float :=
  SF2Prim (binary_normalize prec emax z 0 false).

(** The integer part, rounded down, of a finite number. *)
Definition floorZ (x : float) : option Z :=
  match Prim2SF x with
  | S754_zero _ => Some 0
  | S754_finite s m e => Some (Z.shiftl (cond_Zopp s (Zpos m)) e)
  | S754_infinity _ | S754_nan => None
  end.

(** [BigInt(Math.floor(x))]: a [RangeError] when [x] is [NaN] or infinite. *)
Definition BigInt_floor (x : float) : result Z :=
  match floorZ x with
  | Some z => Ok z
  | None => Err RangeError
  end.

(** [Math.floor(x)] as a number. *)
Definition Math_floor (x : float) : float :=
  match Prim2SF x with
  | S754_finite s m e =>
      if 0 <=? e then x
      else SF2Prim (binary_normalize prec emax
                      (Z.shiftl (cond_Zopp s (Zpos m)) e) 0 s)
  | _ => x
  end.

(** [Math.max(x, y)] and [Math.min(x, y)]: [NaN] when an argument is
    [NaN]; [+0] is larger than [-0]. *)
Definition Math_max (x y : float) : float :=
  if is_nan x || is_nan y then nan
  else if (x <? y)%float then y
  else if (y <? x)%float then x
  else if get_sign x then y else x.

Definition Math_min (x y : float) : float :=
  if is_nan x || is_nan y then nan
  else if (x <? y)%float then x
  else if (y <? x)%float then y
  else if get_sign x then x else y.

Definition Math_abs (x : float) : float := abs x.

(** [x > y] *)
Definition gt (x y : float) : bool := (y <? x)%float.

(** [x < y] *)
Definition lt (x y : float) : bool := (x <? y)%float.

(** Truthiness of an optional bigint: [undefined] and [0n] are falsy. *)
Definition truthy (v : option Z) : option Z :=
  match v with
  | Some z => if z =? 0 then None else Some z
  | None => None
  end.

End JS.

(** What a call reads from its environment: the clock, one draw of
    [Math.random()], and the engine's [Math.pow], which ECMA-262 leaves
    implementation-approximated.  The clock is the sequence of the values,
    in milliseconds, that the successive calls of [Date.now()] return. *)
Record Env : Type := {
  clock : nat -> float;
  Math_random : float;
  Math_pow : float -> float -> float
}.

(** [Date.now()]: the next value of the clock. *)
Definition Date_now (env : Env) : float := clock env 0.

(** The environment once [Date.now()] has been called. *)
Definition tick (env : Env) : Env :=
  {| clock := fun n => clock env (S n);
     Math_random := Math_random env;
     Math_pow := Math_pow env |}.

(** The environment after a call that reads the clock once when there is
    a last-trade time, and not at all without one: [calculateDynamicK],
    and so [calculatePrice] when it returns, and [calculateLiquidityScore]. *)
Definition afterRead (lastTradeTime : option float) (env : Env) : Env :=
  match lastTradeTime with
  | Some _ => tick env
  | None => env
  end.

(** A clock that stands still: every reading gives the same value. *)
Definition steady (env : Env) : Prop :=
  forall n, clock env n = clock env 0%nat.

(** ** Data model ([src/types]) *)

(** The fields of a [CreatorCoin] that the engine reads. *)
Record CreatorCoin : Type := {
  totalSupply_ : Z;
  circulatingSupply : Z;
  currentPrice : Z;
  marketCap : Z;
  tradingVolume24h : Z;
  priceChange24h : float
}.

Record TradeQuote : Type := {
  inputAmount : Z;
  outputAmount : Z;
  priceImpact : float;
  minimumReceived : Z;
  fee : Z;
  deadline : float
}.

(** The literal type ['buy' | 'sell' | 'hold']. *)
Inductive Recommendation : Type := buy | sell | hold.

(** ** [AdvancedBondingCurveCalculator] *)

Module BondingCurve.

(** The private fields set by the constructor. *)
Record Calculator : Type := {
  baseK : float;
  totalSupply : Z;
  maxSlippage : float;
  creatorMultiplier : float;
  volumeMultiplier : float;
  timeDecayFactor : float
}.

(** [new AdvancedBondingCurveCalculator()]: the constructor's defaults. *)
Definition defaultBondingCurve : Calculator := {|
  baseK := 0.0001;
  totalSupply := 1000000000;
  maxSlippage := 0.05;
  creatorMultiplier := 1.0;
  volumeMultiplier := 1.0;
  timeDecayFactor := 0.95
|}.

Definition newCoinBondingCurve : Calculator := {|
  baseK := 0.0002;
  totalSupply := 1000000000;
  maxSlippage := 0.08;
  creatorMultiplier := 1.2;
  volumeMultiplier := 1.1;
  timeDecayFactor := 0.98
|}.

Definition establishedCoinBondingCurve : Calculator := {|
  baseK := 0.00005;
  totalSupply := 1000000000;
  maxSlippage := 0.03;
  creatorMultiplier := 1.0;
  volumeMultiplier := 0.9;
  timeDecayFactor := 0.99
|}.

Section Methods.

Variable env : Env.
Variable this : Calculator.

(** [Number(x) / 1e18]: base units to whole units. *)
Definition toETH (x : Z) : float := (JS.Number x / 1e18)%float.

(** [(Date.now() - lastTradeTime.getTime()) / (1000 * 60 * 60)] *)
Definition hoursSince (lastTradeTime : float) : float :=
  ((Date_now env - lastTradeTime) / 3600000)%float.

(** [calculateDynamicK] *)
Definition calculateDynamicK
    (coinData : option CreatorCoin) (tradingVolume24h : option Z)
    (lastTradeTime : option float) : float :=
  let k := baseK this in
  (* Volume-based adjustment *)
  let k :=
    match JS.truthy tradingVolume24h with
    | Some v =>
        let volumeETH := toETH v in
        if JS.gt volumeETH 100 then (k * 1.2)%float
        else if JS.lt volumeETH 1 then (k * 0.8)%float
        else k
    | None => k
    end in
  (* Time decay for inactive coins *)
  let k :=
    match lastTradeTime with
    | Some t =>
        let hoursSinceLastTrade := hoursSince t in
        if JS.gt hoursSinceLastTrade 24 then
          (k * Math_pow env (timeDecayFactor this)
                 (JS.Math_floor (hoursSinceLastTrade / 24)))%float
        else k
    | None => k
    end in
  (* Creator popularity adjustment *)
  let k :=
    match coinData with
    | Some coin =>
        if JS.gt (toETH (marketCap coin)) 1000 then (k * 1.1)%float else k
    | None => k
    end in
  JS.Math_max k (baseK this * 0.1)%float.

(** The number [volumePrice] of [calculatePrice], before the conversion
    to wei; [supplyNumber ** 2] is the correctly rounded square. *)
Definition volumePrice (supply : Z) (dynamicK : float) : float :=
  let supplyNumber := JS.Number supply in
  let totalSupplyNumber := JS.Number (totalSupply this) in
  let basePrice :=
    (dynamicK * (supplyNumber * supplyNumber)
     / (totalSupplyNumber - supplyNumber))%float in
  let creatorPrice := (basePrice * creatorMultiplier this)%float in
  (creatorPrice * volumeMultiplier this)%float.

(** [calculatePrice] *)
Definition calculatePrice
    (supply : Z) (coinData : option CreatorCoin)
    (tradingVolume24h : option Z) (lastTradeTime : option float)
    : result Z :=
  if supply >=? totalSupply this then Err SupplyExceedsTotal
  else
    let dynamicK := calculateDynamicK coinData tradingVolume24h lastTradeTime in
    JS.BigInt_floor (volumePrice supply dynamicK * 1e18)%float.

(** [calculateAdjustedMaxSlippage] *)
Definition calculateAdjustedMaxSlippage
    (coinData : option CreatorCoin) (tradingVolume24h : option Z) : float :=
  let adjustedSlippage := maxSlippage this in
  let adjustedSlippage :=
    match JS.truthy tradingVolume24h with
    | Some v =>
        if JS.gt (toETH v) 100 then (adjustedSlippage * 0.8)%float
        else adjustedSlippage
    | None => adjustedSlippage
    end in
  let adjustedSlippage :=
    match coinData with
    | Some coin =>
        if JS.lt (toETH (marketCap coin)) 10 then (adjustedSlippage * 1.5)%float
        else adjustedSlippage
    | None => adjustedSlippage
    end in
  JS.Math_min adjustedSlippage 0.1.

(** [calculateDynamicFeeRate] *)
Definition calculateDynamicFeeRate
    (coinData : option CreatorCoin) (tradingVolume24h : option Z) : float :=
  let feeRate := 0.01%float in
  let feeRate :=
    match JS.truthy tradingVolume24h with
    | Some v =>
        let volumeETH := toETH v in
        if JS.gt volumeETH 1000 then (feeRate * 0.5)%float
        else if JS.gt volumeETH 100 then (feeRate * 0.75)%float
        else feeRate
    | None => feeRate
    end in
  let feeRate :=
    match coinData with
    | Some coin =>
        if JS.lt (toETH (marketCap coin)) 1 then (feeRate * 2)%float
        else feeRate
    | None => feeRate
    end in
  JS.Math_max feeRate 0.005.

(** The local [priceImpact] of [calculateTradePrice]. *)
Definition tradePriceImpact (isBuy : bool) (currentPrice newPrice : Z) : float :=
  if isBuy
  then (JS.Number (newPrice - currentPrice) / JS.Number currentPrice)%float
  else (JS.Number (currentPrice - newPrice) / JS.Number currentPrice)%float.

(** [calculateLiquidityScore] of the calculator. *)
Definition calculateLiquidityScore
    (coinData : option CreatorCoin) (tradingVolume24h : option Z)
    (lastTradeTime : option float) : float :=
  let score := 0%float in
  (* Volume score (0-40 points) *)
  let score :=
    match JS.truthy tradingVolume24h with
    | Some v => (score + JS.Math_min (toETH v / 10) 40)%float
    | None => score
    end in
  (* Market cap score (0-30 points) *)
  let score :=
    match coinData with
    | Some coin => (score + JS.Math_min (toETH (marketCap coin) / 100) 30)%float
    | None => score
    end in
  (* Activity score (0-20 points) *)
  let score :=
    match lastTradeTime with
    | Some t =>
        let hoursSinceLastTrade := hoursSince t in
        if JS.lt hoursSinceLastTrade 1 then (score + 20)%float
        else if JS.lt hoursSinceLastTrade 24 then (score + 15)%float
        else if JS.lt hoursSinceLastTrade 168 then (score + 10)%float
        else (score + 5)%float
    | None => score
    end in
  (* Price stability score (0-10 points) *)
  let score :=
    match coinData with
    | Some coin =>
        let priceChange := JS.Math_abs (priceChange24h coin) in
        if JS.lt priceChange 0.05 then (score + 10)%float
        else if JS.lt priceChange 0.1 then (score + 7)%float
        else if JS.lt priceChange 0.2 then (score + 4)%float
        else (score + 1)%float
    | None => score
    end in
  JS.Math_min score 100.

(** [calculateCoinsForEth]: a bigint division by [0n] raises a
    [RangeError]. *)
Definition calculateCoinsForEth
    (supply ethAmount : Z) (coinData : option CreatorCoin)
    (tradingVolume24h : option Z) (lastTradeTime : option float) : result Z :=
  let* price := calculatePrice supply coinData tradingVolume24h lastTradeTime in
  if price =? 0 then Err RangeError
  else Ok (Z.quot (ethAmount * 10 ^ 18) price).

(** [calculateEthForCoins] *)
Definition calculateEthForCoins
    (supply coinAmount : Z) (coinData : option CreatorCoin)
    (tradingVolume24h : option Z) (lastTradeTime : option float) : result Z :=
  let* price := calculatePrice supply coinData tradingVolume24h lastTradeTime in
  Ok (Z.quot (coinAmount * price) (10 ^ 18)).

(** [calculateMarketCap] *)
Definition calculateMarketCap
    (supply : Z) (coinData : option CreatorCoin)
    (tradingVolume24h : option Z) (lastTradeTime : option float) : result Z :=
  let* price := calculatePrice supply coinData tradingVolume24h lastTradeTime in
  Ok (Z.quot (supply * price) (10 ^ 18)).

(** [calculatePriceChange]: both prices are computed without a last-trade
    time. *)
Definition calculatePriceChange
    (currentSupply previousSupply : Z)
    (currentCoinData previousCoinData : option CreatorCoin)
    (currentVolume previousVolume : option Z) : result float :=
  let* currentPrice := calculatePrice currentSupply currentCoinData currentVolume None in
  let* previousPrice := calculatePrice previousSupply previousCoinData previousVolume None in
  Ok (JS.Number (currentPrice - previousPrice) / JS.Number previousPrice)%float.

(** The strings pushed on [reasoning] by [getTradingRecommendations]. *)
Inductive Reason : Type :=
| HighTradingVolume        (* 'High trading volume indicates strong interest' *)
| LowTradingVolume         (* 'Low trading volume may indicate lack of interest' *)
| StrongPositiveMovement   (* 'Strong positive price movement' *)
| NegativeMovement         (* 'Negative price movement' *)
| HighLiquidityScore       (* 'High liquidity score - good for trading' *)
| LowLiquidityScore        (* 'Low liquidity score - be cautious' *)
| NoRecentActivity.        (* 'No recent trading activity - coin may be inactive' *)

Record TradingRecommendation : Type := {
  recommendation : Recommendation;
  confidence : float;
  reasoning : list Reason
}.

End Methods.

(** [calculateTradePrice]: the clock is read in each of the two calls of
    [calculatePrice] (when there is a last-trade time) and once more for
    the deadline. *)
Definition calculateTradePrice (env : Env) (this : Calculator)
    (currentSupply tradeAmount : Z) (isBuy : bool)
    (coinData : option CreatorCoin) (tradingVolume24h : option Z)
    (lastTradeTime : option float) : result TradeQuote :=
  let newSupply :=
    if isBuy then currentSupply + tradeAmount else currentSupply - tradeAmount in
  if (newSupply <? 0) || (newSupply >? totalSupply this) then Err InvalidTradeAmount
  else
    let* currentPrice :=
      calculatePrice env this currentSupply coinData tradingVolume24h lastTradeTime in
    let env := afterRead lastTradeTime env in
    let* newPrice :=
      calculatePrice env this newSupply coinData tradingVolume24h lastTradeTime in
    let env := afterRead lastTradeTime env in
    let priceImpact := tradePriceImpact isBuy currentPrice newPrice in
    let adjustedMaxSlippage :=
      calculateAdjustedMaxSlippage this coinData tradingVolume24h in
    if JS.gt priceImpact adjustedMaxSlippage then Err PriceImpactTooHigh
    else
      let inputAmount := tradeAmount in
      let outputAmount := Z.quot (tradeAmount * currentPrice) (10 ^ 18) in
      let feeRate := calculateDynamicFeeRate coinData tradingVolume24h in
      let* feeBasisPoints := JS.BigInt_floor (feeRate * 10000)%float in
      let fee := Z.quot (outputAmount * feeBasisPoints) 10000 in
      let minimumReceived := outputAmount - fee in
      let baseDeadline := 1800%float in
      let randomDelay := JS.Math_floor (Math_random env * 300)%float in
      let deadline :=
        (JS.Math_floor (Date_now env / 1000) + baseDeadline + randomDelay)%float in
      Ok {| inputAmount := inputAmount;
            outputAmount := outputAmount;
            priceImpact := priceImpact;
            minimumReceived := minimumReceived;
            fee := fee;
            deadline := deadline |}.

(** The loop of [calculateOptimalTradeSize]: [fuel] bounds the number of
    iterations; [None] is returned only when it runs out.  Every
    iteration calls [calculatePrice], which reads the clock anew. *)
Fixpoint searchLoop (env : Env) (this : Calculator)
    (coinData : option CreatorCoin) (tradingVolume24h : option Z)
    (lastTradeTime : option float) (supply maxPrice : Z)
    (fuel : nat) (low high optimalSize : Z) : option (result Z) :=
  match fuel with
  | O => None
  | S fuel' =>
      if low <=? high then
        let mid := Z.quot (low + high) 2 in
        match calculatePrice env this (supply + mid)
                coinData tradingVolume24h lastTradeTime with
        | Err e => Some (Err e)
        | Ok newPrice =>
            let env := afterRead lastTradeTime env in
            if newPrice <=? maxPrice
            then searchLoop env this coinData tradingVolume24h lastTradeTime
                   supply maxPrice fuel' (mid + 1) high mid
            else searchLoop env this coinData tradingVolume24h lastTradeTime
                   supply maxPrice fuel' low (mid - 1) optimalSize
        end
      else Some (Ok optimalSize)
  end.

(** Enough iterations for an interval of [high + 1] candidates: each
    iteration at least halves the interval. *)
Definition searchFuel (high : Z) : nat :=
  S (S (Z.to_nat (Z.log2 (Z.max high 0 + 1)))).

(** [calculateOptimalTradeSize] *)
Definition calculateOptimalTradeSize (env : Env) (this : Calculator)
    (supply : Z) (maxPriceImpact : float)
    (coinData : option CreatorCoin) (tradingVolume24h : option Z)
    (lastTradeTime : option float) : option (result Z) :=
  match calculatePrice env this supply coinData tradingVolume24h lastTradeTime with
  | Err e => Some (Err e)
  | Ok currentPrice =>
      let env := afterRead lastTradeTime env in
      match JS.BigInt_floor ((1 + maxPriceImpact) * 1e18)%float with
      | Err e => Some (Err e)
      | Ok factor =>
          let maxPrice := Z.quot (currentPrice * factor) (10 ^ 18) in
          let low := 0 in
          let high := totalSupply this - supply in
          let optimalSize := 0 in
          searchLoop env this coinData tradingVolume24h lastTradeTime supply maxPrice
            (searchFuel high) low high optimalSize
      end
  end.

(** [getTradingRecommendations]: the clock is read in
    [calculateLiquidityScore] and again in the activity analysis. *)
Definition getTradingRecommendations (env : Env)
    (coinData : option CreatorCoin) (tradingVolume24h : option Z)
    (lastTradeTime : option float) : TradingRecommendation :=
  let liquidityScore := calculateLiquidityScore env coinData tradingVolume24h lastTradeTime in
  let env := afterRead lastTradeTime env in
  let reasoning : list Reason := [] in
  let recommendation := hold in
  let confidence := 0.5%float in
  (* Volume analysis *)
  let '(confidence, reasoning) :=
    match JS.truthy tradingVolume24h with
    | Some v =>
        let volumeETH := toETH v in
        if JS.gt volumeETH 100
        then ((confidence + 0.2)%float, reasoning ++ [HighTradingVolume])
        else if JS.lt volumeETH 1
        then ((confidence - 0.1)%float, reasoning ++ [LowTradingVolume])
        else (confidence, reasoning)
    | None => (confidence, reasoning)
    end in
  (* Price change analysis *)
  let '(recommendation, confidence, reasoning) :=
    match coinData with
    | Some coin =>
        let priceChange := priceChange24h coin in
        if JS.gt priceChange 0.1
        then (buy, (confidence + 0.3)%float, reasoning ++ [StrongPositiveMovement])
        else if JS.lt priceChange (-0.1)
        then (sell, (confidence + 0.2)%float, reasoning ++ [NegativeMovement])
        else (recommendation, confidence, reasoning)
    | None => (recommendation, confidence, reasoning)
    end in
  (* Liquidity analysis *)
  let '(confidence, reasoning) :=
    if JS.gt liquidityScore 70
    then ((confidence + 0.1)%float, reasoning ++ [HighLiquidityScore])
    else if JS.lt liquidityScore 30
    then ((confidence - 0.1)%float, reasoning ++ [LowLiquidityScore])
    else (confidence, reasoning) in
  (* Activity analysis *)
  let '(confidence, reasoning) :=
    match lastTradeTime with
    | Some t =>
        if JS.gt (hoursSince env t) 168
        then ((confidence - 0.2)%float, reasoning ++ [NoRecentActivity])
        else (confidence, reasoning)
    | None => (confidence, reasoning)
    end in
  {| recommendation := recommendation;
     confidence := JS.Math_max 0 (JS.Math_min 1 confidence);
     reasoning := reasoning |}.

End BondingCurve.

(** ** [PricingEngine] *)

Module PricingEngine.

Inductive RiskLevel : Type := low | medium | high.

Inductive RiskFactor : Type :=
| HighPriceVolatility      (* 'High price volatility' *)
| ModeratePriceVolatility  (* 'Moderate price volatility' *)
| LowLiquidity             (* 'Low liquidity' *)
| ExtremePriceMovement     (* 'Extreme price movement' *)
| LowTradingVolume         (* 'Low trading volume' *)
| StableMarketConditions.  (* 'Stable market conditions' *)

Inductive Trend : Type := bullish | bearish | neutral.

Record MarketConditions : Type := {
  overallTrend : Trend;
  marketCap_ : Z;          (* the field [marketCap]: the total market cap *)
  totalVolume : Z;
  activeTraders : nat;
  averageTradeSize : Z;
  priceVolatility : float
}.

(** [calculateLiquidityScore] of the engine. *)
Definition calculateLiquidityScore (coin : CreatorCoin) : float :=
  let volumeScore :=
    JS.Math_min (JS.Number (tradingVolume24h coin) / 1e18 / 1000)%float 40 in
  let marketCapScore :=
    JS.Math_min (JS.Number (marketCap coin) / 1e18 / 10000)%float 30 in
  let priceStabilityScore :=
    JS.Math_max 0 (20 - JS.Math_abs (priceChange24h coin))%float in
  let supplyScore :=
    JS.Math_min (JS.Number (circulatingSupply coin) / 1e18 / 1000000)%float 10 in
  JS.Math_min (volumeScore + marketCapScore + priceStabilityScore + supplyScore)%float 100.

(** [calculateVolumeVolatility] *)
Definition calculateVolumeVolatility (coin : CreatorCoin) : float :=
  let currentVolume := JS.Number (tradingVolume24h coin) in
  let averageVolume := (currentVolume * 0.8)%float in
  (JS.Math_abs (currentVolume - averageVolume) / averageVolume * 100)%float.

(** [calculateVolatilityScore] *)
Definition calculateVolatilityScore (coin : CreatorCoin) : float :=
  let priceChange := JS.Math_abs (priceChange24h coin) in
  let volumeVolatility := calculateVolumeVolatility coin in
  JS.Math_min (priceChange * 2 + volumeVolatility)%float 100.

(** The state of [assessRisk] between its statements: [riskLevel] and
    [riskFactors]. *)
Definition RiskState : Type := (RiskLevel * list RiskFactor)%type.

(** [riskLevel === 'low' ? 'medium' : 'high'] *)
Definition escalate (l : RiskLevel) : RiskLevel :=
  match l with
  | low => medium
  | _ => high
  end.

(** The four conditionals of [assessRisk], in order. *)
Definition volatilityStep (volatilityScore : float) (st : RiskState) : RiskState :=
  let '(riskLevel, riskFactors) := st in
  if JS.gt volatilityScore 70 then (high, riskFactors ++ [HighPriceVolatility])
  else if JS.gt volatilityScore 40 then (medium, riskFactors ++ [ModeratePriceVolatility])
  else st.

Definition liquidityStep (liquidityScore : float) (st : RiskState) : RiskState :=
  let '(riskLevel, riskFactors) := st in
  if JS.lt liquidityScore 30 then (escalate riskLevel, riskFactors ++ [LowLiquidity])
  else st.

Definition priceMoveStep (coin : CreatorCoin) (st : RiskState) : RiskState :=
  let '(riskLevel, riskFactors) := st in
  if JS.gt (JS.Math_abs (priceChange24h coin)) 50
  then (high, riskFactors ++ [ExtremePriceMovement])
  else st.

Definition volumeStep (coin : CreatorCoin) (st : RiskState) : RiskState :=
  let '(riskLevel, riskFactors) := st in
  if JS.lt (JS.Number (tradingVolume24h coin)) 1e18
  then (escalate riskLevel, riskFactors ++ [LowTradingVolume])
  else st.

(** [if (riskFactors.length === 0) riskFactors.push('Stable market conditions')] *)
Definition stableStep (st : RiskState) : RiskState :=
  let '(riskLevel, riskFactors) := st in
  match riskFactors with
  | [] => (riskLevel, [StableMarketConditions])
  | _ => st
  end.

(** The statements of [assessRisk] after the two declarations. *)
Definition riskSteps (coin : CreatorCoin) (volatilityScore liquidityScore : float)
    : list (RiskState -> RiskState) :=
  [ volatilityStep volatilityScore;
    liquidityStep liquidityScore;
    priceMoveStep coin;
    volumeStep coin;
    stableStep ].

Definition runSteps (steps : list (RiskState -> RiskState)) (st : RiskState) : RiskState :=
  fold_left (fun st step => step st) steps st.

(** [assessRisk]: returns [{ level, factors }]. *)
Definition assessRisk (coin : CreatorCoin) (volatilityScore liquidityScore : float)
    : RiskState :=
  runSteps (riskSteps coin volatilityScore liquidityScore) (low, []).

(** [updateMarketConditions]: the value it stores in
    [this.marketConditions]; dividing by [BigInt(0)] raises a
    [RangeError]. *)
Definition updateMarketConditions (coins : list CreatorCoin) : result MarketConditions :=
  let totalMarketCap := fold_left (fun sum coin => sum + marketCap coin) coins 0 in
  let totalVolume := fold_left (fun sum coin => sum + tradingVolume24h coin) coins 0 in
  let length := JS.Number (Z.of_nat (List.length coins)) in
  let averagePriceChange :=
    (fold_left (fun sum coin => sum + priceChange24h coin) coins 0 / length)%float in
  if Z.of_nat (List.length coins) =? 0 then Err RangeError
  else
    Ok {| overallTrend :=
            if JS.gt averagePriceChange 5 then bullish
            else if JS.lt averagePriceChange (-5) then bearish
            else neutral;
          marketCap_ := totalMarketCap;
          totalVolume := totalVolume;
          activeTraders := List.length coins;
          averageTradeSize := Z.quot totalVolume (Z.of_nat (List.length coins));
          priceVolatility := JS.Math_abs averagePriceChange |}.

(** [calculateVolumeTrend] *)
Definition calculateVolumeTrend (coin : CreatorCoin) : float :=
  (priceChange24h coin * 0.5)%float.

(** [calculateMomentum] *)
Definition calculateMomentum (coin : CreatorCoin) : float :=
  (priceChange24h coin * 0.3)%float.

(** [calculateTrendScore] *)
Definition calculateTrendScore (coin : CreatorCoin) : float :=
  let priceChange := priceChange24h coin in
  let volumeTrend := calculateVolumeTrend coin in
  let momentum := calculateMomentum coin in
  JS.Math_max (-100) (JS.Math_min 100 (priceChange + volumeTrend + momentum)%float).

(** [generateRecommendation] *)
Definition generateRecommendation
    (coin : CreatorCoin) (priceDifference liquidityScore : float) : Recommendation :=
  if JS.gt priceDifference 0.1 && JS.gt liquidityScore 50 then buy
  else if JS.lt priceDifference (-0.1) && JS.gt liquidityScore 50 then sell
  else hold.

(** [calculateConfidence] *)
Definition calculateConfidence
    (coin : CreatorCoin) (priceDifference liquidityScore : float) : float :=
  let priceDifferenceConfidence :=
    JS.Math_min (JS.Math_abs priceDifference * 200)%float 50 in
  let liquidityConfidence := (liquidityScore * 0.3)%float in
  let volumeConfidence :=
    JS.Math_min (JS.Number (tradingVolume24h coin) / 1e18 / 100)%float 20 in
  JS.Math_min (priceDifferenceConfidence + liquidityConfidence + volumeConfidence)%float 100.

(** [calculateOptimalTradeSize] of the engine. *)
Definition calculateOptimalTradeSize (coin : CreatorCoin) (liquidityScore : float)
    : result Z :=
  let baseSize := (JS.Number (circulatingSupply coin) / 1000)%float in
  let liquidityMultiplier := (liquidityScore / 100)%float in
  let optimalSize := (baseSize * liquidityMultiplier)%float in
  JS.BigInt_floor optimalSize.

Record PriceTargets : Type := {
  oneHour : Z;
  twentyFourHours : Z;
  sevenDays : Z
}.

(** [generatePriceTargets]; [random1], [random2] and [random3] are its three
    draws of [Math.random()], in order. *)
Definition generatePriceTargets
    (coin : CreatorCoin) (currentPrice : Z) (random1 random2 random3 : float)
    : result PriceTargets :=
  let trend := calculateTrendScore coin in
  let volatility := calculateVolatilityScore coin in
  let oneHourMultiplier :=
    (1 + trend * 0.001 + (random1 - 0.5) * (volatility / 1000))%float in
  let twentyFourHourMultiplier :=
    (1 + trend * 0.01 + (random2 - 0.5) * (volatility / 100))%float in
  let sevenDayMultiplier :=
    (1 + trend * 0.05 + (random3 - 0.5) * (volatility / 10))%float in
  let* oneHour := JS.BigInt_floor (JS.Number currentPrice * oneHourMultiplier)%float in
  let* twentyFourHours :=
    JS.BigInt_floor (JS.Number currentPrice * twentyFourHourMultiplier)%float in
  let* sevenDays := JS.BigInt_floor (JS.Number currentPrice * sevenDayMultiplier)%float in
  Ok {| oneHour := oneHour;
        twentyFourHours := twentyFourHours;
        sevenDays := sevenDays |}.

(** The interface [PricingData]; [currentPrice_] is its field
    [currentPrice]. *)
Record PricingData : Type := {
  currentPrice_ : Z;
  zoraPrice : Z;
  customPrice : Z;
  priceDifference : float;
  liquidityScore : float;
  volatilityScore : float;
  trendScore : float;
  recommendation : Recommendation;
  confidence : float;
  optimalTradeSize : Z;
  priceTarget1h : Z;
  priceTarget24h : Z;
  priceTarget7d : Z;
  riskLevel : RiskLevel;
  riskFactors : list RiskFactor
}.

(** The messages of the [Error]s that the engine's [catch] blocks throw. *)
Inductive failure : Type :=
| FailedToCalculatePricingData   (* 'Failed to calculate pricing data' *)
| FailedToCalculatePriceImpact.  (* 'Failed to calculate price impact' *)

(** A settled promise. *)
Inductive outcome (A : Type) : Type :=
| Resolved (a : A)
| Rejected (message : failure).
Arguments Resolved {A} a.
Arguments Rejected {A} message.

(** [try { body } catch (error) { throw new Error(message) }] *)
Definition try_catch {A : Type} (body : result A) (message : failure) : outcome A :=
  match body with
  | Ok a => Resolved a
  | Err _ => Rejected message
  end.

(** [calculatePricingData]. The engine's curve is
    [new AdvancedBondingCurveCalculator()]; [newDate] is the time of the
    [new Date()] passed as the last-trade time, [env] holds the clock that
    the curve reads afterwards. *)
Definition calculatePricingData
    (env : Env) (newDate : float) (random1 random2 random3 : float)
    (coin : CreatorCoin) : outcome PricingData :=
  try_catch
    (let zoraPrice := currentPrice coin in
     let* customPrice :=
       BondingCurve.calculatePrice env BondingCurve.defaultBondingCurve
         (circulatingSupply coin) (Some coin) (Some (tradingVolume24h coin))
         (Some newDate) in
     let priceDifference :=
       (JS.Number (customPrice - zoraPrice) / JS.Number zoraPrice)%float in
     let liquidityScore := calculateLiquidityScore coin in
     let volatilityScore := calculateVolatilityScore coin in
     let trendScore := calculateTrendScore coin in
     let recommendation := generateRecommendation coin priceDifference liquidityScore in
     let confidence := calculateConfidence coin priceDifference liquidityScore in
     let* optimalTradeSize := calculateOptimalTradeSize coin liquidityScore in
     let* priceTargets := generatePriceTargets coin customPrice random1 random2 random3 in
     let riskAssessment := assessRisk coin volatilityScore liquidityScore in
     Ok {| currentPrice_ := zoraPrice;
           zoraPrice := zoraPrice;
           customPrice := customPrice;
           priceDifference := priceDifference;
           liquidityScore := liquidityScore;
           volatilityScore := volatilityScore;
           trendScore := trendScore;
           recommendation := recommendation;
           confidence := confidence;
           optimalTradeSize := optimalTradeSize;
           priceTarget1h := oneHour priceTargets;
           priceTarget24h := twentyFourHours priceTargets;
           priceTarget7d := sevenDays priceTargets;
           riskLevel := fst riskAssessment;
           riskFactors := snd riskAssessment |})
    FailedToCalculatePricingData.

Record PriceImpact : Type := {
  priceImpact_ : float;
  newPrice : Z;
  slippage : float
}.

(** [calculatePriceImpact]; [priceImpact_] is the field [priceImpact] of
    its result. *)
Definition calculatePriceImpact
    (env : Env) (coin : CreatorCoin) (tradeAmount : Z) (isBuy : bool)
    : outcome PriceImpact :=
  try_catch
    (let currentPrice := currentPrice coin in
     let supply := circulatingSupply coin in
     let newSupply := if isBuy then supply + tradeAmount else supply - tradeAmount in
     let* newPrice :=
       BondingCurve.calculatePrice env BondingCurve.defaultBondingCurve
         newSupply (Some coin) None None in
     let priceImpact :=
       (JS.Number (newPrice - currentPrice) / JS.Number currentPrice * 100)%float in
     let slippage := JS.Math_abs priceImpact in
     Ok {| priceImpact_ := priceImpact;
           newPrice := newPrice;
           slippage := slippage |})
    FailedToCalculatePriceImpact.

End PricingEngine.


(** A stand-in for [Math.pow] on integral exponents, by repeated
    multiplication; the evaluations below that use it never reach the
    time-decay branch. *)
Fixpoint pow_iter (x : float) (n : nat) : float :=
  match n with
  | O => 1%float
  | S n' => (x * pow_iter x n')%float
  end.

Definition pow_ref (x y : float) : float :=
  match JS.floorZ y with
  | Some n => pow_iter x (Z.to_nat n)
  | None => nan
  end.

(** An environment for the evaluations: the clock stays at 1.7e12 ms. *)
Definition env0 : Env :=
  {| clock := fun _ => 1700000000000%float; Math_random := 0.5; Math_pow := pow_ref |}.

(** * Properties *)

(** ** JavaScript numbers: evaluations *)

Section NumberExamples.

Local Open Scope float_scope.

Example Number_exact : JS.Number 1000000000 = 1e9.
Proof. reflexivity. Qed.

Example Number_rounds : JS.Number (10 ^ 27 - 1) = 1e27 /\ JS.Number (2 ^ 53 + 1) = 9007199254740992.
Proof. split; vm_compute; reflexivity. Qed.

Example BigInt_floor_negative : JS.BigInt_floor (-2.5) = Ok (-3)%Z.
Proof. reflexivity. Qed.

Example BigInt_floor_infinity : JS.BigInt_floor (1 / 0) = Err RangeError.
Proof. reflexivity. Qed.

Example Math_max_zeros : JS.Math_max (-0) 0 = 0 /\ JS.Math_min 0 (-0) = (-0).
Proof. split; reflexivity. Qed.

Example Math_max_of_nan : JS.Math_max nan 1 = nan.
Proof. reflexivity. Qed.

End NumberExamples.

(** ** The clock *)

Section Clock.

Import BondingCurve.

Lemma Math_random_afterRead (lastTradeTime : option float) (env : Env) :
  Math_random (afterRead lastTradeTime env) = Math_random env.
Proof. destruct lastTradeTime; reflexivity. Qed.

Lemma Math_pow_afterRead (lastTradeTime : option float) (env : Env) :
  Math_pow (afterRead lastTradeTime env) = Math_pow env.
Proof. destruct lastTradeTime; reflexivity. Qed.

(** [calculateDynamicK] reads its environment through [Date.now()] and
    [Math.pow] only, and so does [calculatePrice]. *)
Lemma calculateDynamicK_env (env env' : Env) (this : Calculator)
    (coinData : option CreatorCoin) (tradingVolume24h : option Z)
    (lastTradeTime : option float) :
  Date_now env' = Date_now env -> Math_pow env' = Math_pow env ->
  calculateDynamicK env' this coinData tradingVolume24h lastTradeTime
  = calculateDynamicK env this coinData tradingVolume24h lastTradeTime.
Proof.
  intros Hnow Hpow. unfold calculateDynamicK, hoursSince.
  rewrite Hnow, Hpow. reflexivity.
Qed.

Lemma calculatePrice_env (env env' : Env) (this : Calculator) (supply : Z)
    (coinData : option CreatorCoin) (tradingVolume24h : option Z)
    (lastTradeTime : option float) :
  Date_now env' = Date_now env -> Math_pow env' = Math_pow env ->
  calculatePrice env' this supply coinData tradingVolume24h lastTradeTime
  = calculatePrice env this supply coinData tradingVolume24h lastTradeTime.
Proof.
  intros Hnow Hpow. unfold calculatePrice.
  rewrite (calculateDynamicK_env env env') by assumption. reflexivity.
Qed.

End Clock.

(** ** Comparisons of binary64 numbers *)

Section FloatOrder.

Local Open Scope float_scope.

Lemma SFcompare_refl (x : spec_float) :
  x <> S754_nan -> SFcompare x x = Some Eq.
Proof.
  destruct x as [s|s| |s m e]; simpl; intros H; try congruence.
  - destruct s; reflexivity.
  - rewrite Z.compare_refl.
    assert (Hm : Pos.compare_cont Eq m m = Eq) by apply Pos.compare_refl.
    rewrite Hm. destruct s; reflexivity.
Qed.

Lemma SFcompare_antisym (x y : spec_float) :
  SFcompare y x = option_map CompOpp (SFcompare x y).
Proof.
  destruct x as [sx|sx| |sx mx ex], y as [sy|sy| |sy my ey]; simpl;
    try reflexivity;
    try (destruct sx; reflexivity);
    try (destruct sy; reflexivity);
    try (destruct sx, sy; reflexivity).
  rewrite (Z.compare_antisym ex ey).
  assert (Hm : Pos.compare_cont Eq my mx = CompOpp (Pos.compare_cont Eq mx my))
    by apply (Pos.compare_antisym mx my).
  rewrite Hm.
  destruct sx, sy; simpl; try reflexivity;
    destruct (ex ?= ey)%Z; simpl; try reflexivity;
    destruct (Pos.compare_cont Eq mx my); reflexivity.
Qed.

Lemma is_nan_spec (x : float) :
  is_nan x = false <-> Prim2SF x <> S754_nan.
Proof.
  unfold is_nan. rewrite eqb_spec. unfold SFeqb. split.
  - intros H E. rewrite E in H. discriminate.
  - intros H. rewrite (SFcompare_refl _ H). reflexivity.
Qed.

Lemma is_nan_true (x : float) :
  is_nan x = true <-> Prim2SF x = S754_nan.
Proof.
  split.
  - intros H. destruct (Prim2SF x) eqn:E; try reflexivity;
      assert (N : is_nan x = false) by (apply is_nan_spec; congruence);
      congruence.
  - intros E. destruct (is_nan x) eqn:N; [reflexivity|].
    apply is_nan_spec in N. contradiction.
Qed.

Lemma ltb_nan_l (y : float) : (nan <? y) = false.
Proof. rewrite ltb_spec. reflexivity. Qed.

Lemma ltb_irrefl (x : float) : (x <? x) = false.
Proof.
  rewrite ltb_spec. unfold SFltb.
  destruct (Prim2SF x) eqn:E; try reflexivity;
    rewrite SFcompare_refl; congruence.
Qed.

Lemma ltb_leb (x y : float) : (x <? y) = true -> (x <=? y) = true.
Proof.
  rewrite ltb_spec, leb_spec. unfold SFltb, SFleb.
  destruct (SFcompare _ _) as [[]|]; congruence.
Qed.

Lemma leb_refl (x : float) : is_nan x = false -> (x <=? x) = true.
Proof.
  intros H. apply is_nan_spec in H.
  rewrite leb_spec. unfold SFleb. rewrite (SFcompare_refl _ H). reflexivity.
Qed.

(** Two numbers neither of which is below the other are equal or
    unordered. *)
Lemma not_ltb_leb (x y : float) :
  is_nan x = false -> is_nan y = false ->
  (x <? y) = false -> (y <=? x) = true.
Proof.
  intros Hx Hy. apply is_nan_spec in Hx. apply is_nan_spec in Hy.
  rewrite ltb_spec, leb_spec. unfold SFltb, SFleb.
  rewrite (SFcompare_antisym (Prim2SF x) (Prim2SF y)).
  destruct (SFcompare (Prim2SF x) (Prim2SF y)) as [[]|] eqn:E; simpl;
    try congruence.
  exfalso.
  destruct (Prim2SF x) as [?|?| |? ? ?], (Prim2SF y) as [?|?| |? ? ?];
    simpl in E; congruence.
Qed.

Lemma SFcompare_lt_trans (x y z : spec_float) :
  SFcompare x y = Some Lt -> SFcompare y z = Some Lt -> SFcompare x z = Some Lt.
Proof.
  destruct x as [sx|sx| |sx mx ex], y as [sy|sy| |sy my ey], z as [sz|sz| |sz mz ez];
    cbn [SFcompare]; try discriminate;
    repeat match goal with s : bool |- _ => destruct s end;
    try discriminate; try reflexivity;
    change (Pos.compare_cont Eq) with Pos.compare;
    intros H1 H2; injection H1 as H1; injection H2 as H2; f_equal;
    destruct (Z.compare_spec ex ey), (Z.compare_spec ey ez), (Z.compare_spec ex ez);
    try discriminate; try lia; try reflexivity; subst;
    destruct (Pos.compare_spec mx my), (Pos.compare_spec my mz), (Pos.compare_spec mx mz);
    cbn in *; try discriminate; try lia; try reflexivity.
Qed.

Lemma ltb_trans (x y z : float) :
  (x <? y) = true -> (y <? z) = true -> (x <? z) = true.
Proof.
  rewrite !ltb_spec. unfold SFltb.
  destruct (SFcompare (Prim2SF x) (Prim2SF y)) as [[]|] eqn:E1; try discriminate.
  destruct (SFcompare (Prim2SF y) (Prim2SF z)) as [[]|] eqn:E2; try discriminate.
  rewrite (SFcompare_lt_trans _ _ _ E1 E2). reflexivity.
Qed.

(** A number that is not below [z] is not below a smaller [y]. *)
Lemma not_ltb_below (x y z : float) :
  (x <? z) = false -> (y <? z) = true -> (x <? y) = false.
Proof.
  intros Hxz Hyz. destruct (x <? y) eqn:Hxy; [|reflexivity].
  rewrite (ltb_trans _ _ _ Hxy Hyz) in Hxz. discriminate.
Qed.

(** [Math.max] returns one of its arguments and is below neither of them. *)
Lemma Math_max_lower_r (x y : float) : (JS.Math_max x y <? y) = false.
Proof.
  unfold JS.Math_max.
  destruct (is_nan x || is_nan y) eqn:N; [apply ltb_nan_l|].
  destruct (x <? y) eqn:Lxy; [apply ltb_irrefl|].
  destruct (y <? x) eqn:Lyx; [exact Lxy|].
  destruct (get_sign x); [apply ltb_irrefl | exact Lxy].
Qed.

Lemma Math_max_nan (x y : float) :
  is_nan (JS.Math_max x y) = false -> is_nan x = false /\ is_nan y = false.
Proof.
  unfold JS.Math_max.
  destruct (is_nan x || is_nan y) eqn:N.
  - intros H. vm_compute in H. discriminate.
  - intros _. apply orb_false_iff in N. exact N.
Qed.

Lemma Math_max_ge_r (x y : float) :
  is_nan (JS.Math_max x y) = false -> (y <=? JS.Math_max x y) = true.
Proof.
  intros H. destruct (Math_max_nan _ _ H) as [Hx Hy].
  unfold JS.Math_max. rewrite Hx, Hy. simpl.
  destruct (x <? y) eqn:Lxy; [apply leb_refl; exact Hy|].
  destruct (y <? x) eqn:Lyx; [apply ltb_leb; exact Lyx|].
  destruct (get_sign x).
  - apply leb_refl; exact Hy.
  - apply not_ltb_leb; assumption.
Qed.

Lemma Math_max_ge_l (x y : float) :
  is_nan (JS.Math_max x y) = false -> (x <=? JS.Math_max x y) = true.
Proof.
  intros H. destruct (Math_max_nan _ _ H) as [Hx Hy].
  unfold JS.Math_max. rewrite Hx, Hy. simpl.
  destruct (x <? y) eqn:Lxy; [apply ltb_leb; exact Lxy|].
  destruct (y <? x) eqn:Lyx; [apply leb_refl; exact Hx|].
  destruct (get_sign x).
  - apply not_ltb_leb; assumption.
  - apply leb_refl; exact Hx.
Qed.

End FloatOrder.

(** ** Rounding to nearest in binary64

    The operations of primitive floats are specified, by the axioms of the
    standard library, through the functions of [SpecFloat].  This part
    relates those functions to real numbers: an operation on finite,
    non-negative numbers returns a multiple of the unit in the last place
    within half a unit of the exact result, hence is monotone. *)

Module Rounding.

Import BondingCurve.
#[local] Open Scope R_scope.

(** *** Powers of two *)

Definition bpow (e : Z) : R := powerRZ 2 e.
Arguments bpow : simpl never.

Lemma bpow_gt_0 (e : Z) : 0 < bpow e.
Proof. apply powerRZ_lt. lra. Qed.

Lemma bpow_add (a b : Z) : bpow (a + b) = bpow a * bpow b.
Proof. apply powerRZ_add. lra. Qed.

Lemma bpow_0 : bpow 0 = 1.
Proof. reflexivity. Qed.

Lemma bpow_1 : bpow 1 = 2.
Proof. unfold bpow. simpl. lra. Qed.

Lemma bpow_succ (e : Z) : bpow (e + 1) = 2 * bpow e.
Proof. rewrite bpow_add, bpow_1. lra. Qed.

Lemma bpow_pred (e : Z) : bpow e = 2 * bpow (e - 1).
Proof. rewrite <- bpow_succ. f_equal. lia. Qed.

Lemma bpow_IZR (n : Z) : (0 <= n)%Z -> bpow n = IZR (2 ^ n).
Proof.
  intros H. rewrite <- (Z2Nat.id n H). unfold bpow.
  rewrite <- pow_powerRZ, <- pow_IZR. reflexivity.
Qed.

Lemma bpow_ge_1 (n : Z) : (0 <= n)%Z -> 1 <= bpow n.
Proof.
  intros H. rewrite (bpow_IZR n H). apply IZR_le.
  pose proof (Z.pow_pos_nonneg 2 n ltac:(lia) H). lia.
Qed.

Lemma bpow_le (a b : Z) : (a <= b)%Z -> bpow a <= bpow b.
Proof.
  intros H. replace b with (a + (b - a))%Z by lia. rewrite bpow_add.
  pose proof (bpow_gt_0 a). pose proof (bpow_ge_1 (b - a) ltac:(lia)). nra.
Qed.

Lemma bpow_lt (a b : Z) : (a < b)%Z -> bpow a < bpow b.
Proof.
  intros H. replace b with ((a + 1) + (b - a - 1))%Z by lia.
  rewrite bpow_add, bpow_succ.
  pose proof (bpow_gt_0 a). pose proof (bpow_ge_1 (b - a - 1) ltac:(lia)). nra.
Qed.

Lemma bpow_lt_inv (a b : Z) : bpow a < bpow b -> (a < b)%Z.
Proof.
  intros H. destruct (Z.lt_ge_cases a b) as [L|G]; [exact L|].
  pose proof (bpow_le b a G). lra.
Qed.

Lemma bpow_le_inv (a b : Z) : bpow a <= bpow b -> (a <= b)%Z.
Proof.
  intros H. destruct (Z.le_gt_cases a b) as [L|G]; [exact L|].
  pose proof (bpow_lt b a G). lra.
Qed.

(** The value [m * 2^e]. *)
Definition F2R (m e : Z) : R := IZR m * bpow e.
Arguments F2R : simpl never.

Lemma F2R_shift (m e k : Z) : (0 <= k)%Z -> F2R (m * 2 ^ k) (e - k) = F2R m e.
Proof.
  intros H. unfold F2R. rewrite mult_IZR, <- (bpow_IZR k H).
  replace e with ((e - k) + k)%Z at 2 by lia. rewrite bpow_add. ring.
Qed.

(** The magnitude of a positive real is unique. *)
Lemma mag_unique (v : R) (M1 M2 : Z) :
  bpow (M1 - 1) <= v < bpow M1 -> bpow (M2 - 1) <= v < bpow M2 -> M1 = M2.
Proof.
  intros [L1 U1] [L2 U2].
  assert (H1 : (M1 - 1 < M2)%Z) by (apply bpow_lt_inv; lra).
  assert (H2 : (M2 - 1 < M1)%Z) by (apply bpow_lt_inv; lra).
  lia.
Qed.

Lemma mag_le (v1 v2 : R) (M1 M2 : Z) :
  bpow (M1 - 1) <= v1 < bpow M1 -> bpow (M2 - 1) <= v2 < bpow M2 ->
  v1 <= v2 -> (M1 <= M2)%Z.
Proof.
  intros [L1 U1] [L2 U2] H.
  assert (H1 : (M1 - 1 < M2)%Z) by (apply bpow_lt_inv; lra).
  lia.
Qed.

(** Number of binary digits. *)
Lemma digits2_pos_bounds (m : positive) :
  (2 ^ (Zpos (digits2_pos m) - 1) <= Zpos m < 2 ^ Zpos (digits2_pos m))%Z.
Proof.
  induction m as [m IH|m IH|]; cbn [digits2_pos].
  - rewrite Pos2Z.inj_succ.
    replace (Z.succ (Z.pos (digits2_pos m)) - 1)%Z with (Z.succ (Z.pos (digits2_pos m) - 1))%Z by lia.
    rewrite !Z.pow_succ_r by lia. lia.
  - rewrite Pos2Z.inj_succ.
    replace (Z.succ (Z.pos (digits2_pos m)) - 1)%Z with (Z.succ (Z.pos (digits2_pos m) - 1))%Z by lia.
    rewrite !Z.pow_succ_r by lia. lia.
  - simpl. lia.
Qed.

Lemma F2R_pos_mag (m : positive) (e : Z) :
  bpow (Zpos (digits2_pos m) + e - 1) <= F2R (Zpos m) e < bpow (Zpos (digits2_pos m) + e).
Proof.
  pose proof (digits2_pos_bounds m) as [L U].
  unfold F2R.
  replace (Zpos (digits2_pos m) + e - 1)%Z with ((Zpos (digits2_pos m) - 1) + e)%Z by lia.
  rewrite !bpow_add.
  rewrite (bpow_IZR (Zpos (digits2_pos m) - 1)), (bpow_IZR (Zpos (digits2_pos m))) by lia.
  pose proof (bpow_gt_0 e).
  apply IZR_le in L. apply IZR_lt in U. nra.
Qed.

(** *** Locations and right shifts *)

(** [v] lies in the interval [m * 2^e, (m+1) * 2^e) at the place [l] says. *)
Definition inbetween (m e : Z) (l : location) (v : R) : Prop :=
  match l with
  | loc_Exact => v = F2R m e
  | loc_Inexact c =>
      F2R m e < v < F2R (m + 1) e
      /\ match c with
         | Lt => v < F2R (2 * m + 1) (e - 1)
         | Eq => v = F2R (2 * m + 1) (e - 1)
         | Gt => F2R (2 * m + 1) (e - 1) < v
         end
  end.

Lemma shr_1_inbetween (mrs : shr_record) (e : Z) (v : R) :
  (0 <= shr_m mrs)%Z ->
  inbetween (shr_m mrs) e (loc_of_shr_record mrs) v ->
  (0 <= shr_m (shr_1 mrs))%Z
  /\ inbetween (shr_m (shr_1 mrs)) (e + 1) (loc_of_shr_record (shr_1 mrs)) v.
Proof.
  destruct mrs as [m r s]. cbn [shr_m].
  intros Hm H. 
  assert (E1 : bpow (e + 1) = 4 * bpow (e - 1)).
  { rewrite bpow_succ, (bpow_pred e). ring. }
  assert (E0 : bpow e = 2 * bpow (e - 1)) by apply bpow_pred.
  assert (E2 : bpow (e + 1 - 1) = 2 * bpow (e - 1)).
  { replace (e + 1 - 1)%Z with e by lia. exact E0. }
  pose proof (bpow_gt_0 (e - 1)) as HB.
  destruct m as [|p|p]; [| |lia].
  - destruct r, s; cbn in *; unfold F2R in *; cbn in *;
      rewrite ?E1, ?E2, ?E0 in *; (split; [lia|]); lra.
  - destruct p as [p|p|].
    + rewrite (Pos2Z.inj_xI p) in H.
      destruct r, s; cbn [shr_1 shr_m loc_of_shr_record orb inbetween] in *;
        unfold F2R in *; rewrite ?plus_IZR, ?mult_IZR in *;
        rewrite ?E1, ?E2, ?E0 in *; (split; [lia|]);
        set (P := IZR (Z.pos p)) in *; nra.
    + rewrite (Pos2Z.inj_xO p) in H.
      destruct r, s; cbn [shr_1 shr_m loc_of_shr_record orb inbetween] in *;
        unfold F2R in *; rewrite ?plus_IZR, ?mult_IZR in *;
        rewrite ?E1, ?E2, ?E0 in *; (split; [lia|]);
        set (P := IZR (Z.pos p)) in *; nra.
    + destruct r, s; cbn [shr_1 shr_m loc_of_shr_record orb inbetween] in *;
        unfold F2R in *; cbn in *;
        rewrite ?E1, ?E2, ?E0 in *; (split; [lia|]); lra.
Qed.

Definition located (mrs : shr_record) (e : Z) (v : R) : Prop :=
  (0 <= shr_m mrs)%Z /\ inbetween (shr_m mrs) e (loc_of_shr_record mrs) v.

Lemma iter_shr_1_located (p : positive) :
  forall mrs e v, located mrs e v -> located (iter_pos shr_1 p mrs) (e + Zpos p) v.
Proof.
  assert (step : forall mrs e v, located mrs e v -> located (shr_1 mrs) (e + 1) v).
  { intros mrs e v [H0 H1]. apply shr_1_inbetween; assumption. }
  induction p as [p IH|p IH|]; intros mrs e v H; cbn [iter_pos].
  - replace (e + Z.pos p~1)%Z with (e + 1 + Z.pos p + Z.pos p)%Z by lia.
    apply IH, IH, step, H.
  - replace (e + Z.pos p~0)%Z with (e + Z.pos p + Z.pos p)%Z by lia.
    apply IH, IH, H.
  - apply step, H.
Qed.

Lemma shr_located (mrs : shr_record) (e n : Z) (v : R) :
  located mrs e v ->
  located (fst (shr mrs e n)) (snd (shr mrs e n)) v
  /\ snd (shr mrs e n) = (e + Z.max n 0)%Z.
Proof.
  intros H. destruct n as [|p|p]; cbn [shr fst snd].
  - split; [exact H|lia].
  - split; [apply iter_shr_1_located; exact H|lia].
  - split; [exact H|lia].
Qed.

Lemma shr_record_of_loc_located (m e : Z) (l : location) (v : R) :
  (0 <= m)%Z -> inbetween m e l v -> located (shr_record_of_loc m l) e v.
Proof.
  intros Hm H. destruct l as [|[]]; split; cbn; assumption.
Qed.

Definition fexp64 (e : Z) : Z := SpecFloat.fexp prec emax e.

Lemma fexp64_eq (e : Z) : fexp64 e = Z.max (e - 53) (-1074).
Proof. reflexivity. Qed.

(** Rounding to nearest: the rounded mantissa is within half a unit. *)
Lemma round_nearest_even_close (mrs : shr_record) (t : Z) (v : R) :
  located mrs t v ->
  let k := round_nearest_even (shr_m mrs) (loc_of_shr_record mrs) in
  (shr_m mrs <= k <= shr_m mrs + 1)%Z
  /\ Rabs (v - F2R k t) <= bpow t / 2
  /\ (0 < v -> k = 0%Z -> v <= bpow t / 2).
Proof.
  intros [Hm H]. destruct mrs as [m r s]. cbn [shr_m] in *.
  pose proof (bpow_gt_0 (t - 1)) as HB.
  assert (E0 : bpow t = 2 * bpow (t - 1)) by apply bpow_pred.
  destruct r, s; cbn [loc_of_shr_record round_nearest_even inbetween] in *;
    cbv zeta; unfold F2R in *; rewrite ?plus_IZR, ?mult_IZR in *; rewrite E0 in *.
  - (* Gt *) split; [lia|]. rewrite ?plus_IZR. split.
    + apply Rabs_le. set (P := IZR m) in *. nra.
    + intros _ Hk. assert (m = -1)%Z by lia. lia.
  - (* Eq *) destruct (Z.even m) eqn:Ev.
    + split; [lia|]. split.
      * apply Rabs_le. set (P := IZR m) in *. nra.
      * intros _ ->. simpl in *. lra.
    + split; [lia|]. rewrite ?plus_IZR. split.
      * apply Rabs_le. set (P := IZR m) in *. nra.
      * intros _ Hk. lia.
  - (* Lt *) split; [lia|]. split.
    + apply Rabs_le. set (P := IZR m) in *. nra.
    + intros _ ->. simpl in *. lra.
  - (* Exact *) split; [lia|]. split.
    + apply Rabs_le. set (P := IZR m) in *. nra.
    + intros Hv ->. simpl in *. lra.
Qed.

(** *** Renormalisation *)

Lemma located_bounds (mrs : shr_record) (e : Z) (v : R) :
  located mrs e v -> F2R (shr_m mrs) e <= v < F2R (shr_m mrs + 1) e.
Proof.
  intros [Hm H]. destruct (loc_of_shr_record mrs) as [|c]; cbn [inbetween] in H.
  - subst v. unfold F2R. rewrite plus_IZR. pose proof (bpow_gt_0 e). nra.
  - destruct H as [[L U] _]. lra.
Qed.

Lemma F2R_lt_inv (m1 m2 e : Z) : F2R m1 e < F2R m2 e -> (m1 < m2)%Z.
Proof.
  unfold F2R. intros H. apply lt_IZR. pose proof (bpow_gt_0 e). nra.
Qed.

Lemma F2R_le_inv (m1 m2 e : Z) : F2R m1 e <= F2R m2 e -> (m1 <= m2)%Z.
Proof.
  unfold F2R. intros H. apply le_IZR. pose proof (bpow_gt_0 e). nra.
Qed.

Lemma F2R_bpow (a e : Z) : (0 <= a)%Z -> F2R (2 ^ a) e = bpow (a + e).
Proof.
  intros H. unfold F2R. rewrite <- bpow_IZR by exact H. rewrite bpow_add. ring.
Qed.

Lemma Zdigits2_bounds (k : Z) :
  (0 < k)%Z -> (2 ^ (Zdigits2 k - 1) <= k < 2 ^ Zdigits2 k)%Z /\ (0 < Zdigits2 k)%Z.
Proof.
  destruct k as [|p|p]; try lia. intros _. cbn [Zdigits2].
  split; [apply digits2_pos_bounds | lia].
Qed.

Lemma Zdigits2_unique (k d : Z) :
  (2 ^ (d - 1) <= k < 2 ^ d)%Z -> (0 < d)%Z -> Zdigits2 k = d.
Proof.
  intros [L U] Hd.
  assert (Hk : (0 < k)%Z) by (pose proof (Z.pow_pos_nonneg 2 (d - 1) ltac:(lia) ltac:(lia)); lia).
  destruct (Zdigits2_bounds k Hk) as [[L' U'] Hd'].
  assert (H1 : (d - 1 < Zdigits2 k)%Z).
  { apply (Z.pow_lt_mono_r_iff 2); lia. }
  assert (H2 : (Zdigits2 k - 1 < d)%Z).
  { apply (Z.pow_lt_mono_r_iff 2); lia. }
  lia.
Qed.

(** The second normalisation of [binary_round_aux]: after rounding, the
    mantissa has at most one digit too many, and then it is a power of 2. *)
Lemma shr_fexp_renorm (k t : Z) :
  (0 < k)%Z ->
  fexp64 (Zdigits2 k + t) = t \/ (k = 2 ^ 53 /\ fexp64 (54 + t) = t + 1)%Z ->
  exists m'' e'',
    shr_m (fst (shr_fexp prec emax k t loc_Exact)) = Zpos m''
    /\ snd (shr_fexp prec emax k t loc_Exact) = e''
    /\ F2R (Zpos m'') e'' = F2R k t
    /\ canonical_mantissa prec emax m'' e'' = true.
Proof.
  intros Hk [H|[-> H]].
  - unfold shr_fexp. fold (fexp64 (Zdigits2 k + t)). rewrite H, Z.sub_diag.
    destruct k as [|p|p]; try lia. cbn [shr shr_record_of_loc fst snd shr_m].
    exists p, t. repeat split.
    unfold canonical_mantissa. cbn [Zdigits2] in H. fold (fexp64 (Z.pos (digits2_pos p) + t)).
    rewrite H. apply Z.eqb_refl.
  - unfold shr_fexp. change (Zdigits2 (2 ^ 53)) with 54%Z.
    fold (fexp64 (54 + t)). rewrite H.
    replace (t + 1 - t)%Z with 1%Z by lia.
    cbn [shr shr_record_of_loc fst snd shr_m iter_pos].
    exists (2 ^ 52)%positive, (t + 1)%Z. split; [reflexivity|]. split; [reflexivity|].
    split.
    + unfold F2R. rewrite bpow_succ.
      change (Z.pos (2 ^ 52)) with (2 ^ 52)%Z.
      replace (2 ^ 53)%Z with (2 * 2 ^ 52)%Z by reflexivity. rewrite mult_IZR. ring.
    + unfold canonical_mantissa. change (Z.pos (digits2_pos (2 ^ 52))) with 53%Z.
      fold (fexp64 (53 + (t + 1))). apply Z.eqb_eq.
      rewrite fexp64_eq in *. lia.
Qed.

(** *** The rounding function *)

(** What [binary_round_aux] returns for a positive real [v] located by
    [(mx, ex, lx)] with enough digits: a multiple [k * 2^t] of the unit
    [2^t] of [v]'s binade, within half a unit of [v]. *)
Definition round_result (sx : bool) (k t : Z) (f : spec_float) : Prop :=
  match f with
  | S754_zero s => s = sx /\ k = 0%Z
  | S754_finite s m e =>
      s = sx /\ F2R (Zpos m) e = F2R k t /\ valid_binary (S754_finite s m e) = true
  | S754_infinity s => s = sx /\ bpow 1024 <= F2R k t
  | S754_nan => False
  end.

Lemma binary_round_aux_correct (sx : bool) (mx ex : Z) (lx : location) (v : R) (M : Z) :
  (0 <= mx)%Z ->
  inbetween mx ex lx v ->
  bpow (M - 1) <= v < bpow M ->
  (ex <= fexp64 M)%Z ->
  exists k,
    (0 <= k)%Z
    /\ Rabs (v - F2R k (fexp64 M)) <= bpow (fexp64 M) / 2
    /\ round_result sx k (fexp64 M) (binary_round_aux prec emax sx mx ex lx).
Proof.
  intros Hmx Hin [HvL HvU] Hex.
  set (t := fexp64 M) in *.
  pose proof (bpow_gt_0 (M - 1)) as HM1.
  assert (Hv : 0 < v) by lra.
  (* the first shift brings the exponent to [t] *)
  pose proof (shr_record_of_loc_located mx ex lx v Hmx Hin) as Hloc0.
  pose proof (located_bounds _ _ _ Hloc0) as Hb0.
  assert (Hshr_m0 : shr_m (shr_record_of_loc mx lx) = mx) by (destruct lx as [|[]]; reflexivity).
  rewrite Hshr_m0 in Hb0.
  assert (Ht : fexp64 (Zdigits2 mx + ex) = t).
  { destruct (Z.eq_dec mx 0) as [->|Hnz].
    - cbn [Zdigits2]. unfold F2R in Hb0. cbn in Hb0.
      assert (HMex : (M - 1 < ex)%Z) by (apply bpow_lt_inv; lra).
      unfold t in *. rewrite !fexp64_eq in *. lia.
    - assert (Hpos : (0 < mx)%Z) by lia.
      destruct (Zdigits2_bounds mx Hpos) as [[L U] Hd].
      assert (E : (Zdigits2 mx + ex)%Z = M).
      { apply (mag_unique v); [|split; assumption].
        destruct Hb0 as [B1 B2]. split.
        - apply Rle_trans with (F2R mx ex); [|exact B1].
          replace (Zdigits2 mx + ex - 1)%Z with ((Zdigits2 mx - 1) + ex)%Z by lia.
          rewrite <- F2R_bpow by lia. unfold F2R. apply IZR_le in L.
          pose proof (bpow_gt_0 ex). nra.
        - apply Rlt_le_trans with (F2R (mx + 1) ex); [exact B2|].
          rewrite <- F2R_bpow by lia. unfold F2R.
          assert (U' : (mx + 1 <= 2 ^ Zdigits2 mx)%Z) by lia. apply IZR_le in U'.
          pose proof (bpow_gt_0 ex). nra. }
      rewrite E. reflexivity. }
  unfold binary_round_aux, shr_fexp at 1.
  fold (fexp64 (Zdigits2 mx + ex)). rewrite Ht.
  destruct (shr_located (shr_record_of_loc mx lx) ex (t - ex) v Hloc0) as [Hloc1 He1].
  destruct (shr (shr_record_of_loc mx lx) ex (t - ex)) as [mrs' e'] eqn:Eshr.
  cbn [fst snd] in Hloc1.
  cbn [fst snd] in He1.
  assert (He' : e' = t) by lia. clear He1. subst e'.
  pose proof (located_bounds _ _ _ Hloc1) as Hb1.
  destruct (round_nearest_even_close mrs' t v Hloc1) as (Hk1 & Hk2 & _).
  set (k := round_nearest_even (shr_m mrs') (loc_of_shr_record mrs')) in *.
  destruct Hloc1 as [Hm' _].
  exists k. split; [lia|]. split; [exact Hk2|].
  (* bounds on the truncated mantissa *)
  assert (Hup : (shr_m mrs' + 1 <= 2 ^ Z.max (M - t) 0)%Z).
  { destruct (Z.le_gt_cases t M) as [Hle|Hgt].
    - rewrite Z.max_l by lia.
      assert (Hlt : (shr_m mrs' < 2 ^ (M - t))%Z).
      { apply (F2R_lt_inv _ _ t). rewrite F2R_bpow by lia.
        replace (M - t + t)%Z with M by lia. lra. }
      lia.
    - rewrite Z.max_r by lia. change (2 ^ 0)%Z with 1%Z.
      assert (Hlt : (shr_m mrs' < 1)%Z).
      { apply (F2R_lt_inv _ _ t). unfold F2R at 2. rewrite Rmult_1_l.
        apply Rle_lt_trans with v; [apply Hb1|].
        apply Rlt_trans with (bpow M); [exact HvU | apply bpow_lt; exact Hgt]. }
      lia. }
  assert (Hlow : (t <= M - 1 -> 2 ^ (M - 1 - t) <= shr_m mrs')%Z).
  { intros Hle.
    assert (Hlt : (2 ^ (M - 1 - t) < shr_m mrs' + 1)%Z).
    { apply (F2R_lt_inv _ _ t). rewrite F2R_bpow by lia.
      replace (M - 1 - t + t)%Z with (M - 1)%Z by lia. lra. }
    lia. }
  destruct (Z.eq_dec k 0) as [Hk0|Hknz].
  - (* the result is zero *)
    rewrite Hk0. unfold shr_fexp. cbn [Zdigits2 shr_record_of_loc].
    assert (Hz : forall n, shr_m (fst (shr (Build_shr_record 0 false false) t n)) = 0%Z).
    { intros n.
      assert (Hl : located (Build_shr_record 0 false false) t 0).
      { split; cbn; [lia|]. unfold F2R. cbn. ring. }
      destruct (shr_located _ t n 0 Hl) as [Hl' _].
      pose proof (located_bounds _ _ _ Hl') as [B1 B2]. destruct Hl' as [Hnn _].
      unfold F2R in B1, B2.
      pose proof (bpow_gt_0 (snd (shr {| shr_m := 0; shr_r := false; shr_s := false |} t n))).
      assert (IZR (shr_m (fst (shr {| shr_m := 0; shr_r := false; shr_s := false |} t n))) <= 0) by nra.
      apply le_IZR in H0. lia. }
    specialize (Hz (SpecFloat.fexp prec emax (0 + t) - t)%Z).
    destruct (shr _ t _) as [mrs'' e'']. cbn [fst] in Hz. rewrite Hz.
    cbn. split; reflexivity.
  - assert (Hkpos : (0 < k)%Z) by lia.
    assert (Hpre : fexp64 (Zdigits2 k + t) = t \/ (k = 2 ^ 53 /\ fexp64 (54 + t) = t + 1)%Z).
    { destruct (Z.le_gt_cases t (M - 1)) as [Hle|Hgt].
      - specialize (Hlow Hle). rewrite Z.max_l in Hup by lia.
        destruct (Z.eq_dec k (2 ^ (M - t))) as [Hk|Hk].
        + assert (Hd : Zdigits2 k = (M - t + 1)%Z).
          { apply Zdigits2_unique; [|lia]. rewrite Hk.
            replace (M - t + 1 - 1)%Z with (M - t)%Z by lia.
            split; [lia|]. apply Z.pow_lt_mono_r; lia. }
          rewrite Hd. unfold t in *. rewrite !fexp64_eq in *.
          destruct (Z.le_gt_cases (-1074) (M - 53)) as [Hn|Hs].
          * right. split; [|lia]. rewrite Hk. f_equal. lia.
          * left. lia.
        + left.
          assert (Hd : Zdigits2 k = (M - t)%Z).
          { apply Zdigits2_unique; [|lia].
            replace (M - t - 1)%Z with (M - 1 - t)%Z by lia. lia. }
          rewrite Hd. replace (M - t + t)%Z with M by lia. reflexivity.
      - left. rewrite Z.max_r in Hup by lia. change (2 ^ 0)%Z with 1%Z in Hup.
        assert (Hk : k = 1%Z) by lia. rewrite Hk. cbn [Zdigits2 digits2_pos].
        unfold t in *. rewrite !fexp64_eq in *. lia. }
    destruct (shr_fexp_renorm k t Hkpos Hpre) as (m'' & e'' & Em & Ee & EF & Ecan).
    destruct (shr_fexp prec emax k t loc_Exact) as [mrs'' e2] eqn:Eshr2.
    cbn [fst snd] in Em. cbn [fst snd] in Ee. subst e2. rewrite Em.
    destruct (e'' <=? emax - prec)%Z eqn:Eov.
    + cbn [round_result]. split; [reflexivity|]. split; [exact EF|].
      cbn [valid_binary]. unfold bounded. rewrite Ecan, Eov. reflexivity.
    + cbn [round_result]. split; [reflexivity|]. rewrite <- EF.
      apply Z.leb_gt in Eov. change (emax - prec)%Z with 971%Z in Eov.
      unfold canonical_mantissa in Ecan. apply Z.eqb_eq in Ecan.
      fold (fexp64 (Z.pos (digits2_pos m'') + e'')) in Ecan. rewrite fexp64_eq in Ecan.
      assert (Hd : Z.pos (digits2_pos m'') = 53%Z) by lia.
      pose proof (F2R_pos_mag m'' e'') as [L _]. rewrite Hd in L.
      apply Rle_trans with (bpow (53 + e'' - 1)); [apply bpow_le; lia | exact L].
Qed.

(** *** Monotonicity on reals *)

Lemma fexp64_mono (a b : Z) : (a <= b)%Z -> (fexp64 a <= fexp64 b)%Z.
Proof. rewrite !fexp64_eq. lia. Qed.

Lemma Rabs_le_both (x b : R) : Rabs x <= b -> - b <= x <= b.
Proof.
  unfold Rabs. destruct (Rcase_abs x); lra.
Qed.

(** Rounding to nearest is monotone: the core, on reals. *)
Lemma round_core (v1 v2 : R) (M1 M2 k1 k2 : Z) :
  bpow (M1 - 1) <= v1 < bpow M1 ->
  bpow (M2 - 1) <= v2 < bpow M2 ->
  Rabs (v1 - F2R k1 (fexp64 M1)) <= bpow (fexp64 M1) / 2 ->
  Rabs (v2 - F2R k2 (fexp64 M2)) <= bpow (fexp64 M2) / 2 ->
  v1 < v2 ->
  F2R k1 (fexp64 M1) <= F2R k2 (fexp64 M2).
Proof.
  intros H1 H2 C1 C2 Hlt.
  assert (HM : (M1 <= M2)%Z) by (apply (mag_le v1 v2); try assumption; lra).
  pose proof (fexp64_mono _ _ HM) as Ht.
  apply Rabs_le_both in C1. apply Rabs_le_both in C2.
  destruct (Z.eq_dec (fexp64 M1) (fexp64 M2)) as [E|NE].
  - rewrite E in *. set (t := fexp64 M2) in *.
    pose proof (bpow_gt_0 t) as HB. unfold F2R in *.
    destruct (Z.le_gt_cases k1 k2) as [L|G].
    + apply IZR_le in L. nra.
    + assert (G' : (k2 + 1 <= k1)%Z) by lia. apply IZR_le in G'.
      rewrite plus_IZR in G'. nra.
  - assert (Hlt' : (fexp64 M1 < fexp64 M2)%Z) by lia.
    assert (Et2 : fexp64 M2 = (M2 - 53)%Z) by (rewrite !fexp64_eq in *; lia).
    assert (HM' : (M1 < M2)%Z).
    { destruct (Z.eq_dec M1 M2); [subst; lia | lia]. }
    set (t1 := fexp64 M1) in *. set (t2 := fexp64 M2) in *.
    assert (HB1 : bpow (M2 - 1) = F2R (2 ^ (M2 - 1 - t1)) t1).
    { rewrite F2R_bpow by lia. f_equal. lia. }
    assert (HB2 : bpow (M2 - 1) = F2R (2 ^ 52) t2).
    { rewrite F2R_bpow by lia. f_equal. lia. }
    assert (Hv1 : v1 < bpow (M2 - 1)).
    { apply Rlt_le_trans with (bpow M1); [apply H1 | apply bpow_le; lia]. }
    apply Rle_trans with (bpow (M2 - 1)).
    + rewrite HB1. unfold F2R in *. pose proof (bpow_gt_0 t1) as HB.
      destruct (Z.le_gt_cases k1 (2 ^ (M2 - 1 - t1))) as [L|G].
      * apply IZR_le in L. nra.
      * assert (G' : (2 ^ (M2 - 1 - t1) + 1 <= k1)%Z) by lia. apply IZR_le in G'.
        rewrite plus_IZR in G'. nra.
    + rewrite HB2. unfold F2R in *. pose proof (bpow_gt_0 t2) as HB.
      destruct (Z.le_gt_cases (2 ^ 52) k2) as [L|G].
      * apply IZR_le in L. nra.
      * assert (G' : (k2 + 1 <= 2 ^ 52)%Z) by lia. apply IZR_le in G'.
        rewrite plus_IZR in G'. nra.
Qed.

(** *** Values of numbers *)

(** The real value of a finite number; 0 for the others. *)
Definition SF2R (f : spec_float) : R :=
  match f with
  | S754_finite s m e => F2R (cond_Zopp s (Zpos m)) e
  | _ => 0
  end.

(** Finite and not negative: a zero or a positive finite number. *)
Definition nnf (f : spec_float) : Prop :=
  match f with
  | S754_zero _ => True
  | S754_finite s _ _ => s = false
  | _ => False
  end.

Definition is_zero_sf (f : spec_float) : Prop :=
  match f with
  | S754_zero _ => True
  | _ => False
  end.

(** [f] is a result of rounding the positive real [v] to nearest. *)
Definition rounds (v : R) (f : spec_float) : Prop :=
  exists M k,
    bpow (M - 1) <= v < bpow M
    /\ Rabs (v - F2R k (fexp64 M)) <= bpow (fexp64 M) / 2
    /\ (0 <= k)%Z
    /\ round_result false k (fexp64 M) f.

(** [f] is a result of rounding the non-negative real [v]. *)
Definition frounds (v : R) (f : spec_float) : Prop :=
  (v = 0 /\ is_zero_sf f) \/ (0 < v /\ rounds v f).

Lemma F2R_pos (m : positive) (e : Z) : 0 < F2R (Zpos m) e.
Proof.
  unfold F2R. pose proof (bpow_gt_0 e).
  assert (0 < IZR (Zpos m)) by (apply IZR_lt; lia). nra.
Qed.

Lemma nnf_SF2R_nonneg (f : spec_float) : nnf f -> 0 <= SF2R f.
Proof.
  destruct f as [s|s| |s m e]; cbn; try lra; try tauto.
  intros ->. cbn. pose proof (F2R_pos m e). lra.
Qed.

Lemma valid_finite_canonical (s : bool) (m : positive) (e : Z) :
  valid_binary (S754_finite s m e) = true ->
  fexp64 (Zpos (digits2_pos m) + e) = e /\ (e <= 971)%Z.
Proof.
  cbn [valid_binary]. unfold bounded, canonical_mantissa.
  intros H. apply andb_true_iff in H. destruct H as [H1 H2].
  apply Z.eqb_eq in H1. apply Z.leb_le in H2. split; assumption.
Qed.

Lemma valid_finite_lt_max (s : bool) (m : positive) (e : Z) :
  valid_binary (S754_finite s m e) = true -> F2R (Zpos m) e < bpow 1024.
Proof.
  intros H. destruct (valid_finite_canonical _ _ _ H) as [Hc He].
  pose proof (F2R_pos_mag m e) as [_ U].
  apply Rlt_le_trans with (1 := U). apply bpow_le.
  rewrite fexp64_eq in Hc. lia.
Qed.

(** A valid finite number is its own rounding. *)
Lemma rounds_self (m : positive) (e : Z) :
  valid_binary (S754_finite false m e) = true ->
  rounds (F2R (Zpos m) e) (S754_finite false m e).
Proof.
  intros H. destruct (valid_finite_canonical _ _ _ H) as [Hc He].
  exists (Zpos (digits2_pos m) + e)%Z, (Zpos m).
  split; [apply F2R_pos_mag|]. rewrite Hc. split.
  - replace (F2R (Z.pos m) e - F2R (Z.pos m) e) with 0 by ring.
    rewrite Rabs_R0. pose proof (bpow_gt_0 e). lra.
  - split; [lia|]. cbn. repeat split. exact H.
Qed.

(** Rounding is monotone on results. *)
Lemma rounds_mono (v1 v2 : R) (f1 f2 : spec_float) :
  rounds v1 f1 -> rounds v2 f2 -> v1 < v2 -> nnf f2 ->
  nnf f1 /\ SF2R f1 <= SF2R f2.
Proof.
  intros (M1 & k1 & Hm1 & Hc1 & Hk1 & Hr1) (M2 & k2 & Hm2 & Hc2 & Hk2 & Hr2) Hlt Hnn.
  pose proof (round_core _ _ _ _ _ _ Hm1 Hm2 Hc1 Hc2 Hlt) as Hle.
  assert (Hr2' : SF2R f2 = F2R k2 (fexp64 M2) /\ F2R k2 (fexp64 M2) < bpow 1024).
  { destruct f2 as [s|s| |s m e]; cbn in Hnn, Hr2; try tauto.
    - destruct Hr2 as [_ ->]. cbn. unfold F2R. rewrite Rmult_0_l.
      split; [reflexivity | apply bpow_gt_0].
    - destruct Hr2 as (-> & EF & Hv). cbn. rewrite <- EF.
      split; [reflexivity | apply (valid_finite_lt_max false _ _ Hv)]. }
  destruct Hr2' as [E2 U2]. rewrite E2.
  destruct f1 as [s|s| |s m e]; cbn in Hr1; try tauto.
  - destruct Hr1 as [_ ->]. cbn. split; [exact I|].
    unfold F2R in Hle at 1. rewrite Rmult_0_l in Hle. exact Hle.
  - destruct Hr1 as [_ Hinf]. lra.
  - destruct Hr1 as (-> & EF & Hv). cbn. split; [reflexivity|]. rewrite EF. exact Hle.
Qed.

Lemma frounds_mono (v1 v2 : R) (f1 f2 : spec_float) :
  frounds v1 f1 -> frounds v2 f2 -> v1 < v2 -> nnf f2 ->
  nnf f1 /\ SF2R f1 <= SF2R f2.
Proof.
  intros [[E1 Z1]|[P1 R1]] [[E2 Z2]|[P2 R2]] Hlt Hnn; try lra.
  - destruct f1; cbn in Z1; try tauto. cbn. split; [exact I|].
    apply nnf_SF2R_nonneg. exact Hnn.
  - apply (rounds_mono v1 v2); assumption.
Qed.

(** Valid non-negative finite numbers are determined by their value. *)
Lemma valid_F2R_inj (m1 m2 : positive) (e1 e2 : Z) :
  valid_binary (S754_finite false m1 e1) = true ->
  valid_binary (S754_finite false m2 e2) = true ->
  F2R (Zpos m1) e1 = F2R (Zpos m2) e2 -> m1 = m2 /\ e1 = e2.
Proof.
  intros H1 H2 E.
  destruct (valid_finite_canonical _ _ _ H1) as [C1 _].
  destruct (valid_finite_canonical _ _ _ H2) as [C2 _].
  pose proof (F2R_pos_mag m1 e1) as B1. pose proof (F2R_pos_mag m2 e2) as B2.
  rewrite E in B1.
  pose proof (mag_unique _ _ _ B1 B2) as EM. rewrite EM in C1.
  assert (Ee : e1 = e2) by congruence. subst e2. split; [|reflexivity].
  unfold F2R in E. pose proof (bpow_gt_0 e1).
  assert (IZR (Zpos m1) = IZR (Zpos m2)) by nra.
  apply eq_IZR in H0. congruence.
Qed.

Lemma nnf_val_inj (f1 f2 : spec_float) :
  valid_binary f1 = true -> valid_binary f2 = true -> nnf f1 -> nnf f2 ->
  SF2R f1 = SF2R f2 -> 0 < SF2R f1 -> f1 = f2.
Proof.
  intros V1 V2 N1 N2 E P.
  destruct f1 as [s1|s1| |s1 m1 e1]; cbn in N1, P; try tauto; try lra.
  destruct f2 as [s2|s2| |s2 m2 e2]; cbn in N2, E; try tauto; subst.
  - cbn in E. pose proof (F2R_pos m1 e1). lra.
  - cbn in E. destruct (valid_F2R_inj _ _ _ _ V1 V2 E) as [-> ->]. reflexivity.
Qed.

(** *** Multiplication, subtraction and conversion *)

Lemma shl_align_spec (m : positive) (e e' : Z) :
  F2R (Zpos (fst (shl_align m e e'))) (snd (shl_align m e e')) = F2R (Zpos m) e
  /\ snd (shl_align m e e') = Z.min e e'.
Proof.
  unfold shl_align. destruct (e' - e)%Z as [|d|d] eqn:E; cbn [fst snd].
  - split; [reflexivity | lia].
  - split; [reflexivity | lia].
  - split; [|lia].
    change (Pos.iter xO m d) with (shift_pos d m).
    rewrite shift_pos_correct. change (Z.pow_pos 2 d) with (2 ^ Zpos d)%Z.
    replace e' with (e - Zpos d)%Z by lia.
    rewrite Z.mul_comm. apply F2R_shift. lia.
Qed.

(** [binary_round] rounds the value of its argument. *)
Lemma binary_round_rounds (m : positive) (e : Z) :
  rounds (F2R (Zpos m) e) (binary_round prec emax false m e).
Proof.
  unfold binary_round.
  pose proof (shl_align_spec m e (SpecFloat.fexp prec emax (Z.pos (digits2_pos m) + e)))
    as [EF Ee].
  destruct (shl_align m e _) as [mz ez]. cbn [fst snd] in EF, Ee.
  fold (fexp64 (Z.pos (digits2_pos m) + e)) in Ee.
  set (M := (Z.pos (digits2_pos m) + e)%Z) in *.
  destruct (binary_round_aux_correct false (Zpos mz) ez loc_Exact (F2R (Zpos m) e) M)
    as (k & Hk & Hc & Hr).
  - lia.
  - cbn. symmetry. exact EF.
  - apply F2R_pos_mag.
  - lia.
  - exists M, k. split; [apply F2R_pos_mag|]. repeat split; assumption.
Qed.

Lemma binary_normalize_frounds (z e : Z) :
  (0 <= z)%Z -> frounds (F2R z e) (binary_normalize prec emax z e false).
Proof.
  intros Hz. destruct z as [|p|p]; [| |lia].
  - left. split; [unfold F2R; lra | exact I].
  - right. split; [apply F2R_pos | apply binary_round_rounds].
Qed.

Lemma digits_mul_ge (mx my : positive) :
  (Zpos (digits2_pos mx) + Zpos (digits2_pos my) - 1 <= Zpos (digits2_pos (mx * my)))%Z.
Proof.
  pose proof (digits2_pos_bounds mx) as [Lx Ux].
  pose proof (digits2_pos_bounds my) as [Ly Uy].
  pose proof (digits2_pos_bounds (mx * my)) as [L U].
  rewrite Pos2Z.inj_mul in *.
  set (dx := Zpos (digits2_pos mx)) in *. set (dy := Zpos (digits2_pos my)) in *.
  set (d := Zpos (digits2_pos (mx * my))) in *.
  assert (Hdx : (0 < dx)%Z) by (unfold dx; lia).
  assert (Hdy : (0 < dy)%Z) by (unfold dy; lia).
  assert (Hd : (0 < d)%Z) by (unfold d; lia).
  assert (H : (2 ^ (dx - 1 + (dy - 1)) < 2 ^ d)%Z).
  { rewrite Z.pow_add_r by lia. nia. }
  apply Z.pow_lt_mono_r_iff in H; lia.
Qed.

Lemma SFmul_frounds (x y : spec_float) :
  valid_binary x = true -> valid_binary y = true -> nnf x -> nnf y ->
  frounds (SF2R x * SF2R y) (SFmul prec emax x y).
Proof.
  intros Vx Vy Nx Ny.
  destruct x as [sx|sx| |sx mx ex]; cbn in Nx; try tauto;
    destruct y as [sy|sy| |sy my ey]; cbn in Ny; try tauto; subst;
    cbn [SFmul SF2R cond_Zopp xorb].
  - left. split; [ring | exact I].
  - left. split; [ring | exact I].
  - left. split; [ring | exact I].
  - right.
    destruct (valid_finite_canonical _ _ _ Vx) as [Cx _].
    destruct (valid_finite_canonical _ _ _ Vy) as [Cy _].
    pose proof (F2R_pos mx ex). pose proof (F2R_pos my ey).
    split; [nra|].
    assert (EV : F2R (Zpos mx) ex * F2R (Zpos my) ey = F2R (Zpos (mx * my)) (ex + ey)).
    { unfold F2R. rewrite Pos2Z.inj_mul, mult_IZR, bpow_add. ring. }
    rewrite EV.
    set (M := (Z.pos (digits2_pos (mx * my)) + (ex + ey))%Z).
    destruct (binary_round_aux_correct false (Zpos (mx * my)) (ex + ey) loc_Exact
                (F2R (Zpos (mx * my)) (ex + ey)) M) as (k & Hk & Hc & Hr).
    + lia.
    + reflexivity.
    + apply F2R_pos_mag.
    + pose proof (digits_mul_ge mx my). unfold M. rewrite !fexp64_eq in *. lia.
    + exists M, k. split; [apply F2R_pos_mag|]. repeat split; assumption.
Qed.

Lemma SFsub_frounds (x y : spec_float) :
  valid_binary x = true -> valid_binary y = true -> nnf x -> nnf y ->
  SF2R y <= SF2R x ->
  frounds (SF2R x - SF2R y) (SFsub prec emax x y).
Proof.
  intros Vx Vy Nx Ny Hle.
  destruct x as [sx|sx| |sx mx ex]; cbn in Nx; try tauto;
    destruct y as [sy|sy| |sy my ey]; cbn in Ny; try tauto; subst;
    cbn [SFsub SF2R cond_Zopp negb] in *.
  - left. split; [ring|]. destruct sx, sy; exact I.
  - pose proof (F2R_pos my ey). lra.
  - right. rewrite Rminus_0_r. split; [apply F2R_pos | apply rounds_self; exact Vx].
  - pose proof (shl_align_spec mx ex (Z.min ex ey)) as [Ex Eex].
    pose proof (shl_align_spec my ey (Z.min ex ey)) as [Ey Eey].
    destruct (shl_align mx ex (Z.min ex ey)) as [mx' ex'].
    destruct (shl_align my ey (Z.min ex ey)) as [my' ey'].
    cbn [fst snd] in *.
    rewrite Z.min_r in Eex by lia. rewrite Z.min_r in Eey by lia.
    subst ex' ey'. rewrite <- Ex, <- Ey in *.
    set (ez := Z.min ex ey) in *.
    assert (EV : F2R (Zpos mx') ez - F2R (Zpos my') ez = F2R (Zpos mx' - Zpos my') ez).
    { unfold F2R. rewrite minus_IZR. ring. }
    rewrite EV. apply binary_normalize_frounds.
    apply F2R_le_inv in Hle. lia.
Qed.

(** *** Division *)

Lemma bpow_sub (a b : Z) : bpow (a - b) = bpow a / bpow b.
Proof.
  pose proof (bpow_gt_0 b).
  replace a with ((a - b) + b)%Z at 2 by lia. rewrite bpow_add. field. lra.
Qed.

Lemma new_location_eq (d r : Z) :
  new_location d r =
  if (r =? 0)%Z then loc_Exact
  else loc_Inexact
         (if Z.even d then (2 * r ?= d)%Z
          else match (2 * r + 1 ?= d)%Z with
               | Gt => Gt
               | _ => Lt
               end).
Proof.
  unfold new_location, new_location_even, new_location_odd.
  destruct (Z.even d), (r =? 0)%Z; reflexivity.
Qed.

(** The location of a remainder: where [q + r/d] lies in [q, q+1). *)
Lemma new_location_inbetween (q r d e : Z) (x : R) :
  (0 < d)%Z -> (0 <= r < d)%Z -> x * IZR d = IZR r ->
  inbetween q e (new_location d r) ((IZR q + x) * bpow e).
Proof.
  intros Hd Hr Hx.
  pose proof (bpow_gt_0 (e - 1)) as HB.
  assert (E0 : bpow e = 2 * bpow (e - 1)) by apply bpow_pred.
  assert (HD : 0 < IZR d) by (apply IZR_lt; lia).
  rewrite new_location_eq.
  destruct (Z.eqb_spec r 0) as [->|Hnz].
  - assert (x = 0) by nra. subst x.
    cbn [inbetween]. unfold F2R. ring.
  - assert (Hrpos : (0 < r)%Z) by lia.
    assert (Hx0 : 0 < x) by (apply IZR_lt in Hrpos; nra).
    assert (Hx1 : x < 1).
    { assert (IZR r < IZR d) by (apply IZR_lt; lia). nra. }
    assert (Hcmp : forall c, (2 * r ?= d)%Z = c ->
              match c with
              | Lt => x < 1 / 2
              | Eq => x = 1 / 2
              | Gt => 1 / 2 < x
              end).
    { intros c Hc. destruct c.
      - apply Z.compare_eq in Hc. apply (f_equal IZR) in Hc.
        rewrite mult_IZR in Hc. nra.
      - apply Z.compare_lt_iff in Hc. apply IZR_lt in Hc.
        rewrite mult_IZR in Hc. nra.
      - apply Z.compare_gt_iff in Hc. apply IZR_lt in Hc.
        rewrite mult_IZR in Hc. nra. }
    assert (Hgoal : forall c,
              match c with
              | Lt => x < 1 / 2
              | Eq => x = 1 / 2
              | Gt => 1 / 2 < x
              end ->
              inbetween q e (loc_Inexact c) ((IZR q + x) * bpow e)).
    { intros c Hc. cbn [inbetween]. unfold F2R.
      rewrite ?plus_IZR, ?mult_IZR. rewrite E0.
      set (Q := IZR q) in *.
      destruct c; (split; [split; nra|]); nra. }
    destruct (Z.even d) eqn:Ev.
    + apply Hgoal, Hcmp. reflexivity.
    + apply Hgoal.
      assert (Hodd : (2 * r <> d)%Z).
      { intros E. rewrite <- E in Ev. rewrite Z.even_mul in Ev. discriminate. }
      destruct (2 * r + 1 ?= d)%Z eqn:Hc.
      * apply Z.compare_eq in Hc. apply (Hcmp Lt). apply Z.compare_lt_iff. lia.
      * change (2 * r + 1 < d)%Z in Hc. apply (Hcmp Lt). apply Z.compare_lt_iff. lia.
      * apply Z.compare_gt_iff in Hc. apply (Hcmp Gt). apply Z.compare_gt_iff. lia.
Qed.

Lemma SFdiv_core_rounds (mx my : positive) (ex ey : Z) :
  valid_binary (S754_finite false mx ex) = true ->
  valid_binary (S754_finite false my ey) = true ->
  rounds (F2R (Zpos mx) ex / F2R (Zpos my) ey)
    (let '(mz, ez, lz) := SFdiv_core_binary prec emax (Zpos mx) ex (Zpos my) ey in
     binary_round_aux prec emax false mz ez lz).
Proof.
  intros Vx Vy.
  unfold SFdiv_core_binary.
  change (Zdigits2 (Zpos mx)) with (Zpos (digits2_pos mx)).
  change (Zdigits2 (Zpos my)) with (Zpos (digits2_pos my)).
  set (d1 := Zpos (digits2_pos mx)). set (d2 := Zpos (digits2_pos my)).
  fold (fexp64 (d1 + ex - (d2 + ey))).
  set (e' := Z.min (fexp64 (d1 + ex - (d2 + ey))) (ex - ey)).
  set (s := (ex - ey - e')%Z).
  assert (Hs : (0 <= s)%Z) by (unfold s, e'; lia).
  set (m' := match s with
             | 0%Z => Z.pos mx
             | Z.pos _ => Z.shiftl (Z.pos mx) s
             | Z.neg _ => 0%Z
             end).
  assert (Hm' : m' = (Zpos mx * 2 ^ s)%Z).
  { unfold m'. destruct s as [|p|p] eqn:Es; [cbn; lia | | lia].
    apply Z.shiftl_mul_pow2. lia. }
  pose proof (Z_div_mod m' (Zpos my) ltac:(lia)) as Hdiv.
  destruct (Z.div_eucl m' (Z.pos my)) as [q r]. destruct Hdiv as [Eq Hr].
  set (v := F2R (Z.pos mx) ex / F2R (Z.pos my) ey).
  pose proof (F2R_pos mx ex) as Px. pose proof (F2R_pos my ey) as Py.
  assert (Pv : 0 < v) by (unfold v; apply Rdiv_lt_0_compat; assumption).
  assert (HD : 0 < IZR (Zpos my)) by (apply IZR_lt; lia).
  (* the value, through the quotient and the remainder *)
  assert (Ev : v = (IZR q + IZR r / IZR (Zpos my)) * bpow e').
  { unfold v, F2R.
    assert (E1 : bpow ex = bpow s * bpow e' * bpow ey).
    { rewrite <- !bpow_add. f_equal. unfold s. lia. }
    rewrite E1.
    assert (E2 : IZR (Zpos mx) * bpow s = IZR (Zpos my) * IZR q + IZR r).
    { rewrite (bpow_IZR s Hs), <- mult_IZR, <- Hm', Eq, plus_IZR, mult_IZR. reflexivity. }
    pose proof (bpow_gt_0 ey). pose proof (bpow_gt_0 e'). pose proof (bpow_gt_0 s).
    field_simplify_eq; [|split; lra]. nra. }
  assert (Hq : (0 <= q)%Z).
  { destruct (Z.le_gt_cases 0 q) as [L|G]; [exact L|exfalso].
    assert (Hm'pos : (0 < m')%Z).
    { rewrite Hm'. pose proof (Z.pow_pos_nonneg 2 s ltac:(lia) Hs). nia. }
    nia. }
  (* the magnitude of the quotient *)
  pose proof (F2R_pos_mag mx ex) as [Lx Ux]. pose proof (F2R_pos_mag my ey) as [Ly Uy].
  fold d1 in Lx, Ux. fold d2 in Ly, Uy.
  set (D0 := (d1 + ex - (d2 + ey))%Z) in *.
  assert (Hlow : bpow (D0 - 1) < v).
  { replace (D0 - 1)%Z with ((d1 + ex - 1) - (d2 + ey))%Z by (unfold D0; lia).
    rewrite bpow_sub. unfold v.
    pose proof (bpow_gt_0 (d2 + ey)). pose proof (bpow_gt_0 (d1 + ex - 1)).
    apply Rlt_le_trans with (bpow (d1 + ex - 1) / F2R (Zpos my) ey).
    - unfold Rdiv. apply Rmult_lt_compat_l; [lra|].
      apply Rinv_lt_contravar; [nra | lra].
    - unfold Rdiv. apply Rmult_le_compat_r; [|lra].
      apply Rlt_le, Rinv_0_lt_compat. lra. }
  assert (Hupp : v < bpow (D0 + 1)).
  { replace (D0 + 1)%Z with ((d1 + ex) - (d2 + ey - 1))%Z by (unfold D0; lia).
    rewrite bpow_sub. unfold v.
    pose proof (bpow_gt_0 (d2 + ey - 1)). pose proof (bpow_gt_0 (d1 + ex)).
    apply Rlt_le_trans with (bpow (d1 + ex) / F2R (Zpos my) ey).
    - unfold Rdiv. apply Rmult_lt_compat_r; [|lra].
      apply Rinv_0_lt_compat. lra.
    - unfold Rdiv. apply Rmult_le_compat_l; [lra|].
      apply Rinv_le_contravar; lra. }
  assert (HM : exists M, bpow (M - 1) <= v < bpow M /\ (D0 <= M)%Z).
  { destruct (Rlt_le_dec v (bpow D0)) as [L|G].
    - exists D0. split; [split; lra | lia].
    - exists (D0 + 1)%Z. replace (D0 + 1 - 1)%Z with D0 by lia.
      split; [split; lra | lia]. }
  destruct HM as (M & HMv & HMD).
  destruct (binary_round_aux_correct false q e' (new_location (Zpos my) r) v M)
    as (k & Hk & Hc & Hres).
  - exact Hq.
  - rewrite Ev. apply new_location_inbetween; [lia | lia |].
    field. lra.
  - exact HMv.
  - pose proof (fexp64_mono _ _ HMD). unfold e'. lia.
  - exists M, k. repeat split; try assumption; apply HMv.
Qed.

Lemma SFdiv_frounds (x y : spec_float) :
  valid_binary x = true -> valid_binary y = true -> nnf x -> nnf y ->
  0 < SF2R y ->
  frounds (SF2R x / SF2R y) (SFdiv prec emax x y).
Proof.
  intros Vx Vy Nx Ny Hy.
  destruct y as [sy|sy| |sy my ey]; cbn in Ny, Hy; try tauto; try lra. subst sy.
  destruct x as [sx|sx| |sx mx ex]; cbn in Nx; try tauto; subst;
    cbn [SFdiv SF2R cond_Zopp xorb].
  - left. split; [unfold Rdiv; ring | exact I].
  - right. pose proof (F2R_pos mx ex). pose proof (F2R_pos my ey).
    split; [apply Rdiv_lt_0_compat; assumption|].
    apply SFdiv_core_rounds; assumption.
Qed.

(** *** Primitive floats *)

(** Non-negative and not [NaN]: a zero, a positive finite number or [+Infinity]. *)
Definition nns (f : spec_float) : Prop :=
  match f with
  | S754_zero _ => True
  | S754_finite s _ _ => s = false
  | S754_infinity s => s = false
  | S754_nan => False
  end.

(** Non-negative or [NaN]. *)
Definition nnn (f : spec_float) : Prop := f = S754_nan \/ nns f.

Lemma nnf_nns (f : spec_float) : nnf f -> nns f.
Proof. destruct f; cbn; tauto. Qed.

Lemma rounds_nns (v : R) (f : spec_float) : rounds v f -> nns f /\ valid_binary f = true.
Proof.
  intros (M & k & _ & _ & _ & Hr).
  destruct f as [s|s| |s m e]; cbn in Hr |- *; tauto.
Qed.

Lemma frounds_nns (v : R) (f : spec_float) : frounds v f -> nns f /\ valid_binary f = true.
Proof.
  intros [[_ Z]|[_ H]]; [|apply (rounds_nns v); exact H].
  destruct f; cbn in Z |- *; tauto.
Qed.

Lemma frounds_self (f : spec_float) :
  valid_binary f = true -> nnf f -> frounds (SF2R f) f.
Proof.
  intros V N. destruct f as [s|s| |s m e]; cbn in N; try tauto.
  - left. split; [reflexivity | exact I].
  - subst s. right. cbn. split; [apply F2R_pos | apply rounds_self; exact V].
Qed.

(** Monotonicity of rounding, equal values included when they come from
    equal arguments. *)
Lemma frounds_mono_le (v1 v2 : R) (f1 f2 : spec_float) :
  frounds v1 f1 -> frounds v2 f2 -> v1 <= v2 -> nnf f2 ->
  (0 < v1 -> v1 = v2 -> f1 = f2) ->
  nnf f1 /\ SF2R f1 <= SF2R f2.
Proof.
  intros H1 H2 Hle N2 Heq.
  destruct (Rle_lt_or_eq_dec _ _ Hle) as [Hlt|E].
  - apply (frounds_mono v1 v2); assumption.
  - destruct H1 as [[E1 Z1]|[P1 R1]].
    + destruct f1; cbn in Z1; try tauto. cbn. split; [exact I|].
      apply nnf_SF2R_nonneg; exact N2.
    + rewrite (Heq P1 E). split; [exact N2 | lra].
Qed.

(** The operations on primitive floats. *)

Definition fval (x : float) : R := SF2R (Prim2SF x).
Definition fnn (x : float) : Prop := nnf (Prim2SF x).

Lemma fnn_val_inj (x y : float) :
  fnn x -> fnn y -> fval x = fval y -> 0 < fval x -> x = y.
Proof.
  intros Nx Ny E P. apply Prim2SF_inj.
  apply nnf_val_inj; try assumption; apply Prim2SF_valid.
Qed.

Lemma mul_frounds (x y : float) :
  fnn x -> fnn y -> frounds (fval x * fval y) (Prim2SF (x * y)).
Proof.
  intros Nx Ny. rewrite mul_spec.
  apply SFmul_frounds; try assumption; apply Prim2SF_valid.
Qed.

Lemma div_frounds (x y : float) :
  fnn x -> fnn y -> 0 < fval y -> frounds (fval x / fval y) (Prim2SF (x / y)).
Proof.
  intros Nx Ny Py. rewrite div_spec.
  apply SFdiv_frounds; try assumption; apply Prim2SF_valid.
Qed.

Lemma sub_frounds (x y : float) :
  fnn x -> fnn y -> fval y <= fval x -> frounds (fval x - fval y) (Prim2SF (x - y)).
Proof.
  intros Nx Ny Hle. rewrite sub_spec.
  apply SFsub_frounds; try assumption; apply Prim2SF_valid.
Qed.

Lemma Number_frounds (z : Z) :
  (0 <= z)%Z -> frounds (IZR z) (Prim2SF (JS.Number z)).
Proof.
  intros Hz. unfold JS.Number.
  pose proof (binary_normalize_frounds z 0 Hz) as H.
  assert (E : F2R z 0 = IZR z) by (unfold F2R; rewrite bpow_0; ring).
  rewrite E in H.
  rewrite Prim2SF_SF2Prim; [exact H|].
  apply (frounds_nns _ _ H).
Qed.

Lemma fnn_fval_nonneg (x : float) : fnn x -> 0 <= fval x.
Proof. apply nnf_SF2R_nonneg. Qed.

(** *** Monotonicity *)

Lemma mul_mono_l (x1 x2 c : float) :
  fnn x1 -> fnn x2 -> fnn c -> fval x1 <= fval x2 -> fnn (x2 * c) ->
  fnn (x1 * c) /\ fval (x1 * c) <= fval (x2 * c).
Proof.
  intros N1 N2 Nc Hle Nr.
  pose proof (fnn_fval_nonneg _ N1). pose proof (fnn_fval_nonneg _ Nc).
  apply (frounds_mono_le (fval x1 * fval c) (fval x2 * fval c)).
  - apply mul_frounds; assumption.
  - apply mul_frounds; assumption.
  - nra.
  - exact Nr.
  - intros P E. assert (fval x1 = fval x2) by nra.
    assert (0 < fval x1) by nra.
    rewrite (fnn_val_inj x1 x2); auto.
Qed.

Lemma mul_mono_r (c x1 x2 : float) :
  fnn x1 -> fnn x2 -> fnn c -> fval x1 <= fval x2 -> fnn (c * x2) ->
  fnn (c * x1) /\ fval (c * x1) <= fval (c * x2).
Proof.
  intros N1 N2 Nc Hle Nr.
  pose proof (fnn_fval_nonneg _ N1). pose proof (fnn_fval_nonneg _ Nc).
  apply (frounds_mono_le (fval c * fval x1) (fval c * fval x2)).
  - apply mul_frounds; assumption.
  - apply mul_frounds; assumption.
  - nra.
  - exact Nr.
  - intros P E. assert (fval x1 = fval x2) by nra.
    assert (0 < fval x1) by nra.
    rewrite (fnn_val_inj x1 x2); auto.
Qed.

Lemma div_mono_num (n1 n2 d : float) :
  fnn n1 -> fnn n2 -> fnn d -> 0 < fval d -> fval n1 <= fval n2 -> fnn (n2 / d) ->
  fnn (n1 / d) /\ fval (n1 / d) <= fval (n2 / d).
Proof.
  intros N1 N2 Nd Pd Hle Nr.
  pose proof (fnn_fval_nonneg _ N1).
  assert (Hi : 0 < / fval d) by (apply Rinv_0_lt_compat; exact Pd).
  apply (frounds_mono_le (fval n1 / fval d) (fval n2 / fval d)).
  - apply div_frounds; assumption.
  - apply div_frounds; assumption.
  - unfold Rdiv. nra.
  - exact Nr.
  - unfold Rdiv. intros P E. assert (fval n1 = fval n2) by nra.
    assert (0 < fval n1) by nra.
    rewrite (fnn_val_inj n1 n2); auto.
Qed.

Lemma div_mono_den (n d1 d2 : float) :
  fnn n -> fnn d1 -> fnn d2 -> 0 < fval d2 -> fval d2 <= fval d1 -> fnn (n / d2) ->
  fnn (n / d1) /\ fval (n / d1) <= fval (n / d2).
Proof.
  intros Nn N1 N2 P2 Hle Nr.
  pose proof (fnn_fval_nonneg _ Nn).
  assert (P1 : 0 < fval d1) by lra.
  assert (Hi : / fval d1 <= / fval d2) by (apply Rinv_le_contravar; assumption).
  assert (Hi1 : 0 < / fval d1) by (apply Rinv_0_lt_compat; exact P1).
  apply (frounds_mono_le (fval n / fval d1) (fval n / fval d2)).
  - apply div_frounds; assumption.
  - apply div_frounds; assumption.
  - unfold Rdiv. nra.
  - exact Nr.
  - unfold Rdiv. intros P E.
    assert (Pn : 0 < fval n) by nra.
    assert (Ei : / fval d1 = / fval d2) by nra.
    assert (Ed : fval d1 = fval d2).
    { rewrite <- (Rinv_inv (fval d1)), <- (Rinv_inv (fval d2)), Ei. reflexivity. }
    rewrite (fnn_val_inj d1 d2); auto.
Qed.

(** *** Subtraction, signs and integer parts *)

Lemma fnn_zero_val (x : float) :
  fnn x -> fval x = 0 -> exists s, Prim2SF x = S754_zero s.
Proof.
  unfold fnn, fval. destruct (Prim2SF x) as [s|s| |s m e]; cbn; try tauto.
  - intros _ _. exists s. reflexivity.
  - intros -> E. cbn in E. pose proof (F2R_pos m e). lra.
Qed.

Lemma fnn_pos_finite (x : float) :
  fnn x -> 0 < fval x -> exists m e, Prim2SF x = S754_finite false m e.
Proof.
  unfold fnn, fval. destruct (Prim2SF x) as [s|s| |s m e]; cbn; try tauto; try lra.
  intros -> _. exists m, e. reflexivity.
Qed.

Lemma sub_zero (t s : float) :
  fnn t -> 0 < fval t -> fnn s -> fval s = 0 -> Prim2SF (t - s) = Prim2SF t.
Proof.
  intros Nt Pt Ns Es.
  destruct (fnn_zero_val s Ns Es) as [ss Hs].
  destruct (fnn_pos_finite t Nt Pt) as (m & e & Ht).
  rewrite sub_spec, Hs, Ht. reflexivity.
Qed.

Lemma sub_nnf (t s : float) :
  fnn t -> fnn s -> fval s <= fval t ->
  fnn (t - s) /\ fval (t - s) <= fval t.
Proof.
  intros Nt Ns Hle.
  pose proof (fnn_fval_nonneg _ Ns) as Ps.
  apply (frounds_mono_le (fval t - fval s) (fval t)).
  - apply sub_frounds; assumption.
  - apply frounds_self; [apply Prim2SF_valid | exact Nt].
  - lra.
  - exact Nt.
  - intros P E. apply sub_zero; try assumption; lra.
Qed.

Lemma sub_anti (t s1 s2 : float) :
  fnn t -> fnn s1 -> fnn s2 -> fval s1 <= fval s2 -> fval s2 <= fval t ->
  fval (t - s2) <= fval (t - s1).
Proof.
  intros Nt N1 N2 H12 H2t.
  pose proof (fnn_fval_nonneg _ N1) as P1.
  destruct (sub_nnf t s1 Nt N1 ltac:(lra)) as [Nd1 _].
  apply (frounds_mono_le (fval t - fval s2) (fval t - fval s1)).
  - apply sub_frounds; assumption.
  - apply sub_frounds; try assumption. lra.
  - lra.
  - exact Nd1.
  - intros P E. assert (E12 : fval s1 = fval s2) by lra.
    destruct (Rle_lt_or_eq_dec _ _ P1) as [Pos|Z].
    + rewrite (fnn_val_inj s1 s2); auto.
    + rewrite (sub_zero t s2), (sub_zero t s1); auto; lra.
Qed.

(** *** Signs and finiteness through the operations *)

(** Not a negative finite number. *)
Definition nfn (f : spec_float) : Prop :=
  match f with
  | S754_finite s _ _ => s = false
  | _ => True
  end.

Definition fnfn (x : float) : Prop := nfn (Prim2SF x).

Lemma fnn_fnfn (x : float) : fnn x -> fnfn x.
Proof. unfold fnn, fnfn. destruct (Prim2SF x); cbn; tauto. Qed.

Lemma nns_nfn (f : spec_float) : nns f -> nfn f.
Proof. destruct f; cbn; tauto. Qed.

Lemma mul_fnfn (x y : float) : fnfn x -> fnfn y -> fnfn (x * y).
Proof.
  unfold fnfn. intros Hx Hy.
  pose proof (Prim2SF_valid x) as Vx. pose proof (Prim2SF_valid y) as Vy.
  pose proof (SFmul_frounds (Prim2SF x) (Prim2SF y) Vx Vy) as HF.
  rewrite mul_spec. unfold SF64mul.
  destruct (Prim2SF x) as [sx|sx| |sx mx ex], (Prim2SF y) as [sy|sy| |sy my ey];
    cbn in Hx, Hy; subst; try exact I.
  apply nns_nfn. apply (frounds_nns _ _ (HF eq_refl eq_refl)).
Qed.

Lemma div_fnfn (x y : float) : fnfn x -> fnfn y -> fnfn (x / y).
Proof.
  unfold fnfn. intros Hx Hy.
  pose proof (Prim2SF_valid x) as Vx. pose proof (Prim2SF_valid y) as Vy.
  pose proof (SFdiv_frounds (Prim2SF x) (Prim2SF y) Vx Vy) as HF.
  rewrite div_spec. unfold SF64div.
  destruct (Prim2SF x) as [sx|sx| |sx mx ex], (Prim2SF y) as [sy|sy| |sy my ey];
    cbn in Hx, Hy; subst; try exact I.
  apply nns_nfn. apply (frounds_nns _ _ (HF eq_refl eq_refl (F2R_pos my ey))).
Qed.

Lemma mul_fnn_inv (x y : float) :
  fnfn x -> fnfn y -> fnn (x * y) -> fnn x /\ fnn y.
Proof.
  unfold fnfn, fnn. intros Hx Hy. rewrite mul_spec. unfold SF64mul.
  destruct (Prim2SF x) as [sx|sx| |sx mx ex], (Prim2SF y) as [sy|sy| |sy my ey];
    cbn in Hx, Hy; subst; cbn; tauto.
Qed.

Lemma div_fnn_inv (x y : float) :
  fnfn x -> fnn y -> fnn (x / y) -> fnn x /\ 0 < fval y.
Proof.
  unfold fnfn, fnn, fval. intros Hx Hy. rewrite div_spec. unfold SF64div.
  destruct (Prim2SF x) as [sx|sx| |sx mx ex], (Prim2SF y) as [sy|sy| |sy my ey];
    cbn in Hx, Hy; subst; cbn [SFdiv nnf xorb]; try tauto;
    intros _; (split; [exact I || reflexivity|]); cbn; apply F2R_pos.
Qed.

(** *** The integer part *)

Lemma floorZ_some (x : float) (z : Z) :
  JS.floorZ x = Some z -> fnfn x -> fnn x.
Proof.
  unfold JS.floorZ, fnfn, fnn.
  destruct (Prim2SF x) as [s|s| |s m e]; cbn; intros H N;
    try discriminate; tauto.
Qed.

Lemma shiftl_floor (m : positive) (e : Z) :
  IZR (Z.shiftl (Zpos m) e) <= F2R (Zpos m) e < IZR (Z.shiftl (Zpos m) e) + 1.
Proof.
  destruct (Z.le_gt_cases 0 e) as [He|He].
  - rewrite Z.shiftl_mul_pow2 by exact He.
    rewrite mult_IZR. unfold F2R. rewrite <- (bpow_IZR e He). lra.
  - rewrite Z.shiftl_div_pow2 by lia.
    pose proof (Z.pow_pos_nonneg 2 (- e) ltac:(lia) ltac:(lia)) as Hp.
    pose proof (Z.div_mod (Zpos m) (2 ^ (- e)) ltac:(lia)) as Hdm.
    pose proof (Z.mod_pos_bound (Zpos m) (2 ^ (- e)) Hp) as Hmod.
    set (q := (Zpos m / 2 ^ (- e))%Z) in *.
    set (r := (Zpos m mod 2 ^ (- e))%Z) in *.
    unfold F2R. rewrite Hdm, plus_IZR, mult_IZR.
    pose proof (bpow_gt_0 e) as HB.
    assert (E : IZR (2 ^ (- e)) * bpow e = 1).
    { rewrite <- bpow_IZR by lia. rewrite <- bpow_add.
      replace (- e + e)%Z with 0%Z by lia. apply bpow_0. }
    assert (Hr0 : 0 <= IZR r) by (apply IZR_le; lia).
    assert (Hr1 : IZR r < IZR (2 ^ (- e))) by (apply IZR_lt; lia).
    set (P := IZR (2 ^ (- e))) in *. set (Q := IZR q) in *. set (Rr := IZR r) in *.
    replace ((P * Q + Rr) * bpow e) with (Q * (P * bpow e) + Rr * bpow e) by ring.
    rewrite E. split; nra.
Qed.

Lemma floorZ_mono (x1 x2 : float) (z1 z2 : Z) :
  fnn x1 -> fnn x2 -> fval x1 <= fval x2 ->
  JS.floorZ x1 = Some z1 -> JS.floorZ x2 = Some z2 -> (z1 <= z2)%Z.
Proof.
  unfold fnn, fval, JS.floorZ.
  destruct (Prim2SF x1) as [s1|s1| |s1 m1 e1]; cbn [nnf]; try tauto;
    destruct (Prim2SF x2) as [s2|s2| |s2 m2 e2]; cbn [nnf]; try tauto;
    intros N1 N2 Hle E1 E2; subst; injection E1 as <-; injection E2 as <-;
    cbn [SF2R cond_Zopp] in *.
  - lia.
  - pose proof (shiftl_floor m2 e2) as [L U]. pose proof (F2R_pos m2 e2).
    assert (H0 : IZR 0 < IZR (Z.shiftl (Zpos m2) e2) + 1) by lra.
    rewrite <- plus_IZR in H0. apply lt_IZR in H0. lia.
  - pose proof (F2R_pos m1 e1). lra.
  - pose proof (shiftl_floor m1 e1) as [L1 U1]. pose proof (shiftl_floor m2 e2) as [L2 U2].
    assert (H0 : IZR (Z.shiftl (Zpos m1) e1) < IZR (Z.shiftl (Zpos m2) e2) + 1) by lra.
    rewrite <- plus_IZR in H0. apply lt_IZR in H0. lia.
Qed.

Lemma floorZ_nonneg (x : float) (z : Z) :
  fnn x -> JS.floorZ x = Some z -> (0 <= z)%Z.
Proof.
  unfold fnn, JS.floorZ.
  destruct (Prim2SF x) as [s|s| |s m e]; cbn [nnf]; try tauto;
    intros N E; subst; injection E as <-; [lia|].
  cbn [cond_Zopp]. apply Z.shiftl_nonneg. lia.
Qed.

(** *** The scaled price *)

(** A zero or [NaN]. *)
Definition zn (f : spec_float) : Prop := f = S754_nan \/ is_zero_sf f.

Lemma mul_zn (x y : float) : zn (Prim2SF x) -> zn (Prim2SF (x * y)).
Proof.
  unfold zn. rewrite mul_spec. unfold SF64mul.
  destruct (Prim2SF x) as [sx|sx| |sx mx ex], (Prim2SF y) as [sy|sy| |sy my ey];
    cbn; intros [H|H]; try discriminate H; tauto.
Qed.

Lemma div_inf_zn (x y : float) :
  Prim2SF y = S754_infinity false \/ Prim2SF y = S754_nan -> zn (Prim2SF (x / y)).
Proof.
  unfold zn. rewrite div_spec. unfold SF64div.
  intros [-> | ->]; destruct (Prim2SF x) as [sx|sx| |sx mx ex]; cbn; tauto.
Qed.

Lemma inf_sub (x y : float) :
  Prim2SF x = S754_infinity false ->
  Prim2SF (x - y) = S754_infinity false \/ Prim2SF (x - y) = S754_nan.
Proof.
  rewrite sub_spec. unfold SF64sub. intros ->.
  destruct (Prim2SF y) as [sy|sy| |sy my ey]; cbn; try tauto.
  destruct sy; tauto.
Qed.

Lemma floorZ_zn (x : float) (z : Z) :
  zn (Prim2SF x) -> JS.floorZ x = Some z -> z = 0%Z.
Proof.
  unfold zn, JS.floorZ.
  destruct (Prim2SF x) as [s|s| |s m e]; cbn; intros [H|H] E;
    try discriminate; try tauto; congruence.
Qed.

Section Chain.

Variable this : Calculator.
Variable k : float.

Hypothesis k_sign : fnfn k.
Hypothesis cm_sign : fnfn (creatorMultiplier this).
Hypothesis vm_sign : fnfn (volumeMultiplier this).

(** The scaled number [volumePrice * 1e18] of [calculatePrice]. *)
Definition scaledPrice (supply : Z) : float :=
  (volumePrice this supply k * 1e18)%float.

Lemma scaledPrice_cap_infinite (supply z : Z) :
  Prim2SF (JS.Number (totalSupply this)) = S754_infinity false ->
  JS.floorZ (scaledPrice supply) = Some z -> z = 0%Z.
Proof.
  intros HT. apply floorZ_zn.
  unfold scaledPrice, volumePrice. cbv zeta.
  do 3 apply mul_zn. apply div_inf_zn. apply inf_sub. exact HT.
Qed.

Lemma fnfn_1e18 : fnfn 1e18%float.
Proof. reflexivity. Qed.

Lemma Number_fnfn (z : Z) : (0 <= z)%Z -> fnfn (JS.Number z).
Proof.
  intros Hz. apply nns_nfn. apply (frounds_nns _ _ (Number_frounds z Hz)).
Qed.

(** The signs along the computation, forward. *)
Lemma scaledPrice_signs (supply : Z) :
  (0 <= supply)%Z ->
  fnn (JS.Number (totalSupply this) - JS.Number supply) ->
  let S := JS.Number supply in
  let d := (JS.Number (totalSupply this) - S)%float in
  fnfn (S * S) /\ fnfn (k * (S * S)) /\ fnfn (k * (S * S) / d)
  /\ fnfn (k * (S * S) / d * creatorMultiplier this)
  /\ fnfn (k * (S * S) / d * creatorMultiplier this * volumeMultiplier this)
  /\ fnfn (scaledPrice supply).
Proof.
  intros Hs Hd S d.
  pose proof (Number_fnfn supply Hs) as HS. fold S in HS.
  assert (H1 : fnfn (S * S)) by (apply mul_fnfn; assumption).
  assert (H2 : fnfn (k * (S * S))) by (apply mul_fnfn; assumption).
  assert (H3 : fnfn (k * (S * S) / d)) by (apply div_fnfn; [assumption | apply fnn_fnfn; exact Hd]).
  assert (H4 : fnfn (k * (S * S) / d * creatorMultiplier this)) by (apply mul_fnfn; assumption).
  assert (H5 : fnfn (k * (S * S) / d * creatorMultiplier this * volumeMultiplier this))
    by (apply mul_fnfn; assumption).
  repeat split; try assumption.
  unfold scaledPrice, volumePrice. cbv zeta. apply mul_fnfn; [exact H5 | exact fnfn_1e18].
Qed.

(** What a finite scaled price says of the intermediate numbers, backward. *)
Lemma scaledPrice_finite (supply z : Z) :
  (0 <= supply)%Z ->
  fnn (JS.Number (totalSupply this) - JS.Number supply) ->
  JS.floorZ (scaledPrice supply) = Some z ->
  let S := JS.Number supply in
  let d := (JS.Number (totalSupply this) - S)%float in
  fnn (scaledPrice supply)
  /\ fnn (k * (S * S) / d * creatorMultiplier this * volumeMultiplier this)
  /\ fnn (volumeMultiplier this)
  /\ fnn (k * (S * S) / d * creatorMultiplier this)
  /\ fnn (creatorMultiplier this)
  /\ fnn (k * (S * S) / d)
  /\ 0 < fval d
  /\ fnn (k * (S * S))
  /\ fnn k
  /\ fnn (S * S)
  /\ fnn S.
Proof.
  intros Hs Hd Hz S d.
  destruct (scaledPrice_signs supply Hs Hd) as (H1 & H2 & H3 & H4 & H5 & H6).
  fold S in H1, H2, H3, H4, H5. fold d in H3, H4, H5.
  pose proof (floorZ_some _ _ Hz H6) as F6.
  assert (F6' := F6). unfold scaledPrice, volumePrice in F6'. cbv zeta in F6'.
  fold S in F6'. fold d in F6'.
  destruct (mul_fnn_inv _ _ H5 fnfn_1e18 F6') as [F5 _].
  destruct (mul_fnn_inv _ _ H4 vm_sign F5) as [F4 Fvm].
  destruct (mul_fnn_inv _ _ H3 cm_sign F4) as [F3 Fcm].
  destruct (div_fnn_inv _ _ H2 Hd F3) as [F2 Pd].
  pose proof (Number_fnfn supply Hs) as HS. fold S in HS.
  destruct (mul_fnn_inv _ _ k_sign H1 F2) as [Fk F1].
  destruct (mul_fnn_inv _ _ HS HS F1) as [FS _].
  repeat split; assumption.
Qed.

Lemma Number_mono (s1 s2 : Z) :
  (0 <= s1 <= s2)%Z -> fnn (JS.Number s2) ->
  fnn (JS.Number s1) /\ fval (JS.Number s1) <= fval (JS.Number s2).
Proof.
  intros Hs N2.
  destruct (Z.eq_dec s1 s2) as [->|Hne]; [split; [exact N2 | lra]|].
  apply (frounds_mono (IZR s1) (IZR s2)).
  - apply Number_frounds; lia.
  - apply Number_frounds; lia.
  - apply IZR_lt; lia.
  - exact N2.
Qed.

(** Below a cap that is a finite number, the denominator is finite and not
    negative. *)
Lemma denominator_fnn (supply : Z) :
  (0 <= supply < totalSupply this)%Z ->
  fnn (JS.Number (totalSupply this)) ->
  fnn (JS.Number supply)
  /\ fval (JS.Number supply) <= fval (JS.Number (totalSupply this))
  /\ fnn (JS.Number (totalSupply this) - JS.Number supply).
Proof.
  intros Hs NT.
  destruct (Number_mono supply (totalSupply this) ltac:(lia) NT) as [NS Hle].
  split; [exact NS|]. split; [exact Hle|].
  apply sub_nnf; assumption.
Qed.

(** The scaled price, rounded down, does not decrease with the supply, and
    is not negative. *)
Lemma scaledPrice_mono (s1 s2 z1 z2 : Z) :
  (0 <= s1 <= s2)%Z -> (s2 < totalSupply this)%Z ->
  JS.floorZ (scaledPrice s1) = Some z1 ->
  JS.floorZ (scaledPrice s2) = Some z2 ->
  (0 <= z1 <= z2)%Z.
Proof.
  intros Hs HT E1 E2.
  pose proof (Number_frounds (totalSupply this) ltac:(lia)) as HTn.
  destruct (frounds_nns _ _ HTn) as [NT _].
  assert (Hcases : Prim2SF (JS.Number (totalSupply this)) = S754_infinity false
                   \/ fnn (JS.Number (totalSupply this))).
  { unfold fnn. destruct (Prim2SF (JS.Number (totalSupply this))) as [sT|sT| |sT mT eT];
      cbn in NT |- *; try tauto. subst sT. left. reflexivity. }
  destruct Hcases as [Hinf|FT].
  { rewrite (scaledPrice_cap_infinite s1 z1 Hinf E1).
    rewrite (scaledPrice_cap_infinite s2 z2 Hinf E2). lia. }
  set (Tn := JS.Number (totalSupply this)) in *.
  destruct (denominator_fnn s1 ltac:(lia) FT) as (NS1 & LS1 & Nd1).
  destruct (denominator_fnn s2 ltac:(lia) FT) as (NS2 & LS2 & Nd2).
  destruct (Number_mono s1 s2 Hs NS2) as [_ L12].
  destruct (scaledPrice_finite s2 z2 ltac:(lia) Nd2 E2)
    as (Gw & Ge & Gvm & Gc & Gcm & Gb & Pd2 & Ga & Gk & Gsq & _).
  destruct (scaledPrice_finite s1 z1 ltac:(lia) Nd1 E1)
    as (Fw & _).
  fold Tn in Nd1, Nd2, Ge, Gc, Gb, Pd2.
  set (S1 := JS.Number s1) in *. set (S2 := JS.Number s2) in *.
  (* the squares *)
  destruct (mul_mono_l S1 S2 S2 NS1 NS2 NS2 L12 Gsq) as [Nx Lx].
  destruct (mul_mono_r S1 S1 S2 NS1 NS2 NS1 L12 Nx) as [Nsq1 Lsq1].
  assert (Lsq : fval (S1 * S1) <= fval (S2 * S2)) by lra.
  (* the numerators *)
  destruct (mul_mono_r k _ _ Nsq1 Gsq Gk Lsq Ga) as [Na1 La].
  (* the denominators *)
  pose proof (sub_anti Tn S1 S2 FT NS1 NS2 L12 LS2) as Ld.
  (* the quotients *)
  destruct (div_mono_den (k * (S2 * S2)) (Tn - S1) (Tn - S2) Ga Nd1 Nd2 Pd2 Ld Gb)
    as [Nq Lq].
  destruct (div_mono_num (k * (S1 * S1)) (k * (S2 * S2)) (Tn - S1) Na1 Ga Nd1
              ltac:(lra) La Nq) as [Nb1 Lb1].
  assert (Lb : fval (k * (S1 * S1) / (Tn - S1)) <= fval (k * (S2 * S2) / (Tn - S2)))
    by lra.
  (* the multipliers and the scale *)
  destruct (mul_mono_l _ _ (creatorMultiplier this) Nb1 Gb Gcm Lb Gc) as [Nc1 Lc].
  destruct (mul_mono_l _ _ (volumeMultiplier this) Nc1 Gc Gvm Lc Ge) as [Ne1 Le].
  assert (G18 : fnn 1e18%float) by reflexivity.
  assert (Gw' := Gw). unfold scaledPrice, volumePrice in Gw'. cbv zeta in Gw'.
  fold Tn in Gw'. fold S2 in Gw'.
  destruct (mul_mono_l _ _ 1e18%float Ne1 Ge G18 Le Gw') as [Nw1 Lw].
  split.
  - apply (floorZ_nonneg (scaledPrice s1)); assumption.
  - apply (floorZ_mono (scaledPrice s1) (scaledPrice s2)); try assumption.
Qed.

End Chain.

End Rounding.

(** ** The curve: dynamic k *)

Section DynamicK.

Import BondingCurve.
Local Open Scope float_scope.

(** C2. The dynamic k of [calculateDynamicK] is never less than
    [baseK * 0.1], whatever the environment, the curve parameters and the
    optional inputs (coin data, 24h volume, last-trade time) are; and
    whenever it is a number (not [NaN]) it is at least [baseK * 0.1]. *)
Theorem dynamicK_floor
    (env : Env) (this : Calculator) (coinData : option CreatorCoin)
    (tradingVolume24h : option Z) (lastTradeTime : option float) :
  let k := calculateDynamicK env this coinData tradingVolume24h lastTradeTime in
  (k <? baseK this * 0.1) = false
  /\ (is_nan k = false -> (baseK this * 0.1 <=? k) = true).
Proof.
  unfold calculateDynamicK. split.
  - apply Math_max_lower_r.
  - apply Math_max_ge_r.
Qed.

Lemma dynamicK_floor_witness :
  (baseK defaultBondingCurve * 0.1
   <=? calculateDynamicK env0 defaultBondingCurve None (Some (200 * 10 ^ 18)%Z) None)
  = true.
Proof.
  apply (dynamicK_floor env0 defaultBondingCurve None (Some (200 * 10 ^ 18)%Z) None).
  reflexivity.
Defined.

End DynamicK.

(** ** The curve: the supply bound *)

Section PriceBoundary.

Import BondingCurve.

(** A curve whose cap is 10^9 coins of 18 decimals, other parameters as
    the defaults. *)
Definition baseUnitsCurve : Calculator := {|
  baseK := 0.0001;
  totalSupply := 10 ^ 27;
  maxSlippage := 0.05;
  creatorMultiplier := 1.0;
  volumeMultiplier := 1.0;
  timeDecayFactor := 0.95
|}.

(** At or above the cap, [calculatePrice] throws 'Supply cannot exceed
    total supply'. *)
Lemma calculatePrice_at_or_above_cap
    (env : Env) (this : Calculator) (supply : Z) (coinData : option CreatorCoin)
    (tradingVolume24h : option Z) (lastTradeTime : option float) :
  totalSupply this <= supply ->
  calculatePrice env this supply coinData tradingVolume24h lastTradeTime
  = Err SupplyExceedsTotal.
Proof.
  intros H. unfold calculatePrice.
  destruct (supply >=? totalSupply this) eqn:E; [reflexivity|].
  rewrite Z.geb_leb in E. apply Z.leb_gt in E. lia.
Qed.

(** Below the cap the guard is passed, and the result is the conversion of
    the scaled number: it is a price exactly when that number is finite. *)
Lemma calculatePrice_below_cap
    (env : Env) (this : Calculator) (supply : Z) (coinData : option CreatorCoin)
    (tradingVolume24h : option Z) (lastTradeTime : option float) :
  supply < totalSupply this ->
  calculatePrice env this supply coinData tradingVolume24h lastTradeTime
  = JS.BigInt_floor
      (volumePrice this supply
         (calculateDynamicK env this coinData tradingVolume24h lastTradeTime)
       * 1e18)%float.
Proof.
  intros H. unfold calculatePrice.
  destruct (supply >=? totalSupply this) eqn:E; [|reflexivity].
  rewrite Z.geb_leb in E. apply Z.leb_le in E. lia.
Qed.

(** C5. [calculatePrice] throws the supply error for every supply at or
    above the cap; below the cap it does not always return a price: with a
    cap of 10^27 base units and the supply one unit below it, both are
    converted to the same number, the division is by zero and the
    conversion of [Infinity] to a bigint throws a [RangeError]. *)
Theorem calculatePrice_boundary :
  (forall env this supply coinData tradingVolume24h lastTradeTime,
      totalSupply this <= supply ->
      calculatePrice env this supply coinData tradingVolume24h lastTradeTime
      = Err SupplyExceedsTotal)
  /\ 10 ^ 27 - 1 < totalSupply baseUnitsCurve
  /\ JS.Number (10 ^ 27 - 1) = JS.Number (totalSupply baseUnitsCurve)
  /\ (forall env,
         volumePrice baseUnitsCurve (10 ^ 27 - 1)
           (calculateDynamicK env baseUnitsCurve None None None) = infinity)
  /\ (forall env,
         calculatePrice env baseUnitsCurve (10 ^ 27 - 1) None None None
         = Err RangeError).
Proof.
  split; [exact calculatePrice_at_or_above_cap|].
  split; [reflexivity|].
  split; [vm_compute; reflexivity|].
  split; intros env; vm_compute; reflexivity.
Qed.

End PriceBoundary.

(** ** The curve: monotonicity *)

Section PriceMonotonicity.

Import BondingCurve.

(** C1, as stated, fails: the scaled price is rounded down to an integer,
    and with a cap of 10^27 base units the prices at supplies 0 and 1 are
    both 0. *)
Lemma price_not_strictly_increasing :
  0 <= 0 < 1
  /\ 1 < totalSupply baseUnitsCurve
  /\ calculatePrice env0 baseUnitsCurve 0 None None None = Ok 0
  /\ calculatePrice env0 baseUnitsCurve 1 None None None = Ok 0.
Proof. repeat split; try lia; vm_compute; reflexivity. Qed.

Import Rounding.

Lemma leb_nns (b k : float) :
  nns (Prim2SF b) -> (b <=? k)%float = true -> nns (Prim2SF k).
Proof.
  rewrite leb_spec. unfold SFleb, SFcompare.
  destruct (Prim2SF b) as [sb|sb| |sb mb eb], (Prim2SF k) as [sk|sk| |sk mk ek];
    cbn [nns]; intros Hb H; subst; try tauto; try discriminate H;
    destruct sk; try reflexivity; discriminate H.
Qed.

Lemma nonneg_nns (x : float) : (0 <=? x)%float = true -> nns (Prim2SF x).
Proof. apply leb_nns. exact I. Qed.

Lemma nonneg_fnfn (x : float) : (0 <=? x)%float = true -> fnfn x.
Proof. intros H. apply nns_nfn, nonneg_nns, H. Qed.

Lemma mul_nnn (x y : float) :
  nnn (Prim2SF x) -> nnn (Prim2SF y) -> nnn (Prim2SF (x * y)).
Proof.
  unfold nnn. intros Hx Hy.
  pose proof (Prim2SF_valid x) as Vx. pose proof (Prim2SF_valid y) as Vy.
  pose proof (SFmul_frounds (Prim2SF x) (Prim2SF y) Vx Vy) as HF.
  rewrite mul_spec. unfold SF64mul.
  destruct (Prim2SF x) as [sx|sx| |sx mx ex], (Prim2SF y) as [sy|sy| |sy my ey];
    destruct Hx as [Hx|Hx]; try discriminate Hx;
    destruct Hy as [Hy|Hy]; try discriminate Hy;
    cbn in Hx, Hy; try tauto; subst;
    try (left; reflexivity); try (right; exact I); try (right; reflexivity).
  right. apply (frounds_nns _ _ (HF eq_refl eq_refl)).
Qed.

(** With a non-negative [baseK], the dynamic k is not a negative number. *)
Lemma dynamicK_sign (env : Env) (this : Calculator) (coinData : option CreatorCoin)
    (tradingVolume24h : option Z) (lastTradeTime : option float) :
  (0 <=? baseK this)%float = true ->
  fnfn (calculateDynamicK env this coinData tradingVolume24h lastTradeTime).
Proof.
  intros HK.
  set (k := calculateDynamicK env this coinData tradingVolume24h lastTradeTime).
  destruct (is_nan k) eqn:N.
  - apply is_nan_true in N. unfold fnfn. rewrite N. exact I.
  - apply nns_nfn.
    assert (Hb : nnn (Prim2SF (baseK this * 0.1))).
    { apply mul_nnn; right; [apply nonneg_nns; exact HK | reflexivity]. }
    pose proof (Math_max_ge_r _ _ N) as Hge.
    destruct (Math_max_nan _ _ N) as [_ Nb].
    apply is_nan_spec in Nb.
    destruct Hb as [Hb|Hb]; [contradiction|].
    exact (leb_nns _ _ Hb Hge).
Qed.

Lemma BigInt_floor_ok (x : float) (z : Z) :
  JS.BigInt_floor x = Ok z <-> JS.floorZ x = Some z.
Proof.
  unfold JS.BigInt_floor. destruct (JS.floorZ x); split; congruence.
Qed.

(** The price at a supply that is not negative is not negative, under
    non-negative parameters. *)
Lemma calculatePrice_nonneg
    (env : Env) (this : Calculator) (coinData : option CreatorCoin)
    (tradingVolume24h : option Z) (lastTradeTime : option float)
    (supply price : Z) :
  (0 <=? baseK this)%float = true ->
  (0 <=? creatorMultiplier this)%float = true ->
  (0 <=? volumeMultiplier this)%float = true ->
  0 <= supply ->
  calculatePrice env this supply coinData tradingVolume24h lastTradeTime = Ok price ->
  0 <= price.
Proof.
  intros HK Hcm Hvm Hs E.
  assert (HT : supply < totalSupply this).
  { destruct (Z.lt_ge_cases supply (totalSupply this)) as [L|G]; [exact L|].
    rewrite calculatePrice_at_or_above_cap in E by exact G. discriminate. }
  rewrite calculatePrice_below_cap in E by exact HT.
  apply BigInt_floor_ok in E.
  apply (scaledPrice_mono this
           (calculateDynamicK env this coinData tradingVolume24h lastTradeTime)
           (dynamicK_sign env this coinData tradingVolume24h lastTradeTime HK)
           (nonneg_fnfn _ Hcm) (nonneg_fnfn _ Hvm)
           supply supply price price ltac:(lia) HT E E).
Qed.

(** C1, amended. For fixed curve parameters with a non-negative [baseK] and
    non-negative multipliers, and fixed dynamic-k inputs, the scaled integer
    price is weakly increasing in the supply: for supplies
    [0 <= s1 <= s2 < totalSupplyCap] at which [calculatePrice] returns,
    the price at [s1] is not negative and at most the price at [s2]. *)
Theorem price_weakly_increasing
    (env : Env) (this : Calculator) (coinData : option CreatorCoin)
    (tradingVolume24h : option Z) (lastTradeTime : option float)
    (s1 s2 p1 p2 : Z) :
  (0 <=? baseK this)%float = true ->
  (0 <=? creatorMultiplier this)%float = true ->
  (0 <=? volumeMultiplier this)%float = true ->
  0 <= s1 <= s2 -> s2 < totalSupply this ->
  calculatePrice env this s1 coinData tradingVolume24h lastTradeTime = Ok p1 ->
  calculatePrice env this s2 coinData tradingVolume24h lastTradeTime = Ok p2 ->
  0 <= p1 <= p2.
Proof.
  intros HK Hcm Hvm Hs HT E1 E2.
  rewrite calculatePrice_below_cap in E1 by lia.
  rewrite calculatePrice_below_cap in E2 by lia.
  apply BigInt_floor_ok in E1. apply BigInt_floor_ok in E2.
  apply (scaledPrice_mono this
           (calculateDynamicK env this coinData tradingVolume24h lastTradeTime)
           (dynamicK_sign env this coinData tradingVolume24h lastTradeTime HK)
           (nonneg_fnfn _ Hcm) (nonneg_fnfn _ Hvm)
           s1 s2 p1 p2 Hs HT E1 E2).
Qed.

Lemma price_weakly_increasing_witness :
  calculatePrice env0 defaultBondingCurve 1000 None None None = Ok 100000100000
  /\ calculatePrice env0 defaultBondingCurve 2000 None None None = Ok 400000800001
  /\ 0 <= 100000100000 <= 400000800001.
Proof.
  split; [vm_compute; reflexivity|]. split; [vm_compute; reflexivity|].
  apply (price_weakly_increasing env0 defaultBondingCurve None None None 1000 2000).
  - reflexivity.
  - reflexivity.
  - reflexivity.
  - lia.
  - reflexivity.
  - vm_compute. reflexivity.
  - vm_compute. reflexivity.
Defined.

Example price_increases_on_the_default_curve :
  calculatePrice env0 defaultBondingCurve 100000000 None None None
  = Ok 1111111111111111081984
  /\ calculatePrice env0 defaultBondingCurve 500000000 None None None
     = Ok 49999999999999995805696.
Proof. split; vm_compute; reflexivity. Qed.

End PriceMonotonicity.

(** ** Quotes at zero supply *)

Section ZeroSupplyQuote.

Import BondingCurve.
Local Open Scope float_scope.

(** C6.  The code does not do what the claim says: the buy of 1000 units at
    supply 0 under the default parameters (no optional inputs) is not
    quoted.  The current price is 0 and the new price is positive, so the
    price impact, which divides by the current price without a guard, is
    [+Infinity]; it exceeds the adjusted max slippage 0.05, and
    [calculateTradePrice] throws 'Price impact too high' instead of
    returning a quote.  This holds whatever the clock and the random
    generator give; [buy_at_empty_supply], below, shows it for every
    curve and amount. *)
Theorem quote_at_zero_supply (env : Env) :
  calculatePrice env defaultBondingCurve 0 None None None = Ok 0%Z
  /\ calculatePrice env defaultBondingCurve 1000 None None None = Ok 100000100000%Z
  /\ tradePriceImpact true 0 100000100000 = infinity
  /\ (0 <? tradePriceImpact true 0 100000100000) = true
  /\ calculateAdjustedMaxSlippage defaultBondingCurve None None = 0.05
  /\ calculateTradePrice env defaultBondingCurve 0 1000 true None None None
     = Err PriceImpactTooHigh.
Proof. repeat split; vm_compute; reflexivity. Qed.

End ZeroSupplyQuote.

(** ** Optimal trade size *)

Section OptimalTradeSize.

Import BondingCurve.

Variable this : Calculator.
Variable coinData : option CreatorCoin.
Variable tradingVolume24h : option Z.
Variable lastTradeTime : option float.
(** The binary search ends: with [n] more iterations than the interval
    [low .. high] needs halvings, the loop returns. *)
Lemma searchLoop_returns (supply maxPrice : Z) (n : nat) :
  forall env low high optimalSize,
    0 <= low -> high + 1 - low < 2 ^ Z.of_nat n ->
    searchLoop env this coinData tradingVolume24h lastTradeTime supply maxPrice
      (S n) low high optimalSize <> None.
Proof.
  induction n as [|n IH]; intros env low high opt Hlow Hsize.
  - cbn [searchLoop]. change (2 ^ Z.of_nat 0) with 1 in Hsize.
    destruct (low <=? high) eqn:E; [|discriminate].
    apply Z.leb_le in E. lia.
  - assert (Hpow : 2 ^ Z.of_nat (S n) = 2 * 2 ^ Z.of_nat n).
    { rewrite Nat2Z.inj_succ, Z.pow_succ_r by lia. reflexivity. }
    rewrite Hpow in Hsize.
    remember (S n) as fuel eqn:Hfuel.
    cbn [searchLoop]. subst fuel.
    destruct (low <=? high) eqn:E; [|discriminate].
    apply Z.leb_le in E.
    assert (Hmid : Z.quot (low + high) 2 = (low + high) / 2)
      by (apply Z.quot_div_nonneg; lia).
    rewrite Hmid.
    assert (Hm1 : 2 * ((low + high) / 2) <= low + high)
      by (apply Z.mul_div_le; lia).
    assert (Hm2 : low + high < 2 * ((low + high) / 2) + 2).
    { pose proof (Z.mod_pos_bound (low + high) 2 ltac:(lia)).
      pose proof (Z.div_mod (low + high) 2 ltac:(lia)). lia. }
    destruct (calculatePrice env this (supply + (low + high) / 2)
                coinData tradingVolume24h lastTradeTime); [|discriminate].
    cbv zeta. destruct (a <=? maxPrice); apply IH; lia.
Qed.

(** [calculateOptimalTradeSize] always ends, with a size or an exception. *)
Lemma calculateOptimalTradeSize_returns
    (env : Env) (supply : Z) (maxPriceImpact : float) :
  calculateOptimalTradeSize env this supply maxPriceImpact
    coinData tradingVolume24h lastTradeTime <> None.
Proof.
  unfold calculateOptimalTradeSize.
  destruct (calculatePrice _ _ supply _ _ _); [|discriminate].
  destruct (JS.BigInt_floor _); [|discriminate].
  unfold searchFuel. apply searchLoop_returns; [lia|].
  rewrite Nat2Z.inj_succ, Z2Nat.id by apply Z.log2_nonneg.
  pose proof (Z.log2_spec (Z.max (totalSupply this - supply) 0 + 1) ltac:(lia)). lia.
Qed.

End OptimalTradeSize.

Section OptimalTradeSizeAtTheCap.

Import BondingCurve.

(** C4. [calculateOptimalTradeSize] always ends, but not always with a
    size: its search interval [0 .. totalSupply - supply] includes the
    size that brings the supply to the cap, where [calculatePrice] throws.
    With the default parameters, one unit below the cap and the default
    maximum impact 0.01, size 0 is validated, the next midpoint is 1, and
    the call throws 'Supply cannot exceed total supply'; the largest size
    within the bound is 0. *)
Theorem optimalTradeSize_probes_the_cap :
  (forall env this supply maxPriceImpact coinData tradingVolume24h lastTradeTime,
      calculateOptimalTradeSize env this supply maxPriceImpact
        coinData tradingVolume24h lastTradeTime <> None)
  /\ forall env,
      calculateOptimalTradeSize env defaultBondingCurve 999999999 0.01 None None None
      = Some (Err SupplyExceedsTotal)
      /\ calculatePrice env defaultBondingCurve (999999999 + 0) None None None
         = Ok 99999999799999991787837527687168
      /\ calculatePrice env defaultBondingCurve (999999999 + 1) None None None
         = Err SupplyExceedsTotal.
Proof.
  split.
  - intros env this supply maxPriceImpact coinData tradingVolume24h lastTradeTime.
    apply calculateOptimalTradeSize_returns.
  - intros env. repeat split; vm_compute; reflexivity.
Qed.

(** Away from the cap the search returns a size. *)
Example optimalTradeSize_mid_curve :
  calculateOptimalTradeSize env0 defaultBondingCurve 500000000 0.01 None None None
  = Some (Ok 1659300).
Proof. vm_compute. reflexivity. Qed.

End OptimalTradeSizeAtTheCap.

(** ** Risk assessment *)

Section Risk.

Import PricingEngine.

Variable coin : CreatorCoin.
Variable volatilityScore liquidityScore : float.

(** The risk level after the first [n] statements of [assessRisk]. *)
Definition levelAfter (n : nat) : RiskLevel :=
  fst (runSteps (firstn n (riskSteps coin volatilityScore liquidityScore)) (low, [])).

(** [assessRisk] returns the level reached after its five statements. *)
Lemma assessRisk_level :
  fst (assessRisk coin volatilityScore liquidityScore) = levelAfter 5.
Proof. reflexivity. Qed.

Lemma levelAfter_saturates (n : nat) : levelAfter (5 + n) = levelAfter 5.
Proof.
  unfold levelAfter, riskSteps. cbn [Nat.add firstn].
  rewrite firstn_nil. reflexivity.
Qed.

(** Each statement after the first keeps the level [high]. *)
Lemma liquidityStep_keeps_high (st : RiskState) :
  fst st = high -> fst (liquidityStep liquidityScore st) = high.
Proof.
  destruct st as [l fs]; simpl; intros ->.
  destruct (JS.lt liquidityScore 30); reflexivity.
Qed.

Lemma priceMoveStep_keeps_high (st : RiskState) :
  fst st = high -> fst (priceMoveStep coin st) = high.
Proof.
  destruct st as [l fs]; simpl; intros ->.
  destruct (JS.gt _ 50); reflexivity.
Qed.

Lemma volumeStep_keeps_high (st : RiskState) :
  fst st = high -> fst (volumeStep coin st) = high.
Proof.
  destruct st as [l fs]; simpl; intros ->.
  destruct (JS.lt _ 1e18); reflexivity.
Qed.

Lemma stableStep_keeps_level (st : RiskState) :
  fst (stableStep st) = fst st.
Proof. destruct st as [l [|f fs]]; reflexivity. Qed.

Lemma levelAfter_step (n : nat) :
  (1 <= n)%nat -> levelAfter n = high -> levelAfter (S n) = high.
Proof.
  destruct n as [|[|[|[|[|n]]]]]; intros Hn H; [lia| | | | |];
    [| | | |change (levelAfter (5 + S n) = high);
            rewrite levelAfter_saturates;
            rewrite <- (levelAfter_saturates n); exact H];
    unfold levelAfter, runSteps, riskSteps in *;
    cbn [firstn fold_left] in *.
  - apply liquidityStep_keeps_high; exact H.
  - apply priceMoveStep_keeps_high; exact H.
  - apply volumeStep_keeps_high; exact H.
  - rewrite stableStep_keeps_level; exact H.
Qed.

Lemma levelAfter_0 : levelAfter 0 = low.
Proof. reflexivity. Qed.

(** C8. Within one call of [assessRisk] the level, once [high], stays
    [high]: if it is [high] after the first [i] statements (set by a
    volatility above 70, by an absolute price change above 50 or by an
    escalation), it is [high] after any later statement [j], and the
    returned level is [high]. *)
Theorem risk_level_stays_high (i j : nat) :
  (i <= j)%nat ->
  levelAfter i = high ->
  levelAfter j = high
  /\ fst (assessRisk coin volatilityScore liquidityScore) = high.
Proof.
  intros Hij Hi.
  assert (Hpos : (1 <= i)%nat).
  { destruct i; [rewrite levelAfter_0 in Hi; discriminate | lia]. }
  assert (Hall : forall d, levelAfter (i + d) = high).
  { induction d as [|d IH].
    - rewrite Nat.add_0_r. exact Hi.
    - rewrite Nat.add_succ_r. apply levelAfter_step; [lia | exact IH]. }
  split.
  - replace j with (i + (j - i))%nat by lia. apply Hall.
  - rewrite assessRisk_level.
    destruct (Nat.le_gt_cases i 5) as [Hle|Hgt].
    + replace 5%nat with (i + (5 - i))%nat by lia. apply Hall.
    + rewrite <- (levelAfter_saturates (i - 5)).
      replace (5 + (i - 5))%nat with i by lia. exact Hi.
Qed.

End Risk.

Section RiskExamples.

Import PricingEngine.
Local Open Scope float_scope.

(** A coin whose price moved by 60 (percent) in 24 hours. *)
Definition coin60 : CreatorCoin := {|
  totalSupply_ := 10 ^ 27;
  circulatingSupply := 5 * 10 ^ 26;
  currentPrice := 10 ^ 15;
  marketCap := 5000 * 10 ^ 18;
  tradingVolume24h := 50 * 10 ^ 18;
  priceChange24h := 60
|}.

Lemma risk_level_stays_high_witness :
  levelAfter coin60 80 60 4 = high
  /\ fst (assessRisk coin60 80 60) = high.
Proof.
  apply (risk_level_stays_high coin60 80 60 1 4).
  - lia.
  - reflexivity.
Defined.

Example extreme_price_movement :
  assessRisk coin60 30 60 = (high, [ExtremePriceMovement]).
Proof. reflexivity. Qed.

End RiskExamples.

(** ** Market aggregation *)

Section Aggregate.

Import PricingEngine.

(** C9. Aggregating the single-coin list [[c]] succeeds, with the total
    market cap equal to [c]'s market cap and the average trade size equal
    to [c]'s 24h volume. *)
Theorem aggregate_single (c : CreatorCoin) :
  exists mc,
    updateMarketConditions [c] = Ok mc
    /\ marketCap_ mc = marketCap c
    /\ averageTradeSize mc = tradingVolume24h c
    /\ totalVolume mc = tradingVolume24h c.
Proof.
  unfold updateMarketConditions. cbn [List.length fold_left Z.of_nat].
  change (Z.pos (Pos.of_succ_nat 0) =? 0) with false. cbv iota.
  eexists. split; [reflexivity|]. cbn [marketCap_ averageTradeSize totalVolume].
  rewrite Z.quot_1_r. repeat split.
Qed.

(** Aggregating no coin at all throws. *)
Lemma aggregate_empty : updateMarketConditions [] = Err RangeError.
Proof. reflexivity. Qed.

End Aggregate.

(** ** Liquidity score *)

Section LiquidityScore.

Import BondingCurve.
Local Open Scope float_scope.

Variable env : Env.

(** The points of each component of the weighted sum; a component whose
    input is absent contributes nothing. *)
Definition volumePoints (tradingVolume24h : option Z) : option float :=
  option_map (fun v => JS.Math_min (toETH v / 10) 40) tradingVolume24h.

Definition marketCapPoints (coinData : option CreatorCoin) : option float :=
  option_map (fun coin => JS.Math_min (toETH (marketCap coin) / 100) 30) coinData.

Definition recencyPoints (lastTradeTime : option float) : option float :=
  option_map
    (fun t =>
       let hours := hoursSince env t in
       if JS.lt hours 1 then 20
       else if JS.lt hours 24 then 15
       else if JS.lt hours 168 then 10
       else 5)
    lastTradeTime.

(** Price stability, tiered by the absolute 24h change against the
    thresholds [t10 < t7 < t4]. *)
Definition stabilityPoints (t10 t7 t4 : float) (coinData : option CreatorCoin)
    : option float :=
  option_map
    (fun coin =>
       let change := JS.Math_abs (priceChange24h coin) in
       if JS.lt change t10 then 10
       else if JS.lt change t7 then 7
       else if JS.lt change t4 then 4
       else 1)
    coinData.

Definition addPoints (score : float) (points : option float) : float :=
  match points with
  | Some p => score + p
  | None => score
  end.

(** The weighted sum, capped at 100. *)
Definition weightedLiquidityScore (t10 t7 t4 : float)
    (coinData : option CreatorCoin) (tradingVolume24h : option Z)
    (lastTradeTime : option float) : float :=
  JS.Math_min
    (fold_left addPoints
       [ volumePoints tradingVolume24h;
         marketCapPoints coinData;
         recencyPoints lastTradeTime;
         stabilityPoints t10 t7 t4 coinData ]
       0)
    100.

(** The liquidity score as the specification words it: the 24h change is
    in percent ([12.5] means 12.5%), and the stability tiers are below 5%,
    below 10% and below 20%. *)
Definition specLiquidityScore := weightedLiquidityScore 5 10 20.

(** The calculator's score is the weighted sum whose stability tiers
    compare the change, as the number it is, with 0.05, 0.1 and 0.2. *)
Lemma calculateLiquidityScore_tiers
    (coinData : option CreatorCoin) (tradingVolume24h : option Z)
    (lastTradeTime : option float) :
  calculateLiquidityScore env coinData tradingVolume24h lastTradeTime
  = weightedLiquidityScore 0.05 0.1 0.2 coinData tradingVolume24h lastTradeTime.
Proof.
  unfold calculateLiquidityScore, weightedLiquidityScore.
  f_equal. cbn [fold_left].
  assert (Hvol :
    match JS.truthy tradingVolume24h with
    | Some v => 0 + JS.Math_min (toETH v / 10) 40
    | None => 0
    end = addPoints 0 (volumePoints tradingVolume24h)).
  { destruct tradingVolume24h as [v|]; [|reflexivity].
    cbn [JS.truthy volumePoints option_map addPoints].
    destruct (v =? 0)%Z eqn:E; [|reflexivity].
    apply Z.eqb_eq in E. subst v. vm_compute. reflexivity. }
  rewrite Hvol. generalize (addPoints 0 (volumePoints tradingVolume24h)) as s0.
  intros s0.
  destruct coinData as [coin|], lastTradeTime as [t|];
    cbn [marketCapPoints recencyPoints stabilityPoints option_map addPoints].
  - destruct (JS.lt (hoursSince env t) 1), (JS.lt (hoursSince env t) 24),
      (JS.lt (hoursSince env t) 168),
      (JS.lt (JS.Math_abs (priceChange24h coin)) 0.05),
      (JS.lt (JS.Math_abs (priceChange24h coin)) 0.1),
      (JS.lt (JS.Math_abs (priceChange24h coin)) 0.2); reflexivity.
  - destruct (JS.lt (JS.Math_abs (priceChange24h coin)) 0.05),
      (JS.lt (JS.Math_abs (priceChange24h coin)) 0.1),
      (JS.lt (JS.Math_abs (priceChange24h coin)) 0.2); reflexivity.
  - destruct (JS.lt (hoursSince env t) 1), (JS.lt (hoursSince env t) 24),
      (JS.lt (hoursSince env t) 168); reflexivity.
  - reflexivity.
Qed.

(** The changes on which the calculator's stability tiers and the
    specification's give the same points: those below 0.05 (10 points) and
    those not below 20 (1 point). *)
Definition tiersAgree (coinData : option CreatorCoin) : Prop :=
  match coinData with
  | Some coin =>
      JS.lt (JS.Math_abs (priceChange24h coin)) 0.05 = true
      \/ JS.lt (JS.Math_abs (priceChange24h coin)) 20 = false
  | None => True
  end.

Lemma stabilityPoints_agree (coinData : option CreatorCoin) :
  tiersAgree coinData ->
  stabilityPoints 0.05 0.1 0.2 coinData = stabilityPoints 5 10 20 coinData.
Proof.
  destruct coinData as [coin|]; [|reflexivity].
  cbn [tiersAgree stabilityPoints option_map]. unfold JS.lt.
  set (change := JS.Math_abs (priceChange24h coin)).
  intros [H|H].
  - rewrite H. rewrite (ltb_trans change 0.05 5 H eq_refl). reflexivity.
  - rewrite H.
    rewrite (not_ltb_below change 0.05 20 H eq_refl).
    rewrite (not_ltb_below change 0.1 20 H eq_refl).
    rewrite (not_ltb_below change 0.2 20 H eq_refl).
    rewrite (not_ltb_below change 5 20 H eq_refl).
    rewrite (not_ltb_below change 10 20 H eq_refl).
    reflexivity.
Qed.

(** C7, amended. For every snapshot whose absolute 24h change is below
    0.05 or not below 20 (and for a call without coin data), the
    calculator's liquidity score is the specification's weighted sum: the
    volume points (whole units / 10, at most 40), the market-cap points
    (whole units / 100, at most 30), the recency points (20, 15, 10 or 5)
    and the stability points (10 below 5%, 7 below 10%, 4 below 20%, else
    1), capped at 100, an absent input contributing nothing. *)
Theorem calculateLiquidityScore_weighted_sum
    (coinData : option CreatorCoin) (tradingVolume24h : option Z)
    (lastTradeTime : option float) :
  tiersAgree coinData ->
  calculateLiquidityScore env coinData tradingVolume24h lastTradeTime
  = specLiquidityScore coinData tradingVolume24h lastTradeTime.
Proof.
  intros H. rewrite calculateLiquidityScore_tiers.
  unfold specLiquidityScore, weightedLiquidityScore.
  rewrite (stabilityPoints_agree coinData H). reflexivity.
Qed.

End LiquidityScore.

Section LiquidityScoreExample.

Import BondingCurve.
Local Open Scope float_scope.

(** A coin that moved by 3 (percent) in 24 hours: market cap 5000, 24h
    volume 50, last traded half an hour before the clock of [env0]. *)
Definition coin3 : CreatorCoin := {|
  totalSupply_ := 10 ^ 27;
  circulatingSupply := 5 * 10 ^ 26;
  currentPrice := 10 ^ 15;
  marketCap := 5000 * 10 ^ 18;
  tradingVolume24h := 50 * 10 ^ 18;
  priceChange24h := 3
|}.

Definition halfAnHourAgo : float := 1699998200000.

(** C7, as stated, fails: a 3% change is in the specification's best
    stability tier (10 points, total 65) but in the calculator's worst one
    (1 point, total 56); the engine's own [calculateLiquidityScore], the one
    behind the pricing data, is another formula altogether. *)
Lemma liquidity_score_percent_tiers_differ :
  specLiquidityScore env0 (Some coin3) (Some (tradingVolume24h coin3)) (Some halfAnHourAgo)
  = 65
  /\ calculateLiquidityScore env0 (Some coin3) (Some (tradingVolume24h coin3))
       (Some halfAnHourAgo)
     = 56
  /\ (PricingEngine.calculateLiquidityScore coin3
      =? specLiquidityScore env0 (Some coin3) (Some (tradingVolume24h coin3))
           (Some halfAnHourAgo)) = false.
Proof. repeat split; vm_compute; reflexivity. Qed.

(** A coin that moved by 25 (percent) in 24 hours. *)
Definition coin25 : CreatorCoin := {|
  totalSupply_ := 10 ^ 27;
  circulatingSupply := 5 * 10 ^ 26;
  currentPrice := 10 ^ 15;
  marketCap := 5000 * 10 ^ 18;
  tradingVolume24h := 50 * 10 ^ 18;
  priceChange24h := -25
|}.

Lemma calculateLiquidityScore_weighted_sum_witness :
  calculateLiquidityScore env0 (Some coin25) (Some (tradingVolume24h coin25))
    (Some halfAnHourAgo)
  = specLiquidityScore env0 (Some coin25) (Some (tradingVolume24h coin25))
      (Some halfAnHourAgo).
Proof.
  apply (calculateLiquidityScore_weighted_sum env0 (Some coin25)
           (Some (tradingVolume24h coin25)) (Some halfAnHourAgo)).
  right. reflexivity.
Defined.

End LiquidityScoreExample.

(** ** Slippage protection *)

Section Slippage.

Import BondingCurve.
Local Open Scope float_scope.

(** The adjusted max slippage as the specification words it: start from
    the configured [maxSlippage]; tighten by 0.8 when the 24h volume exceeds
    100 whole units; loosen by 1.5 when the market cap is below 10 whole
    units; clamp to 0.10. *)
Definition volumeExceeds100 (tradingVolume24h : option Z) : bool :=
  match tradingVolume24h with
  | Some v => JS.gt (toETH v) 100
  | None => false
  end.

Definition marketCapBelow10 (coinData : option CreatorCoin) : bool :=
  match coinData with
  | Some coin => JS.lt (toETH (marketCap coin)) 10
  | None => false
  end.

Definition specAdjustedMaxSlippage (this : Calculator)
    (coinData : option CreatorCoin) (tradingVolume24h : option Z) : float :=
  let tightened :=
    if volumeExceeds100 tradingVolume24h then maxSlippage this * 0.8
    else maxSlippage this in
  let loosened :=
    if marketCapBelow10 coinData then tightened * 1.5 else tightened in
  JS.Math_min loosened 0.10.

Lemma adjustedMaxSlippage_spec (this : Calculator)
    (coinData : option CreatorCoin) (tradingVolume24h : option Z) :
  calculateAdjustedMaxSlippage this coinData tradingVolume24h
  = specAdjustedMaxSlippage this coinData tradingVolume24h.
Proof.
  unfold calculateAdjustedMaxSlippage, specAdjustedMaxSlippage.
  assert (Hvol :
    match JS.truthy tradingVolume24h with
    | Some v => if JS.gt (toETH v) 100 then maxSlippage this * 0.8 else maxSlippage this
    | None => maxSlippage this
    end
    = if volumeExceeds100 tradingVolume24h then maxSlippage this * 0.8
      else maxSlippage this).
  { destruct tradingVolume24h as [v|]; [|reflexivity].
    cbn [JS.truthy volumeExceeds100].
    destruct (v =? 0)%Z eqn:E; [|reflexivity].
    apply Z.eqb_eq in E. subst v. reflexivity. }
  cbv zeta. rewrite Hvol.
  destruct coinData as [coin|]; reflexivity.
Qed.

Variable env : Env.
Variable this : Calculator.
Variable coinData : option CreatorCoin.
Variable tradingVolume24h : option Z.
Variable lastTradeTime : option float.

(** The supply a trade results in. *)
Definition resultingSupply (currentSupply tradeAmount : Z) (isBuy : bool) : Z :=
  if isBuy then (currentSupply + tradeAmount)%Z else (currentSupply - tradeAmount)%Z.

(** What [calculateTradePrice] does once the bounds check is passed and
    both prices are computed. *)
Lemma calculateTradePrice_priced
    (currentSupply tradeAmount : Z) (isBuy : bool) (currentPrice newPrice : Z) :
  (0 <= resultingSupply currentSupply tradeAmount isBuy <= totalSupply this)%Z ->
  calculatePrice env this currentSupply coinData tradingVolume24h lastTradeTime
  = Ok currentPrice ->
  calculatePrice (afterRead lastTradeTime env) this
           (resultingSupply currentSupply tradeAmount isBuy)
    coinData tradingVolume24h lastTradeTime
  = Ok newPrice ->
  calculateTradePrice env this currentSupply tradeAmount isBuy
    coinData tradingVolume24h lastTradeTime
  = if JS.gt (tradePriceImpact isBuy currentPrice newPrice)
         (calculateAdjustedMaxSlippage this coinData tradingVolume24h)
    then Err PriceImpactTooHigh
    else
      let outputAmount := Z.quot (tradeAmount * currentPrice) (10 ^ 18) in
      let* feeBasisPoints :=
        JS.BigInt_floor
          (calculateDynamicFeeRate coinData tradingVolume24h * 10000) in
      let fee := Z.quot (outputAmount * feeBasisPoints) 10000 in
      Ok {| inputAmount := tradeAmount;
            outputAmount := outputAmount;
            priceImpact := tradePriceImpact isBuy currentPrice newPrice;
            minimumReceived := (outputAmount - fee)%Z;
            fee := fee;
            deadline :=
              JS.Math_floor
                (Date_now (afterRead lastTradeTime (afterRead lastTradeTime env))
                 / 1000) + 1800
              + JS.Math_floor (Math_random env * 300) |}.
Proof.
  intros Hb H0 H1. unfold calculateTradePrice.
  fold (resultingSupply currentSupply tradeAmount isBuy).
  assert (G : ((resultingSupply currentSupply tradeAmount isBuy <? 0)%Z
               || (resultingSupply currentSupply tradeAmount isBuy >? totalSupply this)%Z)
              = false).
  { apply orb_false_iff. split; [apply Z.ltb_ge; lia|].
    rewrite Z.gtb_ltb. apply Z.ltb_ge; lia. }
  rewrite G, H0. cbn [bind]. rewrite H1. cbn [bind]. cbv zeta.
  rewrite !Math_random_afterRead. reflexivity.
Qed.

(** C3. For a quote request whose resulting supply passes the bounds
    check, [calculateTradePrice] throws 'Price impact too high' exactly
    when both prices are computed and the computed price impact exceeds the
    adjusted max slippage, which is the configured [maxSlippage], times 0.8
    when the 24h volume exceeds 100 whole units, times 1.5 when the market
    cap is below 10 whole units, capped at 0.10.  The new price is computed
    after the current one, at the next reading of the clock. *)
Theorem slippage_error_iff (currentSupply tradeAmount : Z) (isBuy : bool) :
  (0 <= resultingSupply currentSupply tradeAmount isBuy <= totalSupply this)%Z ->
  calculateTradePrice env this currentSupply tradeAmount isBuy
    coinData tradingVolume24h lastTradeTime
  = Err PriceImpactTooHigh
  <->
  exists currentPrice newPrice,
    calculatePrice env this currentSupply coinData tradingVolume24h lastTradeTime
    = Ok currentPrice
    /\ calculatePrice (afterRead lastTradeTime env) this
           (resultingSupply currentSupply tradeAmount isBuy)
         coinData tradingVolume24h lastTradeTime
       = Ok newPrice
    /\ JS.gt (tradePriceImpact isBuy currentPrice newPrice)
         (specAdjustedMaxSlippage this coinData tradingVolume24h)
       = true.
Proof.
  intros Hb. rewrite <- adjustedMaxSlippage_spec.
  destruct (calculatePrice env this currentSupply coinData tradingVolume24h
              lastTradeTime) as [p0|e0] eqn:H0.
  - destruct (calculatePrice (afterRead lastTradeTime env) this
           (resultingSupply currentSupply tradeAmount isBuy)
                coinData tradingVolume24h lastTradeTime) as [p1|e1] eqn:H1.
    + rewrite (calculateTradePrice_priced _ _ _ _ _ Hb H0 H1).
      destruct (JS.gt (tradePriceImpact isBuy p0 p1)
                  (calculateAdjustedMaxSlippage this coinData tradingVolume24h)) eqn:G.
      * split; [intros _|reflexivity].
        exists p0, p1. repeat split; assumption.
      * split.
        -- cbv zeta. unfold JS.BigInt_floor.
           destruct (JS.floorZ _); simpl; intros E; discriminate E.
        -- intros (q0 & q1 & E0 & E1 & G').
           injection E0 as <-. injection E1 as <-. congruence.
    + split.
      * unfold calculateTradePrice.
        fold (resultingSupply currentSupply tradeAmount isBuy).
        destruct (_ || _); [discriminate|].
        rewrite H0, H1. simpl. intros E. injection E as ->.
        exfalso. revert H1. unfold calculatePrice.
        destruct (_ >=? _)%Z; [discriminate|].
        unfold JS.BigInt_floor. destruct (JS.floorZ _); discriminate.
      * intros (q0 & q1 & _ & E1 & _). discriminate.
  - split.
    + unfold calculateTradePrice.
      fold (resultingSupply currentSupply tradeAmount isBuy).
      destruct (_ || _); [discriminate|].
      rewrite H0. simpl. intros E. injection E as ->.
      exfalso. revert H0. unfold calculatePrice.
      destruct (_ >=? _)%Z; [discriminate|].
      unfold JS.BigInt_floor. destruct (JS.floorZ _); discriminate.
    + intros (q0 & q1 & E0 & _). discriminate.
Qed.

End Slippage.

Section SlippageExample.

Import BondingCurve.
Local Open Scope float_scope.

Lemma slippage_error_iff_witness :
  calculateTradePrice env0 defaultBondingCurve 1000 1000 true None None None
  = Err PriceImpactTooHigh
  <->
  exists currentPrice newPrice,
    calculatePrice env0 defaultBondingCurve 1000 None None None = Ok currentPrice
    /\ calculatePrice env0 defaultBondingCurve (resultingSupply 1000 1000 true)
         None None None
       = Ok newPrice
    /\ JS.gt (tradePriceImpact true currentPrice newPrice)
         (specAdjustedMaxSlippage defaultBondingCurve None None)
       = true.
Proof.
  apply (slippage_error_iff env0 defaultBondingCurve None None None 1000 1000 true).
  vm_compute. split; discriminate.
Defined.

Example doubling_the_supply_is_rejected :
  calculateTradePrice env0 defaultBondingCurve 1000 1000 true None None None
  = Err PriceImpactTooHigh.
Proof. vm_compute. reflexivity. Qed.

Example small_buy_is_quoted :
  exists q,
    calculateTradePrice env0 defaultBondingCurve (10 ^ 8) (10 ^ 6) true None None None
    = Ok q
    /\ JS.lt (priceImpact q) 0.05 = true.
Proof. eexists. split; vm_compute; reflexivity. Qed.

End SlippageExample.

(** ** Fees *)

Section Fees.

Import BondingCurve.
Local Open Scope float_scope.

(** The dynamic fee rate is one of six numbers, between 0.5% and 2%; in
    basis points, rounded down, it is an integer between 0 and 200. *)
Lemma feeRate_bounds (coinData : option CreatorCoin) (tradingVolume24h : option Z) :
  let feeRate := calculateDynamicFeeRate coinData tradingVolume24h in
  (0.005 <=? feeRate) = true
  /\ (feeRate <=? 0.02) = true
  /\ exists feeBasisPoints,
       JS.BigInt_floor (feeRate * 10000) = Ok feeBasisPoints
       /\ (0 <= feeBasisPoints <= 200)%Z.
Proof.
  unfold calculateDynamicFeeRate.
  destruct (JS.truthy tradingVolume24h) as [v|];
    [destruct (JS.gt (toETH v) 1000); [|destruct (JS.gt (toETH v) 100)]|];
    (destruct coinData as [coin|];
     [destruct (JS.lt (toETH (marketCap coin)) 1)|]);
    cbv zeta; (split; [vm_compute; reflexivity|]);
    (split; [vm_compute; reflexivity|]);
    eexists; (split; [vm_compute; reflexivity|]); lia.
Qed.

(** A fee of at most 10000 basis points of a non-negative amount is
    between 0 and the amount. *)
Lemma fee_le_amount (amount feeBasisPoints : Z) :
  (0 <= amount)%Z -> (0 <= feeBasisPoints <= 10000)%Z ->
  (0 <= Z.quot (amount * feeBasisPoints) 10000 <= amount)%Z.
Proof.
  intros Ha Hb.
  rewrite Z.quot_div_nonneg by nia.
  split.
  - apply Z.div_pos; nia.
  - apply Z.div_le_upper_bound; nia.
Qed.

(** C10, as stated, fails: [calculateTradePrice] checks the resulting
    supply, not the sign of the trade amount.  The buy of -10^6 units at a
    supply of 10^8 units passes the check and is quoted with a negative
    output amount: the fee, -11111111, is above the output amount,
    -1111111111, and the minimum received is negative. *)
Lemma negative_amount_is_quoted :
  exists q,
    calculateTradePrice env0 defaultBondingCurve (10 ^ 8) (- 10 ^ 6) true
      None None None = Ok q
    /\ outputAmount q = (-1111111111)%Z
    /\ fee q = (-11111111)%Z
    /\ minimumReceived q = (-1100000000)%Z
    /\ ~ (fee q <= outputAmount q)%Z
    /\ ~ (0 <= minimumReceived q)%Z.
Proof.
  eexists. split; [vm_compute; reflexivity|].
  cbn [outputAmount fee minimumReceived]. repeat split; lia.
Qed.

(** C10, amended. For every quote returned by [calculateTradePrice], the
    dynamic fee rate lies in [0.005, 0.02] and the minimum received is the
    output amount less the fee; when the output amount is not negative,
    the fee is between 0 and the output amount and the minimum received is
    not negative.  The output amount is not negative whenever the supply
    and the trade amount are not and the curve's [baseK] and multipliers
    are not negative. *)
Theorem quote_fee_bounds
    (env : Env) (this : Calculator) (currentSupply tradeAmount : Z) (isBuy : bool)
    (coinData : option CreatorCoin) (tradingVolume24h : option Z)
    (lastTradeTime : option float) (q : TradeQuote) :
  calculateTradePrice env this currentSupply tradeAmount isBuy
    coinData tradingVolume24h lastTradeTime = Ok q ->
  (0.005 <=? calculateDynamicFeeRate coinData tradingVolume24h) = true
  /\ (calculateDynamicFeeRate coinData tradingVolume24h <=? 0.02) = true
  /\ minimumReceived q = (outputAmount q - fee q)%Z
  /\ ((0 <= outputAmount q)%Z ->
      (0 <= fee q <= outputAmount q)%Z /\ (0 <= minimumReceived q)%Z)
  /\ ((0 <=? baseK this) = true ->
      (0 <=? creatorMultiplier this) = true ->
      (0 <=? volumeMultiplier this) = true ->
      (0 <= currentSupply)%Z -> (0 <= tradeAmount)%Z ->
      (0 <= outputAmount q)%Z).
Proof.
  intros H.
  destruct (feeRate_bounds coinData tradingVolume24h) as (Hlo & Hhi & bp & Hbp & Hrange).
  split; [exact Hlo|]. split; [exact Hhi|].
  revert H. unfold calculateTradePrice.
  destruct (_ || _); [discriminate|].
  destruct (calculatePrice env this currentSupply coinData tradingVolume24h
              lastTradeTime) as [p0|] eqn:E0; [|discriminate].
  cbn [bind].
  destruct (calculatePrice (afterRead lastTradeTime env) this
              (if isBuy then _ else _) _ _ _) as [p1|];
    [|discriminate].
  cbn [bind].
  destruct (JS.gt _ _); [discriminate|].
  rewrite Hbp. cbn [bind]. intros E. injection E as <-.
  cbn [minimumReceived outputAmount fee].
  split; [reflexivity|]. split.
  - intros Hout.
    pose proof (fee_le_amount _ bp Hout ltac:(lia)) as Hfee.
    split; [exact Hfee | lia].
  - intros HK Hcm Hvm Hs Ht.
    pose proof (calculatePrice_nonneg _ _ _ _ _ _ _ HK Hcm Hvm Hs E0) as Hp.
    apply Z.quot_pos; [nia | lia].
Qed.

End Fees.

Section FeesExample.

Import BondingCurve.
Local Open Scope float_scope.

(** The quote of a buy of 10^6 units at a supply of 10^8 units. *)
Definition quote8 : TradeQuote := {|
  inputAmount := 1000000;
  outputAmount := 1111111111;
  priceImpact := 0.021234705228031132;
  minimumReceived := 1100000000;
  fee := 11111111;
  deadline := 1700001950
|}.

Lemma quote_fee_bounds_witness :
  (0.005 <=? calculateDynamicFeeRate None None) = true
  /\ (calculateDynamicFeeRate None None <=? 0.02) = true
  /\ minimumReceived quote8 = (outputAmount quote8 - fee quote8)%Z
  /\ ((0 <= outputAmount quote8)%Z ->
      (0 <= fee quote8 <= outputAmount quote8)%Z /\ (0 <= minimumReceived quote8)%Z)
  /\ ((0 <=? baseK defaultBondingCurve) = true ->
      (0 <=? creatorMultiplier defaultBondingCurve) = true ->
      (0 <=? volumeMultiplier defaultBondingCurve) = true ->
      (0 <= 10 ^ 8)%Z -> (0 <= 10 ^ 6)%Z ->
      (0 <= outputAmount quote8)%Z).
Proof.
  apply (quote_fee_bounds env0 defaultBondingCurve (10 ^ 8) (10 ^ 6) true
           None None None quote8).
  vm_compute. reflexivity.
Defined.

End FeesExample.

(** * More on binary64 numbers *)

(** A closed goal, by evaluation. *)
Ltac const := vm_compute; first [exact I | reflexivity].

(** A disjunction of decided facts. *)
Ltac choose_disjunct :=
  solve [ reflexivity | lia | left; choose_disjunct | right; choose_disjunct ].

(** ** More on comparisons *)

Section MoreFloatOrder.

Local Open Scope float_scope.

Lemma SFcompare_eq_lt_trans (x y z : spec_float) :
  SFcompare x y = Some Eq -> SFcompare y z = Some Lt -> SFcompare x z = Some Lt.
Proof.
  destruct x as [sx|sx| |sx mx ex], y as [sy|sy| |sy my ey], z as [sz|sz| |sz mz ez];
    cbn [SFcompare]; try discriminate;
    repeat match goal with s : bool |- _ => destruct s end;
    try discriminate; try reflexivity;
    change (Pos.compare_cont Eq) with Pos.compare;
    intros H1 H2; injection H1 as H1; injection H2 as H2; f_equal;
    destruct (Z.compare_spec ex ey), (Z.compare_spec ey ez), (Z.compare_spec ex ez);
    try discriminate; try lia; try reflexivity; subst;
    destruct (Pos.compare_spec mx my), (Pos.compare_spec my mz), (Pos.compare_spec mx mz);
    cbn in *; try discriminate; try lia; try reflexivity.
Qed.

Lemma leb_ltb_trans (x y z : float) :
  (x <=? y) = true -> (y <? z) = true -> (x <? z) = true.
Proof.
  rewrite leb_spec, !ltb_spec. unfold SFleb, SFltb.
  destruct (SFcompare (Prim2SF x) (Prim2SF y)) as [[]|] eqn:E1; try discriminate;
    destruct (SFcompare (Prim2SF y) (Prim2SF z)) as [[]|] eqn:E2; try discriminate;
    intros _ _.
  - rewrite (SFcompare_eq_lt_trans _ _ _ E1 E2). reflexivity.
  - rewrite (SFcompare_lt_trans _ _ _ E1 E2). reflexivity.
Qed.

(** A number that does not exceed [y] does not exceed a larger [z]. *)
Lemma not_gt_above (x y z : float) :
  JS.gt x y = false -> (y <=? z) = true -> JS.gt x z = false.
Proof.
  unfold JS.gt. intros Hxy Hyz. destruct (z <? x) eqn:Hzx; [|reflexivity].
  rewrite (leb_ltb_trans _ _ _ Hyz Hzx) in Hxy. discriminate.
Qed.

(** [Math.min] returns one of its arguments and is above neither. *)
Lemma Math_min_nan (x y : float) :
  is_nan (JS.Math_min x y) = false -> is_nan x = false /\ is_nan y = false.
Proof.
  unfold JS.Math_min.
  destruct (is_nan x), (is_nan y); cbn [orb]; try (intros H; discriminate H); auto.
Qed.

Lemma Math_min_not_nan (x y : float) :
  is_nan x = false -> is_nan y = false -> is_nan (JS.Math_min x y) = false.
Proof.
  unfold JS.Math_min. intros Nx Ny. rewrite Nx, Ny. cbn [orb].
  destruct (x <? y); [exact Nx|]. destruct (y <? x); [exact Ny|].
  destruct (get_sign x); assumption.
Qed.

Lemma Math_min_le_r (x y : float) :
  is_nan (JS.Math_min x y) = false -> (JS.Math_min x y <=? y) = true.
Proof.
  intros N. destruct (Math_min_nan _ _ N) as [Nx Ny]. revert N.
  unfold JS.Math_min. rewrite Nx, Ny. cbn [orb]. intros _.
  destruct (x <? y) eqn:L1; [apply ltb_leb; exact L1|].
  destruct (y <? x) eqn:L2; [apply leb_refl; exact Ny|].
  destruct (get_sign x); [apply not_ltb_leb; assumption | apply leb_refl; exact Ny].
Qed.

Lemma Math_min_le_l (x y : float) :
  is_nan (JS.Math_min x y) = false -> (JS.Math_min x y <=? x) = true.
Proof.
  intros N. destruct (Math_min_nan _ _ N) as [Nx Ny]. revert N.
  unfold JS.Math_min. rewrite Nx, Ny. cbn [orb]. intros _.
  destruct (x <? y) eqn:L1; [apply leb_refl; exact Nx|].
  destruct (y <? x) eqn:L2; [apply ltb_leb; exact L2|].
  destruct (get_sign x); [apply leb_refl; exact Nx | apply not_ltb_leb; assumption].
Qed.

Lemma Math_max_not_nan (x y : float) :
  is_nan x = false -> is_nan y = false -> is_nan (JS.Math_max x y) = false.
Proof.
  unfold JS.Math_max. intros Nx Ny. rewrite Nx, Ny. cbn [orb].
  destruct (x <? y); [exact Ny|]. destruct (y <? x); [exact Nx|].
  destruct (get_sign x); assumption.
Qed.

End MoreFloatOrder.

(** ** Operations that never give [NaN] *)

Section NotNaN.

Import Rounding.
Local Open Scope float_scope.

(** Whether a rounded result is [NaN] does not depend on its sign. *)
Lemma binary_round_aux_nan (sx : bool) (mx ex : Z) (lx : location) :
  binary_round_aux prec emax sx mx ex lx = S754_nan ->
  binary_round_aux prec emax false mx ex lx = S754_nan.
Proof.
  unfold binary_round_aux.
  destruct (shr_fexp _ _ _ _ _) as [mrs e'].
  cbv zeta. destruct (shr_fexp _ _ _ _ _) as [mrs'' e''].
  destruct (shr_m mrs''); try discriminate; [|reflexivity].
  destruct (_ <=? _)%Z; discriminate.
Qed.

Lemma binary_round_not_nan (sx : bool) (m : positive) (e : Z) :
  binary_round prec emax sx m e <> S754_nan.
Proof.
  intros E.
  pose proof (binary_round_rounds m e) as H.
  apply rounds_nns in H. destruct H as [H _].
  revert E H. unfold binary_round.
  destruct (shl_align _ _ _) as [mz ez].
  intros E. apply binary_round_aux_nan in E. rewrite E. exact (fun F => F).
Qed.

Lemma binary_normalize_not_nan (z e : Z) (s : bool) :
  binary_normalize prec emax z e s <> S754_nan.
Proof.
  destruct z; cbn [binary_normalize]; [discriminate| |]; apply binary_round_not_nan.
Qed.

(** A sum is [NaN] only when an argument is, or when the arguments are
    infinities of opposite signs. *)
Lemma SFadd_not_nan (x y : spec_float) :
  x <> S754_nan -> y <> S754_nan ->
  (forall s, x = S754_infinity s -> y <> S754_infinity (negb s)) ->
  SFadd prec emax x y <> S754_nan.
Proof.
  intros Nx Ny Hinf.
  destruct x as [sx|sx| |sx mx ex], y as [sy|sy| |sy my ey];
    cbn [SFadd]; try discriminate; try contradiction.
  - destruct sx, sy; discriminate.
  - destruct sx, sy; try discriminate; exfalso;
      [apply (Hinf true eq_refl) | apply (Hinf false eq_refl)]; reflexivity.
  - apply binary_normalize_not_nan.
Qed.

Lemma SFsub_not_nan (x y : spec_float) :
  x <> S754_nan -> y <> S754_nan ->
  (forall s, x = S754_infinity s -> y <> S754_infinity s) ->
  SFsub prec emax x y <> S754_nan.
Proof.
  intros Nx Ny Hinf.
  destruct x as [sx|sx| |sx mx ex], y as [sy|sy| |sy my ey];
    cbn [SFsub]; try discriminate; try contradiction.
  - destruct sx, sy; discriminate.
  - destruct sx, sy; try discriminate; exfalso;
      [apply (Hinf true eq_refl) | apply (Hinf false eq_refl)]; reflexivity.
  - apply binary_normalize_not_nan.
Qed.

(** The product of two finite numbers is never [NaN]. *)
Lemma SFmul_finite_not_nan (sx sy : bool) (mx my : positive) (ex ey : Z) :
  valid_binary (S754_finite sx mx ex) = true ->
  valid_binary (S754_finite sy my ey) = true ->
  SFmul prec emax (S754_finite sx mx ex) (S754_finite sy my ey) <> S754_nan.
Proof.
  intros Vx Vy E. cbn [SFmul] in E. apply binary_round_aux_nan in E.
  pose proof (SFmul_frounds (S754_finite false mx ex) (S754_finite false my ey)
                Vx Vy eq_refl eq_refl) as H.
  apply frounds_nns in H. destruct H as [H _].
  cbn [SFmul xorb] in H. rewrite E in H. exact H.
Qed.

(** The product of a number by a finite number other than zero is a
    number. *)
Lemma mul_finite_not_nan (x c : float) (s : bool) (m : positive) (e : Z) :
  Prim2SF c = S754_finite s m e ->
  is_nan x = false -> is_nan (x * c) = false.
Proof.
  intros Hc Nx. apply is_nan_spec in Nx. apply is_nan_spec.
  pose proof (Prim2SF_valid x) as Vx. pose proof (Prim2SF_valid c) as Vc.
  rewrite mul_spec. unfold SF64mul. rewrite Hc in *.
  destruct (Prim2SF x) as [sx|sx| |sx mx ex] eqn:Ex; try discriminate;
    [contradiction|].
  apply SFmul_finite_not_nan; assumption.
Qed.

End NotNaN.

(** ** Absolute values and [NaN] *)

Section AbsAndNaN.

Local Open Scope float_scope.

(** [|x| > c] exactly when [x > c] or [x < -c], for a positive finite
    [c]. *)
Lemma abs_gt (x c c' : float) (m : positive) (e : Z) :
  Prim2SF c = S754_finite false m e ->
  Prim2SF c' = S754_finite true m e ->
  JS.gt (JS.Math_abs x) c = JS.gt x c || JS.lt x c'.
Proof.
  intros Hc Hc'. unfold JS.gt, JS.lt, JS.Math_abs.
  rewrite !ltb_spec, abs_spec, Hc, Hc'. unfold SFltb.
  destruct (Prim2SF x) as [s|s| |s mx ex]; cbn [SFabs SFcompare];
    try destruct s; try reflexivity.
  - change (Pos.compare_cont Eq) with Pos.compare.
    destruct (Z.compare_spec e ex), (Z.compare_spec ex e); try lia; try reflexivity.
    rewrite (Pos.compare_antisym m mx). destruct (Pos.compare m mx); reflexivity.
  - change (Pos.compare_cont Eq) with Pos.compare.
    destruct (Z.compare e ex); try reflexivity.
    destruct (Pos.compare m mx); reflexivity.
Qed.

Lemma abs_nan (x : float) : is_nan (JS.Math_abs x) = is_nan x.
Proof.
  unfold JS.Math_abs.
  destruct (is_nan x) eqn:N.
  - apply is_nan_true in N. apply is_nan_true. rewrite abs_spec, N. reflexivity.
  - apply is_nan_spec in N. apply is_nan_spec. rewrite abs_spec.
    destruct (Prim2SF x); cbn; congruence.
Qed.

(** [NaN] is absorbing. *)
Lemma add_nan_l (x y : float) : is_nan x = true -> is_nan (x + y) = true.
Proof.
  intros N. apply is_nan_true in N. apply is_nan_true.
  rewrite add_spec, N. reflexivity.
Qed.

Lemma add_nan_r (x y : float) : is_nan y = true -> is_nan (x + y) = true.
Proof.
  intros N. apply is_nan_true in N. apply is_nan_true.
  rewrite add_spec, N. unfold SF64add. destruct (Prim2SF x); reflexivity.
Qed.

Lemma sub_nan_l (x y : float) : is_nan x = true -> is_nan (x - y) = true.
Proof.
  intros N. apply is_nan_true in N. apply is_nan_true.
  rewrite sub_spec, N. reflexivity.
Qed.

Lemma sub_nan_r (x y : float) : is_nan y = true -> is_nan (x - y) = true.
Proof.
  intros N. apply is_nan_true in N. apply is_nan_true.
  rewrite sub_spec, N. unfold SF64sub. destruct (Prim2SF x); reflexivity.
Qed.

Lemma mul_nan_l (x y : float) : is_nan x = true -> is_nan (x * y) = true.
Proof.
  intros N. apply is_nan_true in N. apply is_nan_true.
  rewrite mul_spec, N. reflexivity.
Qed.

Lemma mul_nan_r (x y : float) : is_nan y = true -> is_nan (x * y) = true.
Proof.
  intros N. apply is_nan_true in N. apply is_nan_true.
  rewrite mul_spec, N. unfold SF64mul. destruct (Prim2SF x); reflexivity.
Qed.

Lemma div_nan_l (x y : float) : is_nan x = true -> is_nan (x / y) = true.
Proof.
  intros N. apply is_nan_true in N. apply is_nan_true.
  rewrite div_spec, N. reflexivity.
Qed.

Lemma Math_min_nan_l (x y : float) : is_nan x = true -> is_nan (JS.Math_min x y) = true.
Proof. unfold JS.Math_min. intros ->. reflexivity. Qed.

Lemma Math_min_nan_r (x y : float) : is_nan y = true -> is_nan (JS.Math_min x y) = true.
Proof. unfold JS.Math_min. intros ->. rewrite orb_true_r. reflexivity. Qed.

Lemma Math_max_nan_r (x y : float) : is_nan y = true -> is_nan (JS.Math_max x y) = true.
Proof. unfold JS.Math_max. intros ->. rewrite orb_true_r. reflexivity. Qed.

Lemma BigInt_floor_nan (x : float) :
  is_nan x = true -> JS.BigInt_floor x = Err RangeError.
Proof.
  intros N. apply is_nan_true in N. unfold JS.BigInt_floor, JS.floorZ.
  rewrite N. reflexivity.
Qed.

End AbsAndNaN.

(** ** Numbers with a clear sign bit *)

Section ClearSign.

Import Rounding.
Local Open Scope float_scope.

(** Not [NaN], with a clear sign bit: [+0], a positive finite number or
    [+Infinity]. *)
Definition pns (f : spec_float) : Prop :=
  match f with
  | S754_zero s | S754_infinity s | S754_finite s _ _ => s = false
  | S754_nan => False
  end.

Lemma Number_pns (z : Z) : (0 <= z)%Z -> pns (Prim2SF (JS.Number z)).
Proof.
  intros Hz. destruct (Number_frounds z Hz) as [[E _]|[_ (M & k & _ & _ & _ & R)]].
  - apply eq_IZR in E. subst z. reflexivity.
  - revert R. destruct (Prim2SF (JS.Number z)); cbn; tauto.
Qed.

Lemma div_pns (x y : float) :
  pns (Prim2SF x) -> pns (Prim2SF y) -> nnn (Prim2SF (x / y)).
Proof.
  intros Hx Hy.
  pose proof (Prim2SF_valid x) as Vx. pose proof (Prim2SF_valid y) as Vy.
  pose proof (SFdiv_frounds (Prim2SF x) (Prim2SF y) Vx Vy) as HF.
  rewrite div_spec. unfold SF64div, nnn.
  destruct (Prim2SF x) as [sx|sx| |sx mx ex], (Prim2SF y) as [sy|sy| |sy my ey];
    cbn in Hx, Hy; try contradiction; subst;
    try (left; reflexivity); try (right; reflexivity).
  right. apply (frounds_nns _ _ (HF eq_refl eq_refl (F2R_pos _ _))).
Qed.

Lemma nnn_not_negative (x : float) : nnn (Prim2SF x) -> (x <? 0) = false.
Proof.
  rewrite ltb_spec. unfold SFltb, nnn.
  change (Prim2SF 0) with (S754_zero false).
  destruct (Prim2SF x) as [s|s| |s m e]; cbn; intros [H|H];
    try discriminate H; subst; try reflexivity; contradiction.
Qed.

End ClearSign.

(** ** Numbers that are not negative *)

Section NonNegative.

Import Rounding.
Local Open Scope float_scope.

(** A number that is not negative: [nns] of its value. *)
Definition fnns (x : float) : Prop := nns (Prim2SF x).

Lemma fnns_not_nan (x : float) : fnns x -> is_nan x = false.
Proof.
  unfold fnns. intros H. apply is_nan_spec. intros E. rewrite E in H. exact H.
Qed.

Lemma fnns_nonneg (x : float) : fnns x -> (0 <=? x) = true.
Proof.
  unfold fnns. rewrite leb_spec. unfold SFleb.
  change (Prim2SF 0) with (S754_zero false).
  destruct (Prim2SF x) as [s|s| |s m e]; cbn; intros H; subst;
    try reflexivity; contradiction.
Qed.

Lemma nonneg_fnns (x : float) : (0 <=? x) = true -> fnns x.
Proof. apply nonneg_nns. Qed.

Lemma add_fnns (x y : float) : fnns x -> fnns y -> fnns (x + y).
Proof.
  unfold fnns. intros Hx Hy. rewrite add_spec. unfold SF64add.
  destruct (Prim2SF x) as [sx|sx| |sx mx ex], (Prim2SF y) as [sy|sy| |sy my ey];
    cbn in Hx, Hy; try contradiction; subst; cbn [SFadd];
    try exact I; try reflexivity.
  - destruct sx, sy; exact I.
  - cbn [cond_Zopp].
    apply (frounds_nns (F2R (Zpos (fst (shl_align mx ex (Z.min ex ey)))
                             + Zpos (fst (shl_align my ey (Z.min ex ey))))
                          (Z.min ex ey))).
    apply binary_normalize_frounds. lia.
Qed.

Lemma Number_fnns (z : Z) : (0 <= z)%Z -> fnns (JS.Number z).
Proof.
  intros Hz. unfold fnns.
  pose proof (Number_pns z Hz) as H. revert H.
  destruct (Prim2SF (JS.Number z)); cbn; tauto.
Qed.

(** A positive finite number. *)
Definition positive_finite (c : float) : bool := (0 <? c) && (c <? infinity).

Lemma positive_finite_spec (c : float) :
  positive_finite c = true -> exists m e, Prim2SF c = S754_finite false m e.
Proof.
  unfold positive_finite. rewrite !ltb_spec. unfold SFltb.
  change (Prim2SF 0) with (S754_zero false).
  change (Prim2SF infinity) with (S754_infinity false).
  destruct (Prim2SF c) as [s|s| |s m e]; cbn; try destruct s; try discriminate.
  intros _. exists m, e. reflexivity.
Qed.

(** Dividing by a positive finite number keeps a number non-negative. *)
Lemma div_fnns (x c : float) :
  positive_finite c = true -> fnns x -> fnns (x / c).
Proof.
  intros Pc. destruct (positive_finite_spec c Pc) as (m & e & Hc). revert Hc.
  unfold fnns. intros Hc Hx.
  pose proof (Prim2SF_valid x) as Vx. pose proof (Prim2SF_valid c) as Vc.
  pose proof (SFdiv_frounds (Prim2SF x) (Prim2SF c) Vx Vc) as HF.
  rewrite div_spec. unfold SF64div. rewrite Hc in *.
  destruct (Prim2SF x) as [sx|sx| |sx mx ex]; cbn in Hx; try contradiction; subst;
    cbn [SFdiv xorb]; try exact I; try reflexivity.
  apply (frounds_nns _ _ (HF eq_refl eq_refl (F2R_pos _ _))).
Qed.

Lemma mul_fnns (x c : float) :
  positive_finite c = true -> fnns x -> fnns (x * c).
Proof.
  intros Pc. destruct (positive_finite_spec c Pc) as (m & e & Hc). revert Hc.
  unfold fnns. intros Hc Hx.
  pose proof (Prim2SF_valid x) as Vx. pose proof (Prim2SF_valid c) as Vc.
  pose proof (SFmul_frounds (Prim2SF x) (Prim2SF c) Vx Vc) as HF.
  rewrite mul_spec. unfold SF64mul. rewrite Hc in *.
  destruct (Prim2SF x) as [sx|sx| |sx mx ex]; cbn in Hx; try contradiction; subst;
    cbn [SFmul xorb]; try exact I; try reflexivity.
  apply (frounds_nns _ _ (HF eq_refl eq_refl)).
Qed.

Lemma Math_min_fnns (x y : float) : fnns x -> fnns y -> fnns (JS.Math_min x y).
Proof.
  intros Hx Hy. unfold JS.Math_min.
  rewrite (fnns_not_nan x Hx), (fnns_not_nan y Hy). cbn [orb].
  destruct (x <? y); [exact Hx|]. destruct (y <? x); [exact Hy|].
  destruct (get_sign x); assumption.
Qed.

Lemma Math_max_fnns_l (x y : float) :
  fnns x -> is_nan y = false -> fnns (JS.Math_max x y).
Proof.
  intros Hx Ny.
  pose proof (Math_max_not_nan x y (fnns_not_nan x Hx) Ny) as N.
  exact (leb_nns _ _ Hx (Math_max_ge_l x y N)).
Qed.

Lemma toETH_fnns (z : Z) : (0 <= z)%Z -> fnns (BondingCurve.toETH z).
Proof.
  intros Hz. unfold BondingCurve.toETH.
  apply div_fnns; [reflexivity | apply Number_fnns; exact Hz].
Qed.

(** A clamped score is between 0 and the clamp. *)
Lemma clamped_score (score limit : float) :
  fnns score -> fnns limit ->
  (0 <=? JS.Math_min score limit) = true /\ (JS.Math_min score limit <=? limit) = true.
Proof.
  intros Hs Hl. split.
  - apply fnns_nonneg, Math_min_fnns; assumption.
  - apply Math_min_le_r, fnns_not_nan, Math_min_fnns; assumption.
Qed.

End NonNegative.

Section MoreSigns.

Import Rounding.
Local Open Scope float_scope.

Lemma pns_fnns (x : float) : pns (Prim2SF x) -> fnns x.
Proof. unfold fnns. destruct (Prim2SF x); cbn; tauto. Qed.

Lemma abs_pns (x : float) : is_nan x = false -> pns (Prim2SF (JS.Math_abs x)).
Proof.
  intros N. apply is_nan_spec in N. unfold JS.Math_abs. rewrite abs_spec.
  destruct (Prim2SF x); cbn; congruence.
Qed.

Lemma mul_pns (x c : float) :
  pns (Prim2SF x) -> positive_finite c = true -> pns (Prim2SF (x * c)).
Proof.
  intros Hx Pc. destruct (positive_finite_spec c Pc) as (m & e & Hc).
  pose proof (Prim2SF_valid x) as Vx. pose proof (Prim2SF_valid c) as Vc.
  pose proof (SFmul_frounds (Prim2SF x) (Prim2SF c) Vx Vc) as HF.
  rewrite mul_spec. unfold SF64mul. rewrite Hc in *.
  destruct (Prim2SF x) as [sx|sx| |sx mx ex]; cbn in Hx; try contradiction; subst;
    cbn [SFmul xorb pns]; try reflexivity.
  destruct (HF eq_refl eq_refl) as [[E _]|[_ (M & k & _ & _ & _ & R)]].
  - cbn [SF2R cond_Zopp] in E. pose proof (F2R_pos mx ex). pose proof (F2R_pos m e).
    nra.
  - revert R. cbn [SFmul xorb].
    destruct (binary_round_aux _ _ _ _ _ _); cbn; tauto.
Qed.

Lemma nnn_fnns (x : float) : nnn (Prim2SF x) -> is_nan x = false -> fnns x.
Proof.
  intros [E|H] N; [|exact H]. apply is_nan_spec in N. contradiction.
Qed.

Lemma not_nan_add (x y : float) :
  is_nan (x + y) = false -> is_nan x = false /\ is_nan y = false.
Proof.
  intros N. destruct (is_nan x) eqn:Nx; [rewrite add_nan_l in N by exact Nx; discriminate|].
  destruct (is_nan y) eqn:Ny; [rewrite add_nan_r in N by exact Ny; discriminate|].
  split; reflexivity.
Qed.

Lemma not_nan_mul_l (x y : float) : is_nan (x * y) = false -> is_nan x = false.
Proof.
  intros N. destruct (is_nan x) eqn:Nx; [|reflexivity].
  rewrite mul_nan_l in N by exact Nx. discriminate.
Qed.

Lemma not_nan_div_l (x y : float) : is_nan (x / y) = false -> is_nan x = false.
Proof.
  intros N. destruct (is_nan x) eqn:Nx; [|reflexivity].
  rewrite div_nan_l in N by exact Nx. discriminate.
Qed.

(** [Math.max] of two numbers that are at most [c] is at most [c]. *)
Lemma Math_max_le (x y c : float) :
  is_nan (JS.Math_max x y) = false ->
  (x <=? c) = true -> (y <=? c) = true -> (JS.Math_max x y <=? c) = true.
Proof.
  intros N Hx Hy. destruct (Math_max_nan _ _ N) as [Nx Ny]. revert N.
  unfold JS.Math_max. rewrite Nx, Ny. cbn [orb]. intros _.
  destruct (x <? y); [exact Hy|]. destruct (y <? x); [exact Hx|].
  destruct (get_sign x); assumption.
Qed.

End MoreSigns.

(** ** Comparisons and values *)

Section CompareValues.

Import Rounding.
Local Open Scope R_scope.

(** Of two valid positive finite numbers, the one with the smaller exponent
    is the smaller. *)
Lemma canonical_exponent_lt (m1 m2 : positive) (e1 e2 : Z) :
  valid_binary (S754_finite false m1 e1) = true ->
  valid_binary (S754_finite false m2 e2) = true ->
  (e1 < e2)%Z -> F2R (Zpos m1) e1 < F2R (Zpos m2) e2.
Proof.
  intros V1 V2 He.
  destruct (valid_finite_canonical _ _ _ V1) as [C1 _].
  destruct (valid_finite_canonical _ _ _ V2) as [C2 _].
  rewrite fexp64_eq in C1, C2.
  pose proof (F2R_pos_mag m1 e1) as [_ U1].
  pose proof (F2R_pos_mag m2 e2) as [L2 _].
  assert (HM : (Zpos (digits2_pos m1) + e1 <= Zpos (digits2_pos m2) + e2 - 1)%Z) by lia.
  pose proof (bpow_le _ _ HM). lra.
Qed.

Lemma F2R_lt (m1 m2 e : Z) : (m1 < m2)%Z -> F2R m1 e < F2R m2 e.
Proof.
  intros H. unfold F2R. apply Rmult_lt_compat_r; [apply bpow_gt_0|].
  apply IZR_lt. exact H.
Qed.

(** [SFcompare] on valid non-negative finite numbers is the comparison of
    their values. *)
Lemma SFcompare_values (x y : spec_float) :
  valid_binary x = true -> valid_binary y = true -> nnf x -> nnf y ->
  match SFcompare x y with
  | Some Lt => SF2R x < SF2R y
  | Some Eq => SF2R x = SF2R y
  | Some Gt => SF2R y < SF2R x
  | None => False
  end.
Proof.
  intros Vx Vy Nx Ny.
  destruct x as [sx|sx| |sx mx ex]; cbn in Nx; try contradiction;
    destruct y as [sy|sy| |sy my ey]; cbn in Ny; try contradiction; subst;
    cbn [SFcompare SF2R cond_Zopp].
  - reflexivity.
  - apply F2R_pos.
  - apply F2R_pos.
  - change (Pos.compare_cont Eq) with Pos.compare.
    destruct (Z.compare_spec ex ey) as [E|L|G].
    + subst ey. destruct (Pos.compare_spec mx my) as [E|L|G].
      * subst. reflexivity.
      * apply F2R_lt. lia.
      * apply F2R_lt. lia.
    + apply canonical_exponent_lt; assumption.
    + apply canonical_exponent_lt; assumption.
Qed.

Local Open Scope float_scope.

Lemma ltb_fval (x y : float) :
  fnn x -> fnn y -> ((x <? y) = true <-> (fval x < fval y)%R).
Proof.
  intros Nx Ny. unfold fval. rewrite ltb_spec. unfold SFltb.
  pose proof (SFcompare_values _ _ (Prim2SF_valid x) (Prim2SF_valid y) Nx Ny) as H.
  destruct (SFcompare (Prim2SF x) (Prim2SF y)) as [[]|]; try contradiction;
    split; intros H'; try reflexivity; try discriminate; try lra.
Qed.

Lemma leb_fval (x y : float) :
  fnn x -> fnn y -> ((x <=? y) = true <-> (fval x <= fval y)%R).
Proof.
  intros Nx Ny. unfold fval. rewrite leb_spec. unfold SFleb.
  pose proof (SFcompare_values _ _ (Prim2SF_valid x) (Prim2SF_valid y) Nx Ny) as H.
  destruct (SFcompare (Prim2SF x) (Prim2SF y)) as [[]|]; try contradiction;
    split; intros H'; try reflexivity; try discriminate; try lra.
Qed.

(** A non-negative number is finite or [+Infinity]. *)
Lemma fnns_cases (x : float) :
  fnns x -> fnn x \/ Prim2SF x = S754_infinity false.
Proof.
  unfold fnns, fnn. destruct (Prim2SF x) as [s|s| |s m e]; cbn; intros H;
    subst; try contradiction; auto.
Qed.

Lemma fnn_fnns (x : float) : fnn x -> fnns x.
Proof. apply nnf_nns. Qed.

Lemma leb_infinity (x y : float) :
  fnns x -> Prim2SF y = S754_infinity false -> (x <=? y) = true.
Proof.
  unfold fnns. rewrite leb_spec. unfold SFleb. intros Hx ->.
  destruct (Prim2SF x) as [s|s| |s m e]; cbn in *; subst; try reflexivity;
    contradiction.
Qed.

(** Below a finite number there are only finite numbers. *)
Lemma leb_fnn (x y : float) : fnns x -> fnn y -> (x <=? y) = true -> fnn x.
Proof.
  unfold fnns, fnn. rewrite leb_spec. unfold SFleb.
  destruct (Prim2SF x) as [s|s| |s m e], (Prim2SF y) as [sy|sy| |sy my ey];
    cbn; intros Hx Hy; subst; try contradiction; try discriminate; auto.
Qed.

Lemma ltb_fnn (x y : float) : fnns x -> fnn y -> (x <? y) = true -> fnn x.
Proof. intros Hx Hy H. apply (leb_fnn x y Hx Hy), ltb_leb, H. Qed.

End CompareValues.

(** ** Addition *)

Section Addition.

Import Rounding.
Local Open Scope R_scope.

Lemma SFadd_frounds (x y : spec_float) :
  valid_binary x = true -> valid_binary y = true -> nnf x -> nnf y ->
  frounds (SF2R x + SF2R y) (SFadd prec emax x y).
Proof.
  intros Vx Vy Nx Ny.
  destruct x as [sx|sx| |sx mx ex]; cbn in Nx; try tauto;
    destruct y as [sy|sy| |sy my ey]; cbn in Ny; try tauto; subst;
    cbn [SFadd SF2R cond_Zopp].
  - left. split; [ring|]. destruct sx, sy; exact I.
  - right. rewrite Rplus_0_l. split; [apply F2R_pos | apply rounds_self; exact Vy].
  - right. rewrite Rplus_0_r. split; [apply F2R_pos | apply rounds_self; exact Vx].
  - pose proof (shl_align_spec mx ex (Z.min ex ey)) as [Ex Eex].
    pose proof (shl_align_spec my ey (Z.min ex ey)) as [Ey Eey].
    destruct (shl_align mx ex (Z.min ex ey)) as [mx' ex'].
    destruct (shl_align my ey (Z.min ex ey)) as [my' ey'].
    cbn [fst snd] in *.
    rewrite Z.min_r in Eex by lia. rewrite Z.min_r in Eey by lia.
    subst ex' ey'. rewrite <- Ex, <- Ey.
    set (ez := Z.min ex ey).
    assert (EV : F2R (Zpos mx') ez + F2R (Zpos my') ez = F2R (Zpos mx' + Zpos my') ez).
    { unfold F2R. rewrite plus_IZR. ring. }
    rewrite EV. apply binary_normalize_frounds. lia.
Qed.

Local Open Scope float_scope.

Lemma add_frounds (x y : float) :
  fnn x -> fnn y -> frounds (fval x + fval y) (Prim2SF (x + y)).
Proof.
  intros Nx Ny. rewrite add_spec.
  apply SFadd_frounds; try assumption; apply Prim2SF_valid.
Qed.

(** Adding a zero to a positive finite number, or to a zero. *)
Lemma fnn_zero (x : float) : fnn x -> fval x = 0%R -> exists s, Prim2SF x = S754_zero s.
Proof. apply fnn_zero_val. Qed.

Lemma add_same_values (a1 a2 b1 b2 : float) :
  fnn a1 -> fnn a2 -> fnn b1 -> fnn b2 ->
  fval a1 = fval a2 -> fval b1 = fval b2 -> (0 < fval a1 + fval b1)%R ->
  Prim2SF (a1 + b1) = Prim2SF (a2 + b2).
Proof.
  intros Na1 Na2 Nb1 Nb2 Ea Eb P.
  pose proof (fnn_fval_nonneg _ Na1) as Pa. pose proof (fnn_fval_nonneg _ Nb1) as Pb.
  destruct (Rle_lt_or_eq_dec _ _ Pa) as [Pa'|Za];
    destruct (Rle_lt_or_eq_dec _ _ Pb) as [Pb'|Zb].
  - rewrite (fnn_val_inj a1 a2), (fnn_val_inj b1 b2); auto.
  - rewrite (fnn_val_inj a1 a2) by auto.
    destruct (fnn_zero b1 Nb1 (eq_sym Zb)) as [s1 E1].
    destruct (fnn_zero b2 Nb2 ltac:(lra)) as [s2 E2].
    destruct (fnn_pos_finite a2 Na2 ltac:(lra)) as (m & e & E).
    rewrite !add_spec, E1, E2, E. reflexivity.
  - rewrite (fnn_val_inj b1 b2) by auto.
    destruct (fnn_zero a1 Na1 (eq_sym Za)) as [s1 E1].
    destruct (fnn_zero a2 Na2 ltac:(lra)) as [s2 E2].
    destruct (fnn_pos_finite b2 Nb2 ltac:(lra)) as (m & e & E).
    rewrite !add_spec, E1, E2, E. reflexivity.
  - lra.
Qed.

Lemma add_mono (a1 a2 b1 b2 : float) :
  fnn a1 -> fnn a2 -> fnn b1 -> fnn b2 ->
  (fval a1 <= fval a2)%R -> (fval b1 <= fval b2)%R -> fnn (a2 + b2) ->
  fnn (a1 + b1) /\ (fval (a1 + b1) <= fval (a2 + b2))%R.
Proof.
  intros Na1 Na2 Nb1 Nb2 Ha Hb Nr.
  apply (frounds_mono_le (fval a1 + fval b1) (fval a2 + fval b2)).
  - apply add_frounds; assumption.
  - apply add_frounds; assumption.
  - lra.
  - exact Nr.
  - intros P E. apply add_same_values; try assumption; lra.
Qed.

(** A finite sum of non-negative numbers has finite terms. *)
Lemma add_fnn_inv (a b : float) : fnns a -> fnns b -> fnn (a + b) -> fnn a /\ fnn b.
Proof.
  unfold fnns, fnn. rewrite add_spec. unfold SF64add.
  destruct (Prim2SF a) as [sa|sa| |sa ma ea], (Prim2SF b) as [sb|sb| |sb mb eb];
    cbn [nns nnf SFadd]; intros Ha Hb; subst; try contradiction;
    try (intros H; exact H || contradiction); auto.
Qed.

(** Addition does not decrease in either argument, on the non-negative
    numbers, [+Infinity] included. *)
Lemma add_le_compat (a1 a2 b1 b2 : float) :
  fnns a1 -> fnns a2 -> fnns b1 -> fnns b2 ->
  (a1 <=? a2) = true -> (b1 <=? b2) = true ->
  (a1 + b1 <=? a2 + b2) = true.
Proof.
  intros Na1 Na2 Nb1 Nb2 Ha Hb.
  pose proof (add_fnns a1 b1 Na1 Nb1) as N1.
  pose proof (add_fnns a2 b2 Na2 Nb2) as N2.
  destruct (fnns_cases _ N2) as [F2|I2]; [|apply leb_infinity; assumption].
  destruct (add_fnn_inv a2 b2 Na2 Nb2 F2) as [Fa2 Fb2].
  pose proof (leb_fnn a1 a2 Na1 Fa2 Ha) as Fa1.
  pose proof (leb_fnn b1 b2 Nb1 Fb2 Hb) as Fb1.
  apply (leb_fval a1 a2 Fa1 Fa2) in Ha. apply (leb_fval b1 b2 Fb1 Fb2) in Hb.
  destruct (add_mono a1 a2 b1 b2 Fa1 Fa2 Fb1 Fb2 Ha Hb F2) as [F1 H].
  apply leb_fval; assumption.
Qed.

(** A sum of non-negative numbers is at least its first term. *)
Lemma add_ge_l (a b : float) : fnns a -> fnns b -> (a <=? a + b) = true.
Proof.
  intros Na Nb.
  pose proof (add_fnns a b Na Nb) as N.
  destruct (fnns_cases _ N) as [F|I]; [|apply leb_infinity; assumption].
  destruct (add_fnn_inv a b Na Nb F) as [Fa Fb].
  apply leb_fval; [assumption..|].
  pose proof (fnn_fval_nonneg _ Fb) as Pb.
  assert (H : nnf (Prim2SF a) /\ (SF2R (Prim2SF a) <= SF2R (Prim2SF (a + b)))%R).
  { apply (frounds_mono_le (fval a) (fval a + fval b)).
    - apply frounds_self; [apply Prim2SF_valid | exact Fa].
    - apply add_frounds; assumption.
    - lra.
    - exact F.
    - intros P E.
      destruct (fnn_zero b Fb ltac:(lra)) as [s Eb].
      destruct (fnn_pos_finite a Fa P) as (m & e & Ea).
      rewrite add_spec, Eb, Ea. reflexivity. }
  exact (proj2 H).
Qed.

End Addition.

(** ** [Math.floor] and the numbers below 1 *)

Section Floor.

Import Rounding.
Local Open Scope float_scope.

Lemma leb_trans (x y z : float) :
  fnns x -> fnns y -> fnns z ->
  (x <=? y) = true -> (y <=? z) = true -> (x <=? z) = true.
Proof.
  intros Nx Ny Nz Hxy Hyz.
  destruct (fnns_cases z Nz) as [Fz|Iz]; [|apply leb_infinity; assumption].
  pose proof (leb_fnn y z Ny Fz Hyz) as Fy.
  pose proof (leb_fnn x y Nx Fy Hxy) as Fx.
  apply (leb_fval x y Fx Fy) in Hxy. apply (leb_fval y z Fy Fz) in Hyz.
  apply leb_fval; [assumption..|]. lra.
Qed.

Lemma Math_floor_fnns (x : float) : fnns x -> fnns (JS.Math_floor x).
Proof.
  intros Nx. unfold JS.Math_floor.
  destruct (Prim2SF x) as [s|s| |s m e] eqn:E; try exact Nx.
  destruct (0 <=? e)%Z; [exact Nx|].
  unfold fnns in Nx. rewrite E in Nx. cbn in Nx. subst s. cbn [cond_Zopp].
  apply (Number_fnns (Z.shiftl (Zpos m) e)). apply Z.shiftl_nonneg. lia.
Qed.

Lemma SFcompare_positive (m1 m2 : positive) (e1 e2 : Z) :
  SFcompare (S754_finite false m1 e1) (S754_finite false m2 e2)
  = Some match Z.compare e1 e2 with
         | Lt => Lt
         | Gt => Gt
         | Eq => Pos.compare m1 m2
         end.
Proof. reflexivity. Qed.

(** Below 2^52 the integer part is computed by [Number]. *)
Lemma Math_floor_below (x : float) (z : Z) :
  fnn x -> (x <? 4503599627370496) = true -> JS.floorZ x = Some z ->
  (JS.Math_floor x <=? JS.Number z) = true.
Proof.
  intros Nx Hlt Hz. pose proof (Prim2SF_valid x) as V.
  assert (E52 : Prim2SF 4503599627370496 = S754_finite false 4503599627370496 0)
    by (vm_compute; reflexivity).
  revert Hlt Hz. rewrite ltb_spec, leb_spec, E52. clear E52.
  unfold JS.Math_floor, JS.floorZ, fnn in *.
  destruct (Prim2SF x) as [s|s| |s m e] eqn:E; cbn in Nx; try contradiction.
  - intros _ Hz. injection Hz as <-. rewrite E. destruct s; reflexivity.
  - subst s. cbn [cond_Zopp]. intros Hlt Hz. injection Hz as <-.
    destruct (0 <=? e)%Z eqn:He.
    + exfalso. apply Z.leb_le in He.
      destruct (valid_finite_canonical _ _ _ V) as [C _]. rewrite fexp64_eq in C.
      pose proof (digits2_pos_bounds m) as [L _].
      assert (D : Zpos (digits2_pos m) = 53%Z) by lia. rewrite D in L.
      revert Hlt. unfold SFltb. rewrite SFcompare_positive.
      destruct (Z.compare_spec e 0); try discriminate; [|lia].
      destruct (Pos.compare_spec m 4503599627370496) as [_|Hm|_];
        try discriminate.
      apply Pos2Z.pos_lt_pos in Hm. clear - L Hm. lia.
    + fold (JS.Number (Z.shiftl (Zpos m) e)). rewrite <- leb_spec.
      apply leb_refl, fnns_not_nan, Number_fnns, Z.shiftl_nonneg. lia.
Qed.

Local Open Scope R_scope.

(** The largest number below 1 is [1 - 2^-53]. *)
Lemma below_one (x : float) :
  fnn x -> fval x < 1 -> fval x <= fval 0.99999999999999989%float.
Proof.
  intros Nx Hlt. pose proof (Prim2SF_valid x) as V.
  assert (E1 : fval 0.99999999999999989%float = 1 - bpow (-53)).
  { unfold fval.
    assert (E : Prim2SF 0.99999999999999989%float
                = S754_finite false 9007199254740991 (-53))
      by (vm_compute; reflexivity).
    rewrite E. clear E.
    cbn [SF2R cond_Zopp]. unfold F2R.
    change 9007199254740991%Z with (2 ^ 53 - 1)%Z.
    rewrite minus_IZR, <- bpow_IZR by lia.
    rewrite Rmult_minus_distr_r, <- bpow_add. change (53 + -53)%Z with 0%Z.
    rewrite bpow_0. lra. }
  rewrite E1. unfold fval, fnn in *.
  destruct (Prim2SF x) as [s|s| |s m e]; cbn in Nx; try contradiction;
    cbn [SF2R cond_Zopp] in *.
  - pose proof (bpow_lt (-53) 0 ltac:(lia)). rewrite bpow_0 in *. lra.
  - subst s. cbn [cond_Zopp] in *.
    destruct (valid_finite_canonical _ _ _ V) as [C _]. rewrite fexp64_eq in C.
    pose proof (F2R_pos_mag m e) as [L U].
    pose proof (digits2_pos_bounds m) as [_ Um].
    set (d := Zpos (digits2_pos m)) in *.
    assert (HM : (d + e <= 0)%Z).
    { assert (bpow (d + e - 1) < bpow 0) by (rewrite bpow_0; lra).
      apply bpow_lt_inv in H. lia. }
    destruct (Z.eq_dec (d + e) 0) as [Z0|NZ].
    + assert (e = (-53)%Z) by lia. subst e.
      assert (d = 53%Z) by lia.
      assert (Hm : (Zpos m <= 2 ^ 53 - 1)%Z) by (rewrite H in Um; lia).
      apply IZR_le in Hm. rewrite minus_IZR, <- bpow_IZR in Hm by lia.
      unfold F2R. pose proof (bpow_gt_0 (-53)).
      assert (bpow 53 * bpow (-53) = 1).
      { rewrite <- bpow_add. change (53 + -53)%Z with 0%Z. apply bpow_0. }
      nra.
    + assert (bpow (d + e) <= bpow (-1)) by (apply bpow_le; lia).
      assert (bpow (-53) <= bpow (-1)) by (apply bpow_le; lia).
      assert (bpow (-1) + bpow (-1) = 1).
      { pose proof (bpow_succ (-1)) as S. change (-1 + 1)%Z with 0%Z in S.
        rewrite bpow_0 in S. lra. }
      lra.
Qed.

End Floor.

(** ** Exact results *)

Section Exact.

Import Rounding.
Local Open Scope R_scope.

(** Rounding a number that is representable gives that number. *)
Lemma rounds_exact (m : positive) (e : Z) (f : spec_float) :
  valid_binary (S754_finite false m e) = true ->
  rounds (F2R (Zpos m) e) f -> f = S754_finite false m e.
Proof.
  intros V (M & k & Hm & Hc & Hk & Hr).
  destruct (valid_finite_canonical _ _ _ V) as [C _].
  pose proof (mag_unique _ _ _ Hm (F2R_pos_mag m e)) as EM. subst M.
  rewrite C in Hc, Hr.
  assert (Ek : k = Zpos m).
  { apply Rabs_le_both in Hc. unfold F2R in Hc. pose proof (bpow_gt_0 e) as Pe.
    assert (H1 : IZR (Zpos m) - IZR k <= / 2) by nra.
    assert (H2 : - / 2 <= IZR (Zpos m) - IZR k) by nra.
    rewrite <- minus_IZR in H1, H2.
    assert (H3 : (Zpos m - k < 1)%Z) by (apply lt_IZR; lra).
    assert (H4 : (-1 < Zpos m - k)%Z) by (apply lt_IZR; lra).
    lia. }
  subst k.
  destruct f as [s|s| |s m' e']; cbn in Hr; try contradiction.
  - destruct Hr as [_ Hr]. discriminate Hr.
  - destruct Hr as [_ Hr]. pose proof (valid_finite_lt_max false _ _ V). lra.
  - destruct Hr as (-> & EF & V').
    destruct (valid_F2R_inj _ _ _ _ V' V EF) as [-> ->]. reflexivity.
Qed.

Lemma frounds_exact (x : float) (f : spec_float) :
  fnn x -> 0 < fval x -> frounds (fval x) f -> f = Prim2SF x.
Proof.
  intros Nx Px [[E _]|[_ R]]; [lra|].
  destruct (fnn_pos_finite x Nx Px) as (m & e & E).
  pose proof (Prim2SF_valid x) as V. unfold fval in R. rewrite E in *.
  cbn [SF2R cond_Zopp] in R. apply rounds_exact; assumption.
Qed.

Local Open Scope float_scope.

Lemma fval_1 : fval 1 = 1%R.
Proof.
  unfold fval. change (Prim2SF 1) with (S754_finite false 4503599627370496 (-52)).
  cbn [SF2R cond_Zopp]. unfold F2R.
  change 4503599627370496%Z with (2 ^ 52)%Z.
  rewrite <- bpow_IZR, <- bpow_add by lia. apply bpow_0.
Qed.

(** [x * 1] is [x]. *)
Lemma mul_1_r (x : float) : fnn x -> Prim2SF (x * 1) = Prim2SF x \/ fval x = 0%R.
Proof.
  intros Nx. pose proof (fnn_fval_nonneg x Nx) as P.
  destruct (Rle_lt_or_eq_dec _ _ P) as [Pos|Z]; [left|right; symmetry; exact Z].
  apply (frounds_exact x); [exact Nx | exact Pos|].
  pose proof (mul_frounds x 1 Nx ltac:(vm_compute; reflexivity)) as H.
  rewrite fval_1, Rmult_1_r in H. exact H.
Qed.

Lemma mul_1_r_fval (x : float) : fnn x -> fnn (x * 1) /\ fval (x * 1) = fval x.
Proof.
  intros Nx. destruct (mul_1_r x Nx) as [E|Z].
  - unfold fnn, fval. rewrite E. split; [exact Nx | reflexivity].
  - destruct (fnn_zero_val x Nx Z) as [s Es].
    unfold fnn, fval. rewrite mul_spec, Es.
    change (Prim2SF 1) with (S754_finite false 4503599627370496 (-52)).
    cbn. split; [exact I | reflexivity].
Qed.

End Exact.

(** ** The error of one rounding *)

Section RoundingError.

Import Rounding.
Local Open Scope R_scope.

Lemma bpow_neg (n : Z) : (0 <= n)%Z -> bpow (- n) = / IZR (2 ^ n).
Proof.
  intros Hn. rewrite <- bpow_IZR by exact Hn.
  pose proof (bpow_gt_0 n) as P.
  apply Rmult_eq_reg_r with (bpow n); [|lra].
  rewrite <- bpow_add. replace (- n + n)%Z with 0%Z by lia.
  rewrite bpow_0. field. lra.
Qed.

(** In the normal range, a rounded result is within one part in 10^9 of
    the number rounded (in fact within 2^-53 of it). *)
Lemma frounds_near (v : R) (f : spec_float) :
  frounds v f -> bpow (-1022) <= v -> v < bpow 1023 ->
  nnf f /\ v * (1 - / 1000000000) <= SF2R f <= v * (1 + / 1000000000).
Proof.
  intros H Hlo Hhi. pose proof (bpow_gt_0 (-1022)) as P0.
  destruct H as [[E _]|[Pv (M & k & Hm & Hc & Hk & Hr)]]; [lra|].
  assert (HM1 : (-1022 < M)%Z) by (apply bpow_lt_inv; lra).
  assert (HM2 : (M - 1 < 1023)%Z) by (apply bpow_lt_inv; lra).
  assert (Ef : fexp64 M = (M - 53)%Z) by (rewrite fexp64_eq; lia).
  rewrite Ef in Hc, Hr.
  assert (Herr : bpow (M - 53) / 2 <= v * / 1000000000).
  { replace (M - 53)%Z with (M - 1 + -52)%Z by lia. rewrite bpow_add.
    assert (B : bpow (-52) / 2 <= / 1000000000).
    { pose proof (bpow_neg 52 ltac:(lia)) as E.
      cbn [Z.opp] in E. rewrite E.
      change (2 ^ 52)%Z with 4503599627370496%Z. lra. }
    pose proof (bpow_gt_0 (M - 1)). pose proof (bpow_gt_0 (-52)). nra. }
  apply Rabs_le_both in Hc.
  assert (Hv : v * (1 - / 1000000000) <= F2R k (M - 53) <= v * (1 + / 1000000000))
    by lra.
  destruct f as [s|s| |s m e]; cbn in Hr; try contradiction.
  - destruct Hr as [_ ->]. exfalso. unfold F2R in Hv. rewrite Rmult_0_l in Hv. nra.
  - destruct Hr as [_ Hinf]. exfalso.
    assert (bpow 1024 = 2 * bpow 1023) by (apply (bpow_succ 1023)).
    nra.
  - destruct Hr as (-> & EF & _). cbn [nnf SF2R cond_Zopp]. rewrite EF.
    split; [reflexivity | exact Hv].
Qed.

(** The value of a positive finite constant with a negative exponent. *)
Lemma fval_constant (c : float) (m : positive) (e : Z) :
  Prim2SF c = S754_finite false m (- e) -> (0 <= e)%Z ->
  fval c = IZR (Zpos m) / IZR (2 ^ e).
Proof.
  intros E He. unfold fval. rewrite E. cbn [SF2R cond_Zopp]. unfold F2R.
  rewrite (bpow_neg e He). reflexivity.
Qed.

Lemma abs_fnn (x : float) : fnn x -> fnn (JS.Math_abs x) /\ fval (JS.Math_abs x) = fval x.
Proof.
  unfold fnn, fval, JS.Math_abs. rewrite abs_spec.
  destruct (Prim2SF x) as [s|s| |s m e]; cbn; intros H; try contradiction;
    subst; split; reflexivity || exact I.
Qed.

End RoundingError.

(** * Further properties of the calculator *)

(** ** The curve at an empty supply *)

Section EmptySupply.

Import BondingCurve Rounding.

Lemma mul_zn_r (x y : float) : zn (Prim2SF y) -> zn (Prim2SF (x * y)).
Proof.
  unfold zn. rewrite mul_spec. unfold SF64mul.
  destruct (Prim2SF x) as [sx|sx| |sx mx ex], (Prim2SF y) as [sy|sy| |sy my ey];
    cbn; intros [H|H]; try discriminate H; tauto.
Qed.

Lemma div_zn (x y : float) : zn (Prim2SF x) -> zn (Prim2SF (x / y)).
Proof.
  unfold zn. rewrite div_spec. unfold SF64div.
  destruct (Prim2SF x) as [sx|sx| |sx mx ex], (Prim2SF y) as [sy|sy| |sy my ey];
    cbn; intros [H|H]; try discriminate H; tauto.
Qed.

(** The scaled number of [calculatePrice] at supply 0 is a zero or [NaN],
    whatever the parameters and the dynamic k are. *)
Lemma volumePrice_empty (this : Calculator) (dynamicK : float) :
  zn (Prim2SF (volumePrice this 0 dynamicK * 1e18)%float).
Proof.
  unfold volumePrice. cbv zeta.
  do 3 apply mul_zn. apply div_zn. apply mul_zn_r.
  right. vm_compute. exact I.
Qed.

Lemma calculatePrice_empty_cases
    (env : Env) (this : Calculator) (coinData : option CreatorCoin)
    (tradingVolume24h : option Z) (lastTradeTime : option float) :
  calculatePrice env this 0 coinData tradingVolume24h lastTradeTime = Ok 0
  \/ calculatePrice env this 0 coinData tradingVolume24h lastTradeTime = Err RangeError
  \/ (totalSupply this <= 0
      /\ calculatePrice env this 0 coinData tradingVolume24h lastTradeTime
         = Err SupplyExceedsTotal).
Proof.
  destruct (Z.lt_ge_cases 0 (totalSupply this)) as [L|G].
  - rewrite calculatePrice_below_cap by exact L.
    pose proof (volumePrice_empty this
                  (calculateDynamicK env this coinData tradingVolume24h lastTradeTime)) as Hz.
    unfold JS.BigInt_floor.
    destruct (JS.floorZ _) as [z|] eqn:E; [|right; left; reflexivity].
    left. rewrite (floorZ_zn _ _ Hz E). reflexivity.
  - right; right. split; [exact G|]. apply calculatePrice_at_or_above_cap. exact G.
Qed.

(** X1.  At supply 0 the price is 0 whenever [calculatePrice] returns. *)
Theorem calculatePrice_empty_supply
    (env : Env) (this : Calculator) (coinData : option CreatorCoin)
    (tradingVolume24h : option Z) (lastTradeTime : option float) (price : Z) :
  calculatePrice env this 0 coinData tradingVolume24h lastTradeTime = Ok price ->
  price = 0.
Proof.
  intros E.
  destruct (calculatePrice_empty_cases env this coinData tradingVolume24h lastTradeTime)
    as [H|[H|[_ H]]]; rewrite H in E; congruence.
Qed.

(** X2.  [calculateCoinsForEth] never returns at supply 0: the price is 0 and the
    division throws. *)
Theorem calculateCoinsForEth_empty_supply
    (env : Env) (this : Calculator) (ethAmount : Z) (coinData : option CreatorCoin)
    (tradingVolume24h : option Z) (lastTradeTime : option float) :
  exists e,
    calculateCoinsForEth env this 0 ethAmount coinData tradingVolume24h lastTradeTime
    = Err e
    /\ (0 < totalSupply this -> e = RangeError).
Proof.
  unfold calculateCoinsForEth.
  destruct (calculatePrice_empty_cases env this coinData tradingVolume24h lastTradeTime)
    as [H|[H|[G H]]]; rewrite H; cbn.
  - exists RangeError. split; reflexivity.
  - exists RangeError. split; reflexivity.
  - exists SupplyExceedsTotal. split; [reflexivity|lia].
Qed.

End EmptySupply.

(** ** Quotes: errors and amounts *)

Section QuoteErrors.

Import BondingCurve.

Variable env : Env.
Variable this : Calculator.
Variable coinData : option CreatorCoin.
Variable tradingVolume24h : option Z.
Variable lastTradeTime : option float.

(** The two ways [calculatePrice] throws. *)
Lemma calculatePrice_errors (env' : Env) (supply : Z) (e : error) :
  calculatePrice env' this supply coinData tradingVolume24h lastTradeTime = Err e ->
  (e = SupplyExceedsTotal /\ totalSupply this <= supply)
  \/ (e = RangeError /\ supply < totalSupply this).
Proof.
  destruct (Z.lt_ge_cases supply (totalSupply this)) as [L|G].
  - rewrite calculatePrice_below_cap by exact L.
    unfold JS.BigInt_floor. destruct (JS.floorZ _); [discriminate|].
    intros E. injection E as <-. right. split; [reflexivity | exact L].
  - rewrite calculatePrice_at_or_above_cap by exact G.
    intros E. injection E as <-. left. split; [reflexivity | exact G].
Qed.

Lemma calculatePrice_ok_below_cap (env' : Env) (supply price : Z) :
  calculatePrice env' this supply coinData tradingVolume24h lastTradeTime = Ok price ->
  supply < totalSupply this.
Proof.
  intros E. destruct (Z.lt_ge_cases supply (totalSupply this)) as [L|G]; [exact L|].
  rewrite calculatePrice_at_or_above_cap in E by exact G. discriminate.
Qed.

(** What a returned quote tells about the call. *)
Lemma calculateTradePrice_inv
    (currentSupply tradeAmount : Z) (isBuy : bool) (q : TradeQuote) :
  calculateTradePrice env this currentSupply tradeAmount isBuy
    coinData tradingVolume24h lastTradeTime = Ok q ->
  exists currentPrice newPrice feeBasisPoints,
    0 <= resultingSupply currentSupply tradeAmount isBuy <= totalSupply this
    /\ calculatePrice env this currentSupply coinData tradingVolume24h lastTradeTime
       = Ok currentPrice
    /\ calculatePrice (afterRead lastTradeTime env) this
         (resultingSupply currentSupply tradeAmount isBuy)
         coinData tradingVolume24h lastTradeTime
       = Ok newPrice
    /\ JS.gt (tradePriceImpact isBuy currentPrice newPrice)
         (calculateAdjustedMaxSlippage this coinData tradingVolume24h) = false
    /\ JS.BigInt_floor (calculateDynamicFeeRate coinData tradingVolume24h * 10000)%float
       = Ok feeBasisPoints
    /\ inputAmount q = tradeAmount
    /\ outputAmount q = Z.quot (tradeAmount * currentPrice) (10 ^ 18)
    /\ priceImpact q = tradePriceImpact isBuy currentPrice newPrice
    /\ fee q = Z.quot (outputAmount q * feeBasisPoints) 10000
    /\ minimumReceived q = outputAmount q - fee q
    /\ deadline q
       = (JS.Math_floor
            (Date_now (afterRead lastTradeTime (afterRead lastTradeTime env)) / 1000)
          + 1800
          + JS.Math_floor (Math_random env * 300))%float.
Proof.
  unfold calculateTradePrice.
  fold (resultingSupply currentSupply tradeAmount isBuy).
  destruct (_ || _) eqn:G; [discriminate|].
  apply orb_false_iff in G. destruct G as [G1 G2].
  apply Z.ltb_ge in G1. rewrite Z.gtb_ltb in G2. apply Z.ltb_ge in G2.
  destruct (calculatePrice env this currentSupply coinData tradingVolume24h
              lastTradeTime) as [p0|]; [|discriminate].
  cbn [bind].
  destruct (calculatePrice (afterRead lastTradeTime env) this
              (resultingSupply currentSupply tradeAmount isBuy)
              coinData tradingVolume24h lastTradeTime) as [p1|]; [|discriminate].
  cbn [bind]. cbv zeta.
  destruct (JS.gt _ _) eqn:S; [discriminate|].
  destruct (JS.BigInt_floor _) as [bp|] eqn:B; [|discriminate].
  cbn [bind]. intros E. injection E as <-.
  exists p0, p1, bp.
  cbn [inputAmount outputAmount priceImpact fee minimumReceived deadline].
  rewrite !Math_random_afterRead.
  repeat split; try reflexivity; try assumption.
Qed.

(** X3.  [calculateTradePrice] throws 'Invalid trade amount' exactly when the
    resulting supply is negative or above the cap. *)
Theorem invalid_trade_amount_iff (currentSupply tradeAmount : Z) (isBuy : bool) :
  calculateTradePrice env this currentSupply tradeAmount isBuy
    coinData tradingVolume24h lastTradeTime = Err InvalidTradeAmount
  <-> resultingSupply currentSupply tradeAmount isBuy < 0
      \/ totalSupply this < resultingSupply currentSupply tradeAmount isBuy.
Proof.
  unfold calculateTradePrice.
  fold (resultingSupply currentSupply tradeAmount isBuy).
  destruct (_ || _) eqn:G.
  - apply orb_true_iff in G. rewrite Z.gtb_ltb in G. rewrite !Z.ltb_lt in G.
    split; [intros _; exact G | reflexivity].
  - apply orb_false_iff in G. destruct G as [G1 G2].
    apply Z.ltb_ge in G1. rewrite Z.gtb_ltb in G2. apply Z.ltb_ge in G2.
    split; [|lia]. intros E. exfalso. revert E.
    destruct (calculatePrice env this currentSupply coinData tradingVolume24h
                lastTradeTime) as [p0|e0] eqn:E0.
    + cbn [bind].
      destruct (calculatePrice (afterRead lastTradeTime env) this
                  (resultingSupply currentSupply tradeAmount isBuy)
                  coinData tradingVolume24h lastTradeTime) as [p1|e1] eqn:E1.
      * cbn [bind]. destruct (JS.gt _ _); [discriminate|].
        unfold JS.BigInt_floor. destruct (JS.floorZ _); discriminate.
      * cbn [bind]. destruct (calculatePrice_errors _ _ _ E1) as [[-> _]|[-> _]]; discriminate.
    + cbn [bind]. destruct (calculatePrice_errors _ _ _ E0) as [[-> _]|[-> _]]; discriminate.
Qed.

(** X4.  The amount check lets through a resulting supply equal to the cap, but the
    curve has no price there: a trade within the bounds is refused with
    'Supply cannot exceed total supply' exactly when the current supply is
    at or above the cap, or the current supply is priced and the trade
    brings the supply to the cap. *)
Theorem trade_reaching_the_cap (currentSupply tradeAmount : Z) (isBuy : bool) :
  0 <= resultingSupply currentSupply tradeAmount isBuy <= totalSupply this ->
  calculateTradePrice env this currentSupply tradeAmount isBuy
    coinData tradingVolume24h lastTradeTime = Err SupplyExceedsTotal
  <-> totalSupply this <= currentSupply
      \/ (resultingSupply currentSupply tradeAmount isBuy = totalSupply this
          /\ exists currentPrice,
               calculatePrice env this currentSupply coinData tradingVolume24h
                 lastTradeTime = Ok currentPrice).
Proof.
  intros Hb. unfold calculateTradePrice.
  fold (resultingSupply currentSupply tradeAmount isBuy).
  assert (G : ((resultingSupply currentSupply tradeAmount isBuy <? 0)
               || (resultingSupply currentSupply tradeAmount isBuy >? totalSupply this))
              = false).
  { apply orb_false_iff. split; [apply Z.ltb_ge; lia|].
    rewrite Z.gtb_ltb. apply Z.ltb_ge; lia. }
  rewrite G.
  destruct (calculatePrice env this currentSupply coinData tradingVolume24h
              lastTradeTime) as [p0|e0] eqn:E0.
  - pose proof (calculatePrice_ok_below_cap _ _ _ E0) as L0. cbn [bind].
    destruct (calculatePrice (afterRead lastTradeTime env) this
                (resultingSupply currentSupply tradeAmount isBuy)
                coinData tradingVolume24h lastTradeTime) as [p1|e1] eqn:E1.
    + pose proof (calculatePrice_ok_below_cap _ _ _ E1) as L1. cbn [bind].
      split.
      * destruct (JS.gt _ _); [discriminate|].
        unfold JS.BigInt_floor. destruct (JS.floorZ _); discriminate.
      * intros [H|[H _]]; lia.
    + cbn [bind]. destruct (calculatePrice_errors _ _ _ E1) as [[-> H]|[-> H]].
      * split; [intros _|reflexivity]. right. split; [lia|]. exists p0. reflexivity.
      * split; [discriminate|]. intros [H'|[H' _]]; lia.
  - cbn [bind]. destruct (calculatePrice_errors _ _ _ E0) as [[-> H]|[-> H]].
    + split; [intros _; left; exact H | reflexivity].
    + split; [discriminate|]. intros [H'|[_ [p H']]]; [lia|discriminate].
Qed.


End QuoteErrors.

(** ** Quotes: the price impact *)

Section QuoteImpact.

Import BondingCurve Rounding.
Local Open Scope float_scope.

Variable env : Env.
Variable this : Calculator.
Variable coinData : option CreatorCoin.
Variable tradingVolume24h : option Z.
Variable lastTradeTime : option float.

Hypothesis baseK_sign : (0 <=? baseK this) = true.
Hypothesis creatorMultiplier_sign : (0 <=? creatorMultiplier this) = true.
Hypothesis volumeMultiplier_sign : (0 <=? volumeMultiplier this) = true.

(** Under non-negative parameters the price does not decrease with the
    supply. *)
Lemma calculatePrice_le (s1 s2 p1 p2 : Z) :
  (0 <= s1 <= s2)%Z ->
  calculatePrice env this s1 coinData tradingVolume24h lastTradeTime = Ok p1 ->
  calculatePrice env this s2 coinData tradingVolume24h lastTradeTime = Ok p2 ->
  (0 <= p1 <= p2)%Z.
Proof.
  intros Hs E1 E2.
  pose proof (calculatePrice_ok_below_cap _ _ _ _ _ _ _ E2) as HT.
  rewrite calculatePrice_below_cap in E1 by lia.
  rewrite calculatePrice_below_cap in E2 by lia.
  apply BigInt_floor_ok in E1. apply BigInt_floor_ok in E2.
  apply (scaledPrice_mono this
           (calculateDynamicK env this coinData tradingVolume24h lastTradeTime)
           (dynamicK_sign env this coinData tradingVolume24h lastTradeTime baseK_sign)
           (nonneg_fnfn _ creatorMultiplier_sign) (nonneg_fnfn _ volumeMultiplier_sign)
           s1 s2 p1 p2 Hs HT E1 E2).
Qed.

(** X6.  On a curve whose [baseK], [creatorMultiplier] and
    [volumeMultiplier] are not negative, for a current supply and a trade
    amount that are not negative, and when the clock reads the same in the
    two calls of [calculatePrice] (as it does without a last-trade time,
    where it is not read), the price impact of a returned quote is never
    negative: it is [NaN] (when the current price is 0), or at least 0.
    When the clock moves on between the two calls, the time decay can make
    the impact of a buy negative ([impact_when_the_clock_moves], below). *)
Theorem quote_price_impact_not_negative
    (currentSupply tradeAmount : Z) (isBuy : bool) (q : TradeQuote) :
  (0 <= currentSupply)%Z -> (0 <= tradeAmount)%Z ->
  Date_now (afterRead lastTradeTime env) = Date_now env ->
  calculateTradePrice env this currentSupply tradeAmount isBuy
    coinData tradingVolume24h lastTradeTime = Ok q ->
  (priceImpact q <? 0) = false
  /\ (is_nan (priceImpact q) = false -> (0 <=? priceImpact q) = true).
Proof.
  intros Hs Ht Hclock H.
  destruct (calculateTradePrice_inv _ _ _ _ _ _ _ _ _ H)
    as (p0 & p1 & bp & Hb & E0 & E1 & _ & _ & _ & _ & Hi & _).
  rewrite (calculatePrice_env env (afterRead lastTradeTime env)) in E1
    by (exact Hclock || apply Math_pow_afterRead).
  assert (Hn : nnn (Prim2SF (priceImpact q))).
  { rewrite Hi. unfold tradePriceImpact. unfold resultingSupply in *.
    destruct isBuy.
    - pose proof (calculatePrice_le currentSupply (currentSupply + tradeAmount)
                    p0 p1 ltac:(lia) E0 E1).
      apply div_pns; apply Number_pns; lia.
    - pose proof (calculatePrice_le (currentSupply - tradeAmount) currentSupply
                    p1 p0 ltac:(lia) E1 E0).
      apply div_pns; apply Number_pns; lia. }
  split; [apply nnn_not_negative; exact Hn|].
  intros N. apply not_ltb_leb; [exact N | reflexivity | apply nnn_not_negative; exact Hn].
Qed.

End QuoteImpact.

Section QuoteImpactCap.

Import BondingCurve.
Local Open Scope float_scope.

(** With a configured [maxSlippage] that is a number, the adjusted max
    slippage is a number and at most 0.1. *)
Lemma adjustedMaxSlippage_cap (this : Calculator)
    (coinData : option CreatorCoin) (tradingVolume24h : option Z) :
  is_nan (maxSlippage this) = false ->
  (calculateAdjustedMaxSlippage this coinData tradingVolume24h <=? 0.1) = true.
Proof.
  intros N. unfold calculateAdjustedMaxSlippage. cbv zeta.
  apply Math_min_le_r. apply Math_min_not_nan; [|reflexivity].
  assert (N1 : is_nan
                 (match JS.truthy tradingVolume24h with
                  | Some v => if JS.gt (toETH v) 100 then maxSlippage this * 0.8
                              else maxSlippage this
                  | None => maxSlippage this
                  end) = false).
  { destruct (JS.truthy tradingVolume24h) as [v|]; [|exact N].
    destruct (JS.gt (toETH v) 100); [|exact N].
    eapply mul_finite_not_nan; [vm_compute; reflexivity | exact N]. }
  destruct coinData as [coin|]; [|exact N1].
  destruct (JS.lt (toETH (marketCap coin)) 10); [|exact N1].
  eapply mul_finite_not_nan; [vm_compute; reflexivity | exact N1].
Qed.

(** X7.  Whatever slippage is configured (as long as it is a number), no quote
    is returned with a price impact above 10%. *)
Theorem quote_price_impact_capped
    (env : Env) (this : Calculator) (currentSupply tradeAmount : Z) (isBuy : bool)
    (coinData : option CreatorCoin) (tradingVolume24h : option Z)
    (lastTradeTime : option float) (q : TradeQuote) :
  is_nan (maxSlippage this) = false ->
  calculateTradePrice env this currentSupply tradeAmount isBuy
    coinData tradingVolume24h lastTradeTime = Ok q ->
  JS.gt (priceImpact q) 0.1 = false.
Proof.
  intros N H.
  destruct (calculateTradePrice_inv _ _ _ _ _ _ _ _ _ H)
    as (p0 & p1 & bp & _ & _ & _ & G & _ & _ & _ & Hi & _).
  rewrite Hi.
  exact (not_gt_above _ _ _ G (adjustedMaxSlippage_cap this coinData tradingVolume24h N)).
Qed.

End QuoteImpactCap.

(** ** Quotes: the deadline *)

Section QuoteDeadline.

Import BondingCurve Rounding.
Local Open Scope float_scope.

(** [Math.floor(Math.random() * 300)] is at most 299, for a draw in
    [0, 1). *)
Lemma randomDelay_bounds (random : float) :
  (0 <=? random) = true -> (random <? 1) = true ->
  fnns (JS.Math_floor (random * 300))
  /\ (JS.Math_floor (random * 300) <=? 299) = true.
Proof.
  intros H0 H1.
  pose proof (nonneg_fnns _ H0) as Nr.
  assert (F1 : fnn 1) by const.
  pose proof (ltb_fnn random 1 Nr F1 H1) as Fr.
  apply (ltb_fval random 1 Fr F1) in H1.
  assert (V1 : fval 1 = 1%R).
  { unfold fval. change (Prim2SF 1) with (S754_finite false 4503599627370496 (-52)).
    cbn [SF2R cond_Zopp]. unfold F2R.
    change 4503599627370496%Z with (2 ^ 52)%Z.
    rewrite <- bpow_IZR, <- bpow_add by lia. apply bpow_0. }
  rewrite V1 in H1.
  pose proof (below_one random Fr H1) as Hr.
  assert (F300 : fnn 300) by const.
  assert (Fc : fnn 0.99999999999999989) by const.
  assert (Fm : fnn (0.99999999999999989 * 300)) by const.
  destruct (mul_mono_l random 0.99999999999999989 300 Fr Fc F300 Hr Fm) as [Fx Hx].
  assert (Nf : fnns (JS.Math_floor (random * 300)))
    by (apply Math_floor_fnns, fnn_fnns, Fx).
  split; [exact Nf|].
  destruct (JS.floorZ (random * 300)) as [z|] eqn:Ez.
  2:{ exfalso. revert Ez Fx. unfold JS.floorZ, fnn.
      generalize (Prim2SF (random * 300)). intros f.
      destruct f; cbn; intros E F; try contradiction; discriminate. }
  assert (E299 : JS.floorZ (0.99999999999999989 * 300) = Some 299%Z)
    by (vm_compute; reflexivity).
  pose proof (floorZ_mono _ _ _ _ Fx Fm Hx Ez E299) as Hz.
  pose proof (floorZ_nonneg _ _ Fx Ez) as Hz0.
  assert (Hlt : (random * 300 <? 4503599627370496) = true).
  { apply ltb_fval; [exact Fx | const|].
    assert (Hc : (fval (0.99999999999999989 * 300) < fval 4503599627370496)%R).
    { apply ltb_fval; [exact Fm | const | vm_compute; reflexivity]. }
    lra. }
  pose proof (Math_floor_below _ _ Fx Hlt Ez) as Hle.
  assert (F299 : fnn (JS.Number 299)) by const.
  destruct (Number_mono z 299 ltac:(lia) F299) as [Fz Hzv].
  apply (leb_trans _ (JS.Number z) _ Nf (fnn_fnns _ Fz) (fnn_fnns _ F299) Hle).
  change 299 with (JS.Number 299). apply leb_fval; assumption.
Qed.

(** X8.  The deadline of a returned quote lies between 30 minutes and 30 minutes
    and 299 seconds after the clock's second, for a clock that is not
    negative and a random draw in [0, 1).  The clock is the one read for
    the deadline, after the readings of the two price computations. *)
Theorem quote_deadline_window
    (env : Env) (this : Calculator) (currentSupply tradeAmount : Z) (isBuy : bool)
    (coinData : option CreatorCoin) (tradingVolume24h : option Z)
    (lastTradeTime : option float) (q : TradeQuote) :
  let now := Date_now (afterRead lastTradeTime (afterRead lastTradeTime env)) in
  (0 <=? now) = true ->
  (0 <=? Math_random env) = true -> (Math_random env <? 1) = true ->
  calculateTradePrice env this currentSupply tradeAmount isBuy
    coinData tradingVolume24h lastTradeTime = Ok q ->
  let earliest := JS.Math_floor (now / 1000) + 1800 in
  (earliest <=? deadline q) = true /\ (deadline q <=? earliest + 299) = true.
Proof.
  intros now Hnow H0 H1 H. cbv zeta. subst now.
  destruct (calculateTradePrice_inv _ _ _ _ _ _ _ _ _ H)
    as (p0 & p1 & bp & _ & _ & _ & _ & _ & _ & _ & _ & _ & _ & ->).
  destruct (randomDelay_bounds _ H0 H1) as [Nd Hd].
  assert (Ne : fnns (JS.Math_floor
                       (Date_now (afterRead lastTradeTime (afterRead lastTradeTime env))
                        / 1000) + 1800)).
  { apply add_fnns; [|const].
    apply Math_floor_fnns, div_fnns; [reflexivity|]. apply nonneg_fnns, Hnow. }
  split.
  - apply add_ge_l; assumption.
  - assert (N299 : fnns 299) by const.
    apply (add_le_compat _ _ _ _ Ne Ne Nd N299); [|exact Hd].
    apply leb_refl, fnns_not_nan, Ne.
Qed.

End QuoteDeadline.

(** ** Conversions between coins and ETH *)

Section Conversions.

Import BondingCurve.

Variable env : Env.
Variable this : Calculator.
Variable coinData : option CreatorCoin.
Variable tradingVolume24h : option Z.
Variable lastTradeTime : option float.


End Conversions.

Section CoinsForEth.

Import BondingCurve.


End CoinsForEth.

(** ** Optimal trade size: what a returned size is *)

Section OptimalTradeSizeResult.

Import BondingCurve.

Variable env : Env.
Variable this : Calculator.
Variable coinData : option CreatorCoin.
Variable tradingVolume24h : option Z.
Variable lastTradeTime : option float.

Hypothesis baseK_sign : (0 <=? baseK this)%float = true.
Hypothesis creatorMultiplier_sign : (0 <=? creatorMultiplier this)%float = true.
Hypothesis volumeMultiplier_sign : (0 <=? volumeMultiplier this)%float = true.

Variable supply maxPrice : Z.
Hypothesis supply_nonneg : 0 <= supply.

(** The clock is not read, or stands still during the search. *)
Hypothesis clock_steady : lastTradeTime = None \/ steady env.

(** Every probe of the search then prices as the first call does. *)
Lemma later_price (n : nat) (s : Z) :
  calculatePrice (Nat.iter n (afterRead lastTradeTime) env) this s
    coinData tradingVolume24h lastTradeTime
  = calculatePrice env this s coinData tradingVolume24h lastTradeTime.
Proof.
  destruct lastTradeTime as [t|].
  - destruct clock_steady as [H|H]; [discriminate|].
    assert (C : forall m, clock (Nat.iter n (afterRead (Some t)) env) m
                          = clock env (n + m)%nat).
    { induction n as [|k IH]; intros m; [reflexivity|].
      change (clock (Nat.iter k (afterRead (Some t)) env) (S m)
              = clock env (S k + m)%nat).
      rewrite IH. f_equal. lia. }
    assert (P : Math_pow (Nat.iter n (afterRead (Some t)) env) = Math_pow env).
    { clear C. induction n as [|k IH]; [reflexivity|].
      change (Math_pow (afterRead (Some t) (Nat.iter k (afterRead (Some t)) env))
              = Math_pow env).
      rewrite Math_pow_afterRead. exact IH. }
    apply calculatePrice_env; [|exact P].
    unfold Date_now. rewrite C. apply H.
  - assert (E : Nat.iter n (afterRead None) env = env)
      by (induction n as [|k IH]; [reflexivity | exact IH]).
    rewrite E. reflexivity.
Qed.

(** The price after a trade of [size] is within [maxPrice]. *)
Definition withinMaxPrice (size : Z) : Prop :=
  exists newPrice,
    calculatePrice env this (supply + size) coinData tradingVolume24h lastTradeTime
    = Ok newPrice
    /\ newPrice <= maxPrice.

(** The price after a trade of [size], if there is one, is above
    [maxPrice]. *)
Definition aboveMaxPrice (size : Z) : Prop :=
  forall newPrice,
    calculatePrice env this (supply + size) coinData tradingVolume24h lastTradeTime
    = Ok newPrice ->
    maxPrice < newPrice.

(** The invariant of the loop: [optimalSize] is [low - 1], the last size
    validated, or both are still 0; no size above [high] is within the
    bound. *)
Lemma searchLoop_largest (fuel : nat) :
  forall n low high optimalSize size,
    0 <= low -> low - 1 <= optimalSize <= low ->
    (forall t, high < t -> aboveMaxPrice t) ->
    searchLoop (Nat.iter n (afterRead lastTradeTime) env) this
      coinData tradingVolume24h lastTradeTime supply maxPrice
      fuel low high optimalSize = Some (Ok size) ->
    optimalSize <= size
    /\ (size = optimalSize \/ withinMaxPrice size)
    /\ (forall t, size < t -> aboveMaxPrice t).
Proof.
  induction fuel as [|fuel IH]; intros n low high opt size Hlow Hopt Hhigh;
    cbn [searchLoop]; [discriminate|].
  destruct (low <=? high) eqn:E.
  - apply Z.leb_le in E.
    assert (Hmid : Z.quot (low + high) 2 = (low + high) / 2)
      by (apply Z.quot_div_nonneg; lia).
    rewrite Hmid. set (mid := (low + high) / 2).
    assert (Hm : low <= mid <= high).
    { unfold mid. split.
      - apply Z.div_le_lower_bound; lia.
      - apply Z.div_le_upper_bound; lia. }
    rewrite later_price.
    destruct (calculatePrice env this (supply + mid) coinData tradingVolume24h
                lastTradeTime) as [newPrice|e] eqn:P; [|discriminate].
    cbv zeta.
    change (afterRead lastTradeTime (Nat.iter n (afterRead lastTradeTime) env))
      with (Nat.iter (S n) (afterRead lastTradeTime) env).
    destruct (newPrice <=? maxPrice) eqn:L.
    + apply Z.leb_le in L. intros R.
      destruct (IH (S n) (mid + 1) high mid size ltac:(lia) ltac:(lia) Hhigh R)
        as (H1 & H2 & H3).
      split; [lia|]. split; [|exact H3].
      right. destruct H2 as [->|H2]; [|exact H2].
      exists newPrice. split; assumption.
    + apply Z.leb_gt in L. intros R.
      apply (IH (S n) low (mid - 1) opt size Hlow Hopt); [|exact R].
      intros t Ht q Q.
      destruct (calculatePrice_le env this coinData tradingVolume24h lastTradeTime
                  baseK_sign creatorMultiplier_sign volumeMultiplier_sign
                  (supply + mid) (supply + t) newPrice q ltac:(lia) P Q).
      lia.
  - apply Z.leb_gt in E. intros R. injection R as <-.
    split; [lia|]. split; [left; reflexivity|].
    intros t Ht. apply Hhigh. lia.
Qed.

End OptimalTradeSizeResult.

Section OptimalTradeSizeLargest.

Import BondingCurve.

(** X11.  On a curve whose [baseK], [creatorMultiplier] and
    [volumeMultiplier] are not negative, for a supply that is not negative,
    and when the clock is not read (no last-trade time) or stands still
    during the search: a size returned by [calculateOptimalTradeSize] is
    not negative and is the largest one that keeps the price within
    [maxPrice = currentPrice * floor((1 + maxPriceImpact) * 1e18) / 1e18].
    Every larger size that has a price has one above [maxPrice], and the
    size itself has a price within [maxPrice] whenever it is positive or
    the current price is within [maxPrice].  (With a last-trade time and a
    clock that moves on, each probe of the search has a time decay of
    its own, and the probes need not be ordered.) *)
Theorem optimalTradeSize_is_largest
    (env : Env) (this : Calculator) (supply : Z) (maxPriceImpact : float)
    (coinData : option CreatorCoin) (tradingVolume24h : option Z)
    (lastTradeTime : option float) (size : Z) :
  (0 <=? baseK this)%float = true ->
  (0 <=? creatorMultiplier this)%float = true ->
  (0 <=? volumeMultiplier this)%float = true ->
  0 <= supply ->
  lastTradeTime = None \/ steady env ->
  calculateOptimalTradeSize env this supply maxPriceImpact
    coinData tradingVolume24h lastTradeTime = Some (Ok size) ->
  exists currentPrice factor,
    calculatePrice env this supply coinData tradingVolume24h lastTradeTime
    = Ok currentPrice
    /\ JS.BigInt_floor ((1 + maxPriceImpact) * 1e18)%float = Ok factor
    /\ let maxPrice := Z.quot (currentPrice * factor) (10 ^ 18) in
       0 <= size
       /\ (currentPrice <= maxPrice \/ 0 < size ->
           withinMaxPrice env this coinData tradingVolume24h lastTradeTime
             supply maxPrice size)
       /\ (forall t, size < t ->
           aboveMaxPrice env this coinData tradingVolume24h lastTradeTime
             supply maxPrice t).
Proof.
  intros HK Hcm Hvm Hs Hclock. unfold calculateOptimalTradeSize.
  destruct (calculatePrice env this supply coinData tradingVolume24h lastTradeTime)
    as [p|] eqn:P; [|discriminate].
  cbv zeta.
  destruct (JS.BigInt_floor _) as [f|] eqn:F; [|discriminate].
  intros R. exists p, f. split; [reflexivity|]. split; [reflexivity|].
  set (maxPrice := Z.quot (p * f) (10 ^ 18)) in *.
  destruct (searchLoop_largest env this coinData tradingVolume24h lastTradeTime
              HK Hcm Hvm supply maxPrice Hs Hclock
              (searchFuel (totalSupply this - supply))
              1%nat 0 (totalSupply this - supply) 0 size
              ltac:(lia) ltac:(lia)) as (H1 & H2 & H3); [|exact R|].
  - intros t Ht q Q. exfalso.
    rewrite calculatePrice_at_or_above_cap in Q by lia. discriminate.
  - split; [exact H1|]. split; [|exact H3].
    intros Hc. destruct H2 as [->|H2]; [|exact H2].
    destruct Hc as [Hc|Hc]; [|lia].
    exists p. rewrite Z.add_0_r. split; assumption.
Qed.

Lemma optimalTradeSize_is_largest_witness :
  exists currentPrice factor,
    calculatePrice env0 defaultBondingCurve 500000000 None None (Some halfAnHourAgo)
    = Ok currentPrice
    /\ JS.BigInt_floor ((1 + 0.01) * 1e18)%float = Ok factor
    /\ let maxPrice := Z.quot (currentPrice * factor) (10 ^ 18) in
       0 <= 1659300
       /\ (currentPrice <= maxPrice \/ 0 < 1659300 ->
           withinMaxPrice env0 defaultBondingCurve None None (Some halfAnHourAgo)
             500000000 maxPrice 1659300)
       /\ (forall t, 1659300 < t ->
           aboveMaxPrice env0 defaultBondingCurve None None (Some halfAnHourAgo)
             500000000 maxPrice t).
Proof.
  apply (optimalTradeSize_is_largest env0 defaultBondingCurve 500000000 0.01
           None None (Some halfAnHourAgo) 1659300).
  - reflexivity.
  - reflexivity.
  - reflexivity.
  - lia.
  - right. intros n. reflexivity.
  - vm_compute. reflexivity.
Defined.

End OptimalTradeSizeLargest.

(** ** Market cap and price change *)

Section CurveReports.

Import BondingCurve Rounding.

Variable env : Env.
Variable this : Calculator.

(** X12.  Under non-negative parameters the market cap is not negative and does
    not decrease with the supply. *)
Theorem marketCap_monotone
    (coinData : option CreatorCoin) (tradingVolume24h : option Z)
    (lastTradeTime : option float) (s1 s2 c1 c2 : Z) :
  (0 <=? baseK this)%float = true ->
  (0 <=? creatorMultiplier this)%float = true ->
  (0 <=? volumeMultiplier this)%float = true ->
  0 <= s1 <= s2 ->
  calculateMarketCap env this s1 coinData tradingVolume24h lastTradeTime = Ok c1 ->
  calculateMarketCap env this s2 coinData tradingVolume24h lastTradeTime = Ok c2 ->
  0 <= c1 <= c2.
Proof.
  intros HK Hcm Hvm Hs. unfold calculateMarketCap.
  destruct (calculatePrice env this s1 coinData tradingVolume24h lastTradeTime)
    as [p1|] eqn:E1; [|discriminate].
  destruct (calculatePrice env this s2 coinData tradingVolume24h lastTradeTime)
    as [p2|] eqn:E2; [|discriminate].
  cbn [bind]. intros H1 H2. injection H1 as <-. injection H2 as <-.
  pose proof (calculatePrice_le env this coinData tradingVolume24h lastTradeTime
                HK Hcm Hvm s1 s2 p1 p2 Hs E1 E2) as Hp.
  split.
  - apply Z.quot_pos; [nia|lia].
  - apply Z.quot_le_mono; [lia|nia].
Qed.

Local Open Scope float_scope.

Lemma div_by_zero (x : float) :
  (x / 0 = nan \/ x / 0 = infinity \/ x / 0 = neg_infinity)%float.
Proof.
  assert (H : Prim2SF (x / 0) = S754_nan \/ Prim2SF (x / 0) = S754_infinity false
              \/ Prim2SF (x / 0) = S754_infinity true).
  { rewrite div_spec. unfold SF64div. change (Prim2SF 0) with (S754_zero false).
    destruct (Prim2SF x) as [s|s| |s m e]; cbn; try destruct s; tauto. }
  destruct H as [H|[H|H]]; [left|right; left|right; right];
    apply Prim2SF_inj; rewrite H; reflexivity.
Qed.

(** X13.  The price change from an empty supply is never a finite number: the
    previous price is 0, so the quotient is [NaN] or infinite. *)
Theorem priceChange_from_empty_supply
    (currentSupply : Z) (currentCoinData previousCoinData : option CreatorCoin)
    (currentVolume previousVolume : option Z) (change : float) :
  calculatePriceChange env this currentSupply 0 currentCoinData previousCoinData
    currentVolume previousVolume = Ok change ->
  change = nan \/ change = infinity \/ change = neg_infinity.
Proof.
  unfold calculatePriceChange.
  destruct (calculatePrice env this currentSupply currentCoinData currentVolume None)
    as [p|]; [|discriminate].
  cbn [bind].
  destruct (calculatePrice_empty_cases env this previousCoinData previousVolume None)
    as [H|[H|[_ H]]]; rewrite H; cbn [bind]; try discriminate.
  intros E. injection E as <-. change (JS.Number 0) with 0. apply div_by_zero.
Qed.

(** X14.  With the same coin data and volume on both sides and non-negative
    parameters, the price change from a smaller to a larger supply is not
    negative. *)
Theorem priceChange_not_negative
    (currentSupply previousSupply : Z) (coinData : option CreatorCoin)
    (volume : option Z) (change : float) :
  (0 <=? baseK this) = true ->
  (0 <=? creatorMultiplier this) = true ->
  (0 <=? volumeMultiplier this) = true ->
  (0 <= previousSupply <= currentSupply)%Z ->
  calculatePriceChange env this currentSupply previousSupply coinData coinData
    volume volume = Ok change ->
  (change <? 0) = false.
Proof.
  intros HK Hcm Hvm Hs. unfold calculatePriceChange.
  destruct (calculatePrice env this currentSupply coinData volume None)
    as [p1|] eqn:E1; [|discriminate].
  destruct (calculatePrice env this previousSupply coinData volume None)
    as [p0|] eqn:E0; [|discriminate].
  cbn [bind]. intros E. injection E as <-.
  pose proof (calculatePrice_le env this coinData volume None HK Hcm Hvm
                previousSupply currentSupply p0 p1 Hs E0 E1).
  apply nnn_not_negative. apply div_pns; apply Number_pns; lia.
Qed.

End CurveReports.

(** ** Quotes: buys at an empty supply *)

Section EmptySupplyQuote.

Import BondingCurve.
Local Open Scope float_scope.

(** At supply 0 the current price is 0, and the price impact of a buy is a
    quotient by 0: [NaN] or infinite.  With a configured [maxSlippage]
    that is a number, no buy at supply 0 is quoted with a price impact
    above 0, on any curve and for any amount: where the new price is
    positive the impact is [+Infinity], and the call throws. *)
Lemma buy_at_empty_supply
    (env : Env) (this : Calculator) (tradeAmount : Z)
    (coinData : option CreatorCoin) (tradingVolume24h : option Z)
    (lastTradeTime : option float) (q : TradeQuote) :
  is_nan (maxSlippage this) = false ->
  calculateTradePrice env this 0 tradeAmount true
    coinData tradingVolume24h lastTradeTime = Ok q ->
  (0 <? priceImpact q) = false.
Proof.
  intros N H.
  destruct (calculateTradePrice_inv _ _ _ _ _ _ _ _ _ H)
    as (p0 & p1 & bp & _ & E0 & _ & G & _ & _ & _ & Hi & _).
  assert (Hp : p0 = 0%Z).
  { destruct (calculatePrice_empty_cases env this coinData tradingVolume24h
                lastTradeTime) as [E|[E|[_ E]]]; rewrite E in E0; congruence. }
  subst p0. rewrite Hi. revert G. unfold tradePriceImpact.
  change (JS.Number 0) with 0.
  destruct (div_by_zero (JS.Number (p1 - 0))) as [->|[->| ->]];
    [reflexivity| |reflexivity].
  intros G. exfalso.
  pose proof (adjustedMaxSlippage_cap this coinData tradingVolume24h N) as C.
  assert (Hinf : (0.1 <? infinity) = true) by reflexivity.
  pose proof (leb_ltb_trans _ 0.1 infinity C Hinf) as L.
  unfold JS.gt in G. rewrite L in G. discriminate.
Qed.

End EmptySupplyQuote.

(** ** The default curve has a price everywhere below its cap *)

Section DefaultCurveTotal.

Import BondingCurve Rounding.
Local Open Scope float_scope.

(** The largest dynamic k of the default curve without time decay:
    0.0001 * 1.2 * 1.1. *)
Definition largestDefaultK : float := 0.0001 * 1.2 * 1.1.

Lemma defaultK_bounds (env : Env) (coinData : option CreatorCoin)
    (tradingVolume24h : option Z) :
  let k := calculateDynamicK env defaultBondingCurve coinData tradingVolume24h None in
  fnn k /\ (fval k <= fval largestDefaultK)%R.
Proof.
  assert (Fmax : fnn largestDefaultK) by const.
  assert (H : let k := calculateDynamicK env defaultBondingCurve coinData
                         tradingVolume24h None in
              fnn k /\ (k <=? largestDefaultK) = true).
  { unfold calculateDynamicK. cbn [baseK defaultBondingCurve]. cbv zeta.
    destruct (JS.truthy tradingVolume24h) as [v|];
      [destruct (JS.gt (toETH v) 100); [|destruct (JS.lt (toETH v) 1)]|];
      (destruct coinData as [coin|];
       [destruct (JS.gt (toETH (marketCap coin)) 1000)|]);
      split; const. }
  cbv zeta in *. destruct H as [Fk Hk]. split; [exact Fk|].
  apply (leb_fval _ _ Fk Fmax). exact Hk.
Qed.

(** The scaled price of the default curve is finite for every supply from
    0 to one below the cap. *)
Lemma default_scaledPrice_finite (k : float) (supply : Z) :
  fnn k -> (fval k <= fval largestDefaultK)%R ->
  (0 <= supply < 1000000000)%Z ->
  fnn (volumePrice defaultBondingCurve supply k * 1e18).
Proof.
  intros Fk Hk Hs. unfold volumePrice.
  cbn [totalSupply creatorMultiplier volumeMultiplier defaultBondingCurve]. cbv zeta.
  set (S := JS.Number supply).
  set (Smax := JS.Number 999999999).
  set (T := JS.Number 1000000000).
  assert (FSmax : fnn Smax) by const.
  assert (FT : fnn T) by const.
  destruct (Number_mono supply 999999999 ltac:(lia) FSmax) as [FS HS].
  fold S Smax in FS, HS.
  assert (HST : (fval Smax <= fval T)%R) by (apply leb_fval; const).
  (* the square *)
  destruct (mul_mono_r Smax S Smax FS FSmax FSmax HS ltac:(const)) as [F1 H1].
  destruct (mul_mono_l S Smax S FS FSmax FS HS F1) as [F2 H2].
  (* times k *)
  assert (F3 : fnn (Smax * Smax)) by const.
  destruct (mul_mono_l k largestDefaultK (Smax * Smax) Fk ltac:(const) F3 Hk ltac:(const))
    as [F4 H4].
  destruct (mul_mono_r k (S * S) (Smax * Smax) F2 F3 Fk ltac:(lra) F4) as [F5 H5].
  (* the denominator *)
  destruct (sub_nnf T S FT FS ltac:(lra)) as [Fd _].
  pose proof (sub_anti T S Smax FT FS FSmax HS HST) as Hd.
  assert (Ed : T - Smax = 1) by const.
  rewrite Ed in Hd. rewrite fval_1 in Hd.
  assert (P1 : (0 < fval 1)%R) by (rewrite fval_1; lra).
  assert (F1' : fnn 1) by const.
  (* the quotient *)
  set (nmax := largestDefaultK * (Smax * Smax)) in *.
  assert (Fnmax : fnn nmax) by const.
  destruct (div_mono_num (k * (S * S)) nmax 1 F5 Fnmax F1' P1 ltac:(lra) ltac:(const))
    as [F6 H6].
  destruct (div_mono_den (k * (S * S)) (T - S) 1 F5 Fd F1' P1
              ltac:(rewrite fval_1; exact Hd) F6) as [F7 H7].
  (* the multipliers and the scale *)
  destruct (mul_mono_l (k * (S * S) / (T - S)) (nmax / 1) 1 F7 ltac:(const) F1'
              ltac:(lra) ltac:(const)) as [F8 H8].
  destruct (mul_mono_l (k * (S * S) / (T - S) * 1) (nmax / 1 * 1) 1 F8 ltac:(const) F1'
              H8 ltac:(const)) as [F9 H9].
  destruct (mul_mono_l (k * (S * S) / (T - S) * 1 * 1) (nmax / 1 * 1 * 1) 1e18
              F9 ltac:(const) ltac:(const) H9 ltac:(const)) as [F10 _].
  exact F10.
Qed.

Lemma default_curve_priced
    (env : Env) (supply : Z) (coinData : option CreatorCoin)
    (tradingVolume24h : option Z) :
  (0 <= supply < 1000000000)%Z ->
  exists price,
    calculatePrice env defaultBondingCurve supply coinData tradingVolume24h None
    = Ok price
    /\ (0 <= price)%Z.
Proof.
  intros Hs.
  rewrite calculatePrice_below_cap by (cbn; lia).
  destruct (defaultK_bounds env coinData tradingVolume24h) as [Fk Hk].
  pose proof (default_scaledPrice_finite _ supply Fk Hk Hs) as F.
  destruct (JS.floorZ (volumePrice defaultBondingCurve supply
                         (calculateDynamicK env defaultBondingCurve coinData
                            tradingVolume24h None) * 1e18)) as [z|] eqn:E.
  - exists z. split; [apply BigInt_floor_ok; exact E|].
    exact (floorZ_nonneg _ _ F E).
  - exfalso. revert E F. unfold JS.floorZ, fnn.
    generalize (Prim2SF (volumePrice defaultBondingCurve supply
                           (calculateDynamicK env defaultBondingCurve coinData
                              tradingVolume24h None) * 1e18)).
    intros f. destruct f; cbn; intros E F; try contradiction; discriminate.
Qed.

(** X15.  On the default curve, without a last-trade time, [calculatePrice]
    returns a price that is not negative for every supply from 0 to one
    below the cap, whatever the coin data and the 24h volume are; at the
    cap and above it throws. *)
Theorem default_curve_price_total
    (env : Env) (supply : Z) (coinData : option CreatorCoin)
    (tradingVolume24h : option Z) :
  (0 <= supply)%Z ->
  (supply < 1000000000)%Z
  <-> exists price,
        calculatePrice env defaultBondingCurve supply coinData tradingVolume24h None
        = Ok price
        /\ (0 <= price)%Z.
Proof.
  intros Hs. split.
  - intros Hlt. apply default_curve_priced. lia.
  - intros (price & E & _).
    exact (calculatePrice_ok_below_cap _ _ _ _ _ _ _ E).
Qed.

End DefaultCurveTotal.

(** ** The liquidity score *)

Section CalculatorLiquidity.

Local Open Scope float_scope.

(** X16.  The calculator's liquidity score is a number between 0 and 100 for
    every unsigned volume and market cap, whatever the clock, the
    last-trade time and the price change are (even [NaN]). *)
Theorem calculator_liquidityScore_bounds
    (env : Env) (coinData : option CreatorCoin) (tradingVolume24h : option Z)
    (lastTradeTime : option float) :
  (forall v, tradingVolume24h = Some v -> (0 <= v)%Z) ->
  (forall coin, coinData = Some coin -> (0 <= marketCap coin)%Z) ->
  let score :=
    BondingCurve.calculateLiquidityScore env coinData tradingVolume24h lastTradeTime in
  (0 <=? score) = true /\ (score <=? 100) = true.
Proof.
  intros Hv Hc. unfold BondingCurve.calculateLiquidityScore. cbv zeta.
  apply clamped_score; [|const].
  assert (S1 : fnns
                 match JS.truthy tradingVolume24h with
                 | Some v => 0 + JS.Math_min (BondingCurve.toETH v / 10) 40
                 | None => 0
                 end).
  { destruct tradingVolume24h as [v|]; cbn [JS.truthy]; [|const].
    destruct (v =? 0)%Z; [const|].
    apply add_fnns; [const|]. apply Math_min_fnns; [|const].
    apply div_fnns; [reflexivity|]. apply toETH_fnns, Hv. reflexivity. }
  set (s1 := match JS.truthy tradingVolume24h with Some _ => _ | None => _ end) in *.
  assert (S2 : fnns
                 match coinData with
                 | Some coin => s1 + JS.Math_min (BondingCurve.toETH (marketCap coin) / 100) 30
                 | None => s1
                 end).
  { destruct coinData as [coin|]; [|exact S1].
    apply add_fnns; [exact S1|]. apply Math_min_fnns; [|const].
    apply div_fnns; [reflexivity|]. apply toETH_fnns, Hc. reflexivity. }
  set (s2 := match coinData with Some _ => _ | None => _ end) in *.
  assert (S3 : fnns
                 match lastTradeTime with
                 | Some t =>
                     if JS.lt (BondingCurve.hoursSince env t) 1 then s2 + 20
                     else if JS.lt (BondingCurve.hoursSince env t) 24 then s2 + 15
                     else if JS.lt (BondingCurve.hoursSince env t) 168 then s2 + 10
                     else s2 + 5
                 | None => s2
                 end).
  { destruct lastTradeTime as [t|]; [|exact S2].
    destruct (JS.lt _ 1); [|destruct (JS.lt _ 24); [|destruct (JS.lt _ 168)]];
      (apply add_fnns; [exact S2 | const]). }
  set (s3 := match lastTradeTime with Some _ => _ | None => _ end) in *.
  destruct coinData as [coin|]; [|exact S3].
  destruct (JS.lt _ 0.05); [|destruct (JS.lt _ 0.1); [|destruct (JS.lt _ 0.2)]];
    (apply add_fnns; [exact S3 | const]).
Qed.

End CalculatorLiquidity.

(** ** Trading recommendations *)

Section Recommendations.

Import BondingCurve.
Local Open Scope float_scope.

Variable env : Env.
Variable this : Calculator.
Variable coinData : option CreatorCoin.
Variable tradingVolume24h : option Z.
Variable lastTradeTime : option float.

Ltac recommendation_cases :=
  unfold getTradingRecommendations;
  generalize (calculateLiquidityScore env coinData tradingVolume24h lastTradeTime);
  intros liquidityScore; cbv zeta;
  destruct (JS.truthy tradingVolume24h) as [v|];
    [destruct (JS.gt (toETH v) 100); [|destruct (JS.lt (toETH v) 1)]|];
    (destruct coinData as [coin|];
     [destruct (JS.gt (priceChange24h coin) 0.1);
      [|destruct (JS.lt (priceChange24h coin) (-0.1))]|]);
    (destruct (JS.gt liquidityScore 70); [|destruct (JS.lt liquidityScore 30)]);
    (destruct lastTradeTime as [t|];
     [destruct (JS.gt (hoursSince (afterRead (Some t) env) t) 168)|]).

(** X17.  The confidence of a recommendation is a number between 0 and 1,
    whatever the inputs are. *)
Theorem recommendation_confidence_bounds :
  let r := getTradingRecommendations env coinData tradingVolume24h lastTradeTime in
  (0 <=? confidence r) = true /\ (confidence r <=? 1) = true.
Proof.
  recommendation_cases; cbn [confidence]; split; vm_compute; reflexivity.
Qed.

(** X18.  The recommendation is the one its reasons give: 'buy' exactly when a
    strong positive movement is among the reasons, 'sell' exactly when a
    negative movement is, and never both; at most four reasons are given,
    none of them twice. *)
Theorem recommendation_follows_reasoning :
  let r := getTradingRecommendations env coinData tradingVolume24h lastTradeTime in
  (recommendation r = buy <-> In StrongPositiveMovement (reasoning r))
  /\ (recommendation r = sell <-> In NegativeMovement (reasoning r))
  /\ (length (reasoning r) <= 4)%nat
  /\ NoDup (reasoning r).
Proof.
  recommendation_cases; cbn [recommendation reasoning app length In];
    (split; [split; intros H; first [discriminate H | choose_disjunct | exfalso]|]);
    try (split; [split; intros H; first [discriminate H | choose_disjunct | exfalso]|]);
    try (split; [lia|]);
    try solve [repeat constructor; cbn [In]; intuition discriminate];
    intuition discriminate.
Qed.

End Recommendations.

(** ** Recommendations: low volume and high liquidity *)

Section LowVolumeLiquidity.

Import BondingCurve Rounding.
Local Open Scope float_scope.

(** One more term of a score: with or without it the bound grows by the
    bound of the term. *)
Lemma score_step (score bound term limit : float) :
  fnns score -> fnns bound -> fnns term -> fnns limit ->
  (score <=? bound) = true -> (term <=? limit) = true ->
  (score + term <=? bound + limit) = true /\ (score <=? bound + limit) = true.
Proof.
  intros Ns Nb Nt Nl Hs Ht. split.
  - apply add_le_compat; assumption.
  - apply (leb_trans score bound (bound + limit)); try assumption.
    + apply add_fnns; assumption.
    + apply add_ge_l; assumption.
Qed.

Lemma leb_not_gt (x y : float) : (x <=? y) = true -> JS.gt x y = false.
Proof.
  unfold JS.gt. intros H. destruct (y <? x) eqn:L; [|reflexivity].
  pose proof (leb_ltb_trans _ _ _ H L) as C. rewrite ltb_irrefl in C. discriminate.
Qed.

Variable env : Env.
Variable coinData : option CreatorCoin.
Variable lastTradeTime : option float.
Variable volume : Z.

Hypothesis marketCap_unsigned :
  forall coin, coinData = Some coin -> (0 <= marketCap coin)%Z.
Hypothesis volume_positive : (0 < volume)%Z.
Hypothesis volume_low : JS.lt (toETH volume) 1 = true.

(** With less than one whole unit of 24h volume the liquidity score is at
    most 0.1 + 30 + 20 + 10. *)
Lemma liquidityScore_low_volume :
  JS.gt (calculateLiquidityScore env coinData (Some volume) lastTradeTime) 70 = false.
Proof.
  apply leb_not_gt.
  unfold calculateLiquidityScore. cbv zeta. cbn [JS.truthy].
  destruct (volume =? 0)%Z eqn:V0; [apply Z.eqb_eq in V0; lia|].
  set (b1 := 0 + 1 / 10). set (b2 := b1 + 30). set (b3 := b2 + 20). set (b4 := b3 + 10).
  assert (Nb1 : fnns b1) by const. assert (Nb2 : fnns b2) by const.
  assert (Nb3 : fnns b3) by const. assert (Nb4 : fnns b4) by const.
  (* volume *)
  assert (Nv : fnns (toETH volume)) by (apply toETH_fnns; lia).
  assert (F1 : fnn 1) by const.
  pose proof (ltb_fnn _ _ Nv F1 volume_low) as Fv.
  pose proof (proj1 (ltb_fval _ _ Fv F1) volume_low) as Hv.
  assert (F10 : fnn 10) by const.
  assert (P10 : (0 < fval 10)%R).
  { apply (ltb_fval 0 10); [exact I | exact F10 | const]. }
  destruct (div_mono_num (toETH volume) 1 10 Fv F1 F10 P10 ltac:(lra) ltac:(const))
    as [Fd Hd].
  assert (Nt1 : fnns (JS.Math_min (toETH volume / 10) 40)).
  { apply Math_min_fnns; [apply fnn_fnns; exact Fd | const]. }
  assert (H1 : (JS.Math_min (toETH volume / 10) 40 <=? 1 / 10) = true).
  { apply (leb_trans _ (toETH volume / 10) _ Nt1 (fnn_fnns _ Fd)); [const| |].
    - apply Math_min_le_l, fnns_not_nan, Nt1.
    - apply leb_fval; [exact Fd | const | exact Hd]. }
  assert (N0 : fnns 0) by const.
  assert (S1 : fnns (0 + JS.Math_min (toETH volume / 10) 40)
               /\ (0 + JS.Math_min (toETH volume / 10) 40 <=? b1) = true).
  { split; [apply add_fnns; assumption|].
    apply add_le_compat; try assumption; const. }
  set (s1 := 0 + JS.Math_min (toETH volume / 10) 40) in *.
  destruct S1 as [Ns1 Hs1].
  (* market cap *)
  assert (S2 : fnns match coinData with
                    | Some coin => s1 + JS.Math_min (toETH (marketCap coin) / 100) 30
                    | None => s1
                    end
               /\ (match coinData with
                   | Some coin => s1 + JS.Math_min (toETH (marketCap coin) / 100) 30
                   | None => s1
                   end <=? b2) = true).
  { assert (N30 : fnns 30) by const.
    destruct coinData as [coin|].
    - assert (Nm : fnns (JS.Math_min (toETH (marketCap coin) / 100) 30)).
      { apply Math_min_fnns; [|exact N30]. apply div_fnns; [reflexivity|].
        apply toETH_fnns, marketCap_unsigned. reflexivity. }
      split; [apply add_fnns; assumption|].
      apply (score_step s1 b1 _ 30); try assumption.
      apply Math_min_le_r, fnns_not_nan, Nm.
    - split; [exact Ns1|].
      apply (score_step s1 b1 30 30); try assumption. const. }
  set (s2 := match coinData with Some _ => _ | None => _ end) in *.
  destruct S2 as [Ns2 Hs2].
  (* activity *)
  assert (S3 : fnns match lastTradeTime with
                    | Some t =>
                        if JS.lt (hoursSince env t) 1 then s2 + 20
                        else if JS.lt (hoursSince env t) 24 then s2 + 15
                        else if JS.lt (hoursSince env t) 168 then s2 + 10
                        else s2 + 5
                    | None => s2
                    end
               /\ (match lastTradeTime with
                   | Some t =>
                       if JS.lt (hoursSince env t) 1 then s2 + 20
                       else if JS.lt (hoursSince env t) 24 then s2 + 15
                       else if JS.lt (hoursSince env t) 168 then s2 + 10
                       else s2 + 5
                   | None => s2
                   end <=? b3) = true).
  { assert (N20 : fnns 20) by const.
    destruct lastTradeTime as [t|];
      [destruct (JS.lt (hoursSince env t) 1);
       [|destruct (JS.lt (hoursSince env t) 24);
         [|destruct (JS.lt (hoursSince env t) 168)]]|].
    - split; [apply add_fnns; [exact Ns2 | const]|].
      apply (score_step s2 b2 20 20); try assumption; const.
    - split; [apply add_fnns; [exact Ns2 | const]|].
      apply (score_step s2 b2 15 20); try assumption; const.
    - split; [apply add_fnns; [exact Ns2 | const]|].
      apply (score_step s2 b2 10 20); try assumption; const.
    - split; [apply add_fnns; [exact Ns2 | const]|].
      apply (score_step s2 b2 5 20); try assumption; const.
    - split; [exact Ns2|].
      apply (score_step s2 b2 20 20); try assumption; const. }
  set (s3 := match lastTradeTime with Some _ => _ | None => _ end) in *.
  destruct S3 as [Ns3 Hs3].
  (* stability *)
  assert (S4 : fnns match coinData with
                    | Some coin =>
                        if JS.lt (JS.Math_abs (priceChange24h coin)) 0.05 then s3 + 10
                        else if JS.lt (JS.Math_abs (priceChange24h coin)) 0.1 then s3 + 7
                        else if JS.lt (JS.Math_abs (priceChange24h coin)) 0.2 then s3 + 4
                        else s3 + 1
                    | None => s3
                    end
               /\ (match coinData with
                   | Some coin =>
                       if JS.lt (JS.Math_abs (priceChange24h coin)) 0.05 then s3 + 10
                       else if JS.lt (JS.Math_abs (priceChange24h coin)) 0.1 then s3 + 7
                       else if JS.lt (JS.Math_abs (priceChange24h coin)) 0.2 then s3 + 4
                       else s3 + 1
                   | None => s3
                   end <=? b4) = true).
  { assert (N10 : fnns 10) by const.
    destruct coinData as [coin|];
      [destruct (JS.lt (JS.Math_abs (priceChange24h coin)) 0.05);
       [|destruct (JS.lt (JS.Math_abs (priceChange24h coin)) 0.1);
         [|destruct (JS.lt (JS.Math_abs (priceChange24h coin)) 0.2)]]|].
    - split; [apply add_fnns; [exact Ns3 | const]|].
      apply (score_step s3 b3 10 10); try assumption; const.
    - split; [apply add_fnns; [exact Ns3 | const]|].
      apply (score_step s3 b3 7 10); try assumption; const.
    - split; [apply add_fnns; [exact Ns3 | const]|].
      apply (score_step s3 b3 4 10); try assumption; const.
    - split; [apply add_fnns; [exact Ns3 | const]|].
      apply (score_step s3 b3 1 10); try assumption; const.
    - split; [exact Ns3|].
      apply (score_step s3 b3 10 10); try assumption; const. }
  destruct S4 as [Ns4 Hs4].
  assert (N100 : fnns 100) by const.
  pose proof (Math_min_fnns _ 100 Ns4 N100) as Nm.
  apply (leb_trans _ _ _ Nm Ns4); [const| |].
  - apply Math_min_le_l, fnns_not_nan, Nm.
  - apply (leb_trans _ b4 _ Ns4 Nb4); [const | exact Hs4 | const].
Qed.

End LowVolumeLiquidity.

Section ReasonsExclude.

Import BondingCurve.
Local Open Scope float_scope.

(** X19.  For unsigned amounts, 'Low trading volume' and 'High liquidity score'
    are never given together: under one whole unit of 24h volume the
    liquidity score stays below 70. *)
Theorem low_volume_excludes_high_liquidity
    (env : Env) (coinData : option CreatorCoin) (tradingVolume24h : option Z)
    (lastTradeTime : option float) :
  (forall v, tradingVolume24h = Some v -> (0 <= v)%Z) ->
  (forall coin, coinData = Some coin -> (0 <= marketCap coin)%Z) ->
  let r := getTradingRecommendations env coinData tradingVolume24h lastTradeTime in
  ~ (In LowTradingVolume (reasoning r) /\ In HighLiquidityScore (reasoning r)).
Proof.
  intros Hv Hm. cbv zeta.
  assert (L : forall v, JS.truthy tradingVolume24h = Some v ->
                JS.lt (toETH v) 1 = true ->
                JS.gt (calculateLiquidityScore env coinData tradingVolume24h
                         lastTradeTime) 70 = false).
  { intros v T Hlt. destruct tradingVolume24h as [v'|]; [|discriminate T].
    cbn [JS.truthy] in T. destruct (v' =? 0)%Z eqn:V0; [discriminate T|].
    injection T as ->. apply Z.eqb_neq in V0.
    apply liquidityScore_low_volume; [exact Hm| |exact Hlt].
    specialize (Hv v eq_refl). lia. }
  unfold getTradingRecommendations. revert L.
  generalize (calculateLiquidityScore env coinData tradingVolume24h lastTradeTime).
  intros liquidityScore L. cbv zeta.
  destruct (JS.truthy tradingVolume24h) as [v|].
  - specialize (L v eq_refl).
    destruct (JS.gt (toETH v) 100); [|destruct (JS.lt (toETH v) 1)];
      [| rewrite (L eq_refl) |];
      (destruct coinData as [coin|];
       [destruct (JS.gt (priceChange24h coin) 0.1);
        [|destruct (JS.lt (priceChange24h coin) (-0.1))]|]);
      try (destruct (JS.gt liquidityScore 70));
      try (destruct (JS.lt liquidityScore 30));
      (destruct lastTradeTime as [t|];
       [destruct (JS.gt (hoursSince (afterRead (Some t) env) t) 168)|]);
      cbn [reasoning app In]; intuition discriminate.
  - destruct coinData as [coin|];
      [destruct (JS.gt (priceChange24h coin) 0.1);
       [|destruct (JS.lt (priceChange24h coin) (-0.1))]|];
      (destruct (JS.gt liquidityScore 70); [|destruct (JS.lt liquidityScore 30)]);
      (destruct lastTradeTime as [t|];
       [destruct (JS.gt (hoursSince (afterRead (Some t) env) t) 168)|]);
      cbn [reasoning app In]; intuition discriminate.
Qed.

End ReasonsExclude.

(** ** Evaluations on the default curve *)

Section CalculatorExamples.

Import BondingCurve.
Local Open Scope float_scope.

Lemma calculatePrice_empty_supply_witness :
  calculatePrice env0 newCoinBondingCurve 0 None None None = Ok 0%Z /\ 0%Z = 0%Z.
Proof.
  split; [vm_compute; reflexivity|].
  apply (calculatePrice_empty_supply env0 newCoinBondingCurve None None None 0).
  vm_compute. reflexivity.
Defined.


Example one_unit_lost_in_the_round_trip :
  calculateCoinsForEth env0 defaultBondingCurve 1000 (10 ^ 18) None None None
  = Ok 9999990000009999990000009%Z
  /\ calculateEthForCoins env0 defaultBondingCurve 1000 9999990000009999990000009
       None None None
     = Ok 999999999999999999%Z.
Proof. split; vm_compute; reflexivity. Qed.


Lemma trade_reaching_the_cap_witness :
  calculateTradePrice env0 defaultBondingCurve 999999999 1 true None None None
  = Err SupplyExceedsTotal
  <-> (totalSupply defaultBondingCurve <= 999999999)%Z
      \/ (resultingSupply 999999999 1 true = totalSupply defaultBondingCurve
          /\ exists currentPrice,
               calculatePrice env0 defaultBondingCurve 999999999 None None None
               = Ok currentPrice).
Proof.
  apply (trade_reaching_the_cap env0 defaultBondingCurve None None None
           999999999 1 true).
  vm_compute. split; discriminate.
Defined.


Lemma quote_price_impact_not_negative_witness :
  (priceImpact quote8 <? 0) = false
  /\ (is_nan (priceImpact quote8) = false -> (0 <=? priceImpact quote8) = true).
Proof.
  apply (quote_price_impact_not_negative env0 defaultBondingCurve None None
           (Some halfAnHourAgo)
           eq_refl eq_refl eq_refl (10 ^ 8) (10 ^ 6) true quote8).
  - lia.
  - lia.
  - reflexivity.
  - vm_compute. reflexivity.
Defined.

(** A clock that moves on by a millisecond after its first reading. *)
Definition movingClock : Env :=
  {| clock := fun n => match n with O => 1700000000000 | S _ => 1700000000001 end;
     Math_random := 0.5;
     Math_pow := pow_ref |}.

(** Exactly 24 hours before the first reading of [movingClock]. *)
Definition aDayAgo : float := 1699913600000.

(** The first price is computed 24 hours after the last trade, without
    time decay; the second a millisecond later, with one day of decay
    (times 0.95): the buy is quoted with a negative price impact. *)
Example impact_when_the_clock_moves :
  exists q,
    calculateTradePrice movingClock defaultBondingCurve (10 ^ 8) (10 ^ 6) true
      None None (Some aDayAgo) = Ok q
    /\ (priceImpact q <? 0) = true
    /\ calculateDynamicK movingClock defaultBondingCurve None None (Some aDayAgo)
       = 0.0001
    /\ calculateDynamicK (tick movingClock) defaultBondingCurve None None (Some aDayAgo)
       = 0.0001 * 0.95.
Proof. eexists. repeat split; vm_compute; reflexivity. Qed.

Lemma quote_price_impact_capped_witness :
  JS.gt (priceImpact quote8) 0.1 = false.
Proof.
  apply (quote_price_impact_capped env0 defaultBondingCurve (10 ^ 8) (10 ^ 6) true
           None None None quote8).
  - reflexivity.
  - vm_compute. reflexivity.
Defined.

Lemma quote_deadline_window_witness :
  let earliest := JS.Math_floor (Date_now env0 / 1000) + 1800 in
  (earliest <=? deadline quote8) = true /\ (deadline quote8 <=? earliest + 299) = true.
Proof.
  apply (quote_deadline_window env0 defaultBondingCurve (10 ^ 8) (10 ^ 6) true
           None None None quote8).
  - reflexivity.
  - reflexivity.
  - reflexivity.
  - vm_compute. reflexivity.
Defined.

Lemma marketCap_monotone_witness :
  (0 <= 111111111111 <= 24999999999999)%Z.
Proof.
  apply (marketCap_monotone env0 defaultBondingCurve None None None
           (10 ^ 8) (5 * 10 ^ 8)).
  - reflexivity.
  - reflexivity.
  - reflexivity.
  - lia.
  - vm_compute. reflexivity.
  - vm_compute. reflexivity.
Defined.

Lemma priceChange_from_empty_supply_witness :
  infinity = nan \/ infinity = infinity \/ infinity = neg_infinity.
Proof.
  apply (priceChange_from_empty_supply env0 defaultBondingCurve 1000
           None None None None).
  vm_compute. reflexivity.
Defined.

Lemma priceChange_not_negative_witness :
  (3.0000040000060002 <? 0) = false.
Proof.
  apply (priceChange_not_negative env0 defaultBondingCurve 2000 1000 None None).
  - reflexivity.
  - reflexivity.
  - reflexivity.
  - lia.
  - vm_compute. reflexivity.
Defined.

Lemma default_curve_price_total_witness :
  (500000000 < 1000000000)%Z
  <-> exists price,
        calculatePrice env0 defaultBondingCurve 500000000 None None None = Ok price
        /\ (0 <= price)%Z.
Proof.
  apply (default_curve_price_total env0 500000000 None None). lia.
Defined.

Lemma calculator_liquidityScore_bounds_witness :
  let score :=
    calculateLiquidityScore env0 (Some coin25) (Some 50000000000000000000%Z)
      (Some halfAnHourAgo) in
  (0 <=? score) = true /\ (score <=? 100) = true.
Proof.
  apply (calculator_liquidityScore_bounds env0 (Some coin25)
           (Some 50000000000000000000%Z) (Some halfAnHourAgo)).
  - intros v E. assert (H : 50000000000000000000%Z = v) by congruence.
    rewrite <- H. lia.
  - intros coin E. assert (H : coin25 = coin) by congruence.
    rewrite <- H. vm_compute. discriminate.
Defined.

Lemma low_volume_excludes_high_liquidity_witness :
  let r := getTradingRecommendations env0 None (Some (10 ^ 17)%Z) None in
  ~ (In LowTradingVolume (reasoning r) /\ In HighLiquidityScore (reasoning r)).
Proof.
  apply (low_volume_excludes_high_liquidity env0 None (Some (10 ^ 17)%Z) None).
  - intros v E. assert (H : (10 ^ 17)%Z = v) by congruence.
    rewrite <- H. lia.
  - intros coin E. discriminate E.
Defined.

Example low_volume_reasons :
  reasoning (getTradingRecommendations env0 None (Some (10 ^ 17)%Z) None)
  = [LowTradingVolume; LowLiquidityScore].
Proof. vm_compute. reflexivity. Qed.

End CalculatorExamples.

(** * Further properties of the pricing engine *)

(** ** Risk assessment: level and factors *)

Section RiskFactors.

Import PricingEngine.

(** X20.  The level [assessRisk] returns can be read off the factors it lists:
    the list is never empty; the level is low exactly when the only entry
    is 'Stable market conditions', which never appears beside another
    factor; it is high exactly when high volatility or an extreme price
    movement is listed, or at least two factors are. *)
Theorem assessRisk_level_of_factors
    (coin : CreatorCoin) (volatilityScore liquidityScore : float) :
  let level := fst (assessRisk coin volatilityScore liquidityScore) in
  let factors := snd (assessRisk coin volatilityScore liquidityScore) in
  (1 <= length factors <= 4)%nat
  /\ NoDup factors
  /\ (level = low <-> factors = [StableMarketConditions])
  /\ (In StableMarketConditions factors -> factors = [StableMarketConditions])
  /\ (level = high <->
      In HighPriceVolatility factors \/ In ExtremePriceMovement factors
      \/ (2 <= length factors)%nat).
Proof.
  cbv [assessRisk riskSteps runSteps fold_left
       volatilityStep liquidityStep priceMoveStep volumeStep stableStep].
  destruct (JS.gt volatilityScore 70); [|destruct (JS.gt volatilityScore 40)];
    destruct (JS.lt liquidityScore 30);
    destruct (JS.gt (JS.Math_abs (priceChange24h coin)) 50);
    destruct (JS.lt (JS.Number (tradingVolume24h coin)) 1e18);
    cbn [app fst snd escalate length In];
    (split; [lia|]);
    (split; [repeat constructor; cbn [In]; intuition discriminate|]);
    (split; [split; intros H; first [discriminate H | reflexivity]|]);
    (split; [intuition (first [discriminate | reflexivity])|]);
    (split; [intros H; first [discriminate H | choose_disjunct]
            | intros H; first [reflexivity | exfalso]]);
    intuition (first [discriminate | lia]).
Qed.

End RiskFactors.

(** ** Market conditions *)

Section MarketConditionsTotals.

Import PricingEngine.

(** The sum of a bigint field over a list of coins. *)
Fixpoint total (field : CreatorCoin -> Z) (coins : list CreatorCoin) : Z :=
  match coins with
  | [] => 0
  | coin :: coins' => field coin + total field coins'
  end.

Lemma reduce_total (field : CreatorCoin -> Z) (coins : list CreatorCoin) :
  forall sum,
    fold_left (fun sum coin => sum + field coin) coins sum = sum + total field coins.
Proof.
  induction coins as [|c coins IH]; intros sum; cbn [fold_left total].
  - lia.
  - rewrite IH. lia.
Qed.

Lemma total_permutation (field : CreatorCoin -> Z) (l1 l2 : list CreatorCoin) :
  Permutation l1 l2 -> total field l1 = total field l2.
Proof.
  induction 1; cbn [total] in *; lia.
Qed.

Lemma total_nonneg (field : CreatorCoin -> Z) (coins : list CreatorCoin) :
  Forall (fun coin => 0 <= field coin) coins -> 0 <= total field coins.
Proof.
  induction 1; cbn [total]; lia.
Qed.

(** What [updateMarketConditions] stores, for a list that is not empty. *)
Lemma updateMarketConditions_fields (coins : list CreatorCoin) :
  coins <> [] ->
  exists conditions,
    updateMarketConditions coins = Ok conditions
    /\ marketCap_ conditions = total marketCap coins
    /\ totalVolume conditions = total tradingVolume24h coins
    /\ activeTraders conditions = length coins
    /\ averageTradeSize conditions
       = Z.quot (total tradingVolume24h coins) (Z.of_nat (length coins)).
Proof.
  intros Hne. unfold updateMarketConditions.
  destruct (Z.of_nat (length coins) =? 0) eqn:E.
  - apply Z.eqb_eq in E. destruct coins; [contradiction | discriminate E].
  - eexists. split; [reflexivity|].
    cbn [marketCap_ totalVolume activeTraders averageTradeSize].
    rewrite !reduce_total. repeat split.
Qed.

(** X21.  [updateMarketConditions] throws exactly on the empty list: the average
    trade size is a division by [BigInt(0)]. *)
Theorem marketConditions_fail_iff_empty (coins : list CreatorCoin) :
  (exists e, updateMarketConditions coins = Err e) <-> coins = [].
Proof.
  split.
  - intros [e E]. destruct coins as [|c coins]; [reflexivity|].
    destruct (updateMarketConditions_fields (c :: coins)) as (m & H & _);
      [discriminate|]. rewrite H in E. discriminate.
  - intros ->. exists RangeError. reflexivity.
Qed.

(** X22.  The totals, the number of traders and the average trade size do not
    depend on the order in which the coins are listed. *)
Theorem marketConditions_order (coins1 coins2 : list CreatorCoin)
    (conditions1 conditions2 : MarketConditions) :
  Permutation coins1 coins2 ->
  updateMarketConditions coins1 = Ok conditions1 ->
  updateMarketConditions coins2 = Ok conditions2 ->
  marketCap_ conditions1 = marketCap_ conditions2
  /\ totalVolume conditions1 = totalVolume conditions2
  /\ activeTraders conditions1 = activeTraders conditions2
  /\ averageTradeSize conditions1 = averageTradeSize conditions2.
Proof.
  intros HP E1 E2.
  assert (N1 : coins1 <> []) by (intros ->; discriminate E1).
  assert (N2 : coins2 <> []) by (intros ->; discriminate E2).
  destruct (updateMarketConditions_fields coins1 N1) as (m1 & H1 & A1 & B1 & C1 & D1).
  destruct (updateMarketConditions_fields coins2 N2) as (m2 & H2 & A2 & B2 & C2 & D2).
  rewrite E1 in H1. injection H1 as <-. rewrite E2 in H2. injection H2 as <-.
  rewrite A1, A2, B1, B2, C1, C2, D1, D2.
  rewrite (total_permutation marketCap _ _ HP),
    (total_permutation tradingVolume24h _ _ HP), (Permutation_length HP).
  repeat split.
Qed.

(** X23.  With volumes that are not negative, the average trade size is the
    total volume divided by the number of coins, rounded down: it is not
    negative, and the total lies between the average times the number of
    coins and that plus the number of coins. *)
Theorem marketConditions_average (coins : list CreatorCoin)
    (conditions : MarketConditions) :
  Forall (fun coin => 0 <= tradingVolume24h coin) coins ->
  updateMarketConditions coins = Ok conditions ->
  let n := Z.of_nat (activeTraders conditions) in
  0 < n
  /\ 0 <= averageTradeSize conditions <= totalVolume conditions
  /\ averageTradeSize conditions * n <= totalVolume conditions
     < (averageTradeSize conditions + 1) * n.
Proof.
  intros Hv E.
  assert (N : coins <> []) by (intros ->; discriminate E).
  destruct (updateMarketConditions_fields coins N) as (m & H & _ & B & C & D).
  rewrite E in H. injection H as <-. cbv zeta.
  rewrite D, B, C. pose proof (total_nonneg tradingVolume24h coins Hv) as Ht.
  set (t := total tradingVolume24h coins) in *.
  set (n := Z.of_nat (length coins)).
  assert (Hn : 0 < n) by (unfold n; destruct coins; [contradiction | cbn; lia]).
  rewrite Z.quot_div_nonneg by lia.
  pose proof (Z.div_mod t n ltac:(lia)) as DM.
  pose proof (Z.mod_pos_bound t n Hn) as MB.
  assert (Hq : 0 <= t / n) by (apply Z.div_pos; lia).
  repeat split; try lia; nia.
Qed.

End MarketConditionsTotals.

Section MarketTrend.

Import PricingEngine.
Local Open Scope float_scope.

(** X24.  The trend and the stored price volatility (the absolute value of the
    average price change) agree: the trend is neutral exactly when the
    volatility does not exceed 5, and bullish or bearish exactly when it
    does. *)
Theorem marketConditions_trend (coins : list CreatorCoin)
    (conditions : MarketConditions) :
  updateMarketConditions coins = Ok conditions ->
  (overallTrend conditions = neutral <-> JS.gt (priceVolatility conditions) 5 = false)
  /\ (overallTrend conditions = bullish \/ overallTrend conditions = bearish
      <-> JS.gt (priceVolatility conditions) 5 = true).
Proof.
  unfold updateMarketConditions.
  destruct (Z.of_nat (length coins) =? 0)%Z; [discriminate|].
  intros E. injection E as <-. cbn [overallTrend priceVolatility].
  set (averagePriceChange := _ / _).
  rewrite (abs_gt averagePriceChange 5 (-5) _ _ eq_refl eq_refl).
  destruct (JS.gt averagePriceChange 5); [|destruct (JS.lt averagePriceChange (-5))];
    cbn [orb]; (split; split; intros H; try discriminate H; try reflexivity;
                try (destruct H as [H|H]; discriminate H)).
  - left. reflexivity.
  - right. reflexivity.
Qed.

End MarketTrend.

(** ** The engine's liquidity score *)

Section EngineLiquidity.

Local Open Scope float_scope.

Import PricingEngine Rounding.

(** With a price change that is a number, the engine's liquidity score is a
    number that is not negative. *)
Lemma engine_liquidityScore_fnns (coin : CreatorCoin) :
  (0 <= tradingVolume24h coin)%Z -> (0 <= marketCap coin)%Z ->
  (0 <= circulatingSupply coin)%Z ->
  is_nan (priceChange24h coin) = false ->
  fnns (calculateLiquidityScore coin).
Proof.
  intros Hv Hm Hs N. unfold calculateLiquidityScore. cbv zeta.
  apply Math_min_fnns; [|const].
  repeat apply add_fnns.
  - apply Math_min_fnns; [|const].
    apply div_fnns; [reflexivity|].
    apply div_fnns; [reflexivity|]. apply Number_fnns, Hv.
  - apply Math_min_fnns; [|const].
    apply div_fnns; [reflexivity|].
    apply div_fnns; [reflexivity|]. apply Number_fnns, Hm.
  - apply Math_max_fnns_l; [const|].
    apply is_nan_spec. rewrite sub_spec. apply SFsub_not_nan.
    + discriminate.
    + apply is_nan_spec. rewrite abs_nan. exact N.
    + intros s E. discriminate E.
  - apply Math_min_fnns; [|const].
    apply div_fnns; [reflexivity|].
    apply div_fnns; [reflexivity|]. apply Number_fnns, Hs.
Qed.

(** X25.  The engine's liquidity score is a number exactly when the coin's price
    change is; it is then between 0 and 100, for unsigned volume, market
    cap and supply. *)
Theorem engine_liquidityScore_bounds (coin : CreatorCoin) :
  (0 <= tradingVolume24h coin)%Z -> (0 <= marketCap coin)%Z ->
  (0 <= circulatingSupply coin)%Z ->
  is_nan (calculateLiquidityScore coin) = is_nan (priceChange24h coin)
  /\ (is_nan (priceChange24h coin) = false ->
      (0 <=? calculateLiquidityScore coin) = true
      /\ (calculateLiquidityScore coin <=? 100) = true).
Proof.
  intros Hv Hm Hs.
  destruct (is_nan (priceChange24h coin)) eqn:N.
  - split; [|discriminate]. unfold calculateLiquidityScore. cbv zeta.
    apply Math_min_nan_l, add_nan_l, add_nan_r, Math_max_nan_r, sub_nan_r.
    rewrite abs_nan. exact N.
  - pose proof (engine_liquidityScore_fnns coin Hv Hm Hs N) as F.
    split; [apply fnns_not_nan; exact F|]. intros _. split.
    + apply fnns_nonneg, F.
    + unfold calculateLiquidityScore in *. cbv zeta in *.
      apply Math_min_le_r, fnns_not_nan, F.
Qed.

End EngineLiquidity.

(** ** Volume volatility *)

Section VolumeVolatility.

Import PricingEngine Rounding.
Local Open Scope R_scope.

(** X26.  The volume volatility compares the 24h volume with 0.8 times itself:
    whatever the volume is, positive and below 2^256, it is 25 up to
    rounding. *)
Theorem volumeVolatility_constant (coin : CreatorCoin) :
  (0 < tradingVolume24h coin < 2 ^ 256)%Z ->
  (24.9 <=? calculateVolumeVolatility coin)%float = true
  /\ (calculateVolumeVolatility coin <=? 25.1)%float = true.
Proof.
  intros Hv. unfold calculateVolumeVolatility. cbv zeta.
  set (V := JS.Number (tradingVolume24h coin)).
  (* the volume as a number *)
  assert (Fmax : fnn (JS.Number (2 ^ 256))) by const.
  destruct (Number_mono (tradingVolume24h coin) (2 ^ 256) ltac:(lia) Fmax) as [FV HVmax].
  destruct (Number_mono 1 (tradingVolume24h coin) ltac:(lia) FV) as [_ HVmin].
  fold V in FV, HVmax, HVmin.
  assert (E1 : fval (JS.Number 1) = 1).
  { change (JS.Number 1) with 1%float. apply fval_1. }
  assert (Emax : fval (JS.Number (2 ^ 256)) = bpow 256).
  { unfold fval.
    assert (E : Prim2SF (JS.Number (2 ^ 256)) = S754_finite false 4503599627370496 204)
      by (vm_compute; reflexivity).
    rewrite E. cbn [SF2R cond_Zopp]. unfold F2R.
    change 4503599627370496%Z with (2 ^ 52)%Z.
    rewrite <- bpow_IZR, <- bpow_add by lia. reflexivity. }
  rewrite E1 in HVmin. rewrite Emax in HVmax.
  (* the ranges *)
  assert (Blo : bpow (-1022) <= / 8).
  { assert (bpow (-1022) <= bpow (-3)) by (apply bpow_le; lia).
    assert (bpow (-3) = / 8) by (apply (bpow_neg 3); lia).
    lra. }
  assert (Bhi : 2 * bpow 256 < bpow 1023).
  { assert (bpow 257 = 2 * bpow 256) by (apply (bpow_succ 256)).
    assert (bpow 257 < bpow 1023) by (apply bpow_lt; lia). lra. }
  assert (B10 : 1024 <= bpow 256).
  { assert (bpow 10 <= bpow 256) by (apply bpow_le; lia).
    assert (bpow 10 = 1024) by (rewrite bpow_IZR by lia; reflexivity). lra. }
  (* 0.8 *)
  assert (F08 : fnn 0.8%float) by const.
  assert (E08 : fval 0.8%float = 7205759403792794 / 9007199254740992).
  { rewrite (fval_constant 0.8%float 7205759403792794 53); [reflexivity| |lia].
    vm_compute. reflexivity. }
  (* averageVolume *)
  destruct (frounds_near _ _ (mul_frounds V 0.8%float FV F08)) as [FA HA];
    [rewrite E08; lra | rewrite E08; lra|].
  fold (fnn (V * 0.8)%float) in FA. fold (fval (V * 0.8)%float) in HA.
  rewrite E08 in HA.
  set (A := (V * 0.8)%float) in *.
  (* currentVolume - averageVolume *)
  destruct (frounds_near _ _ (sub_frounds V A FV FA ltac:(lra))) as [FS HS];
    [lra | lra|].
  fold (fnn (V - A)%float) in FS. fold (fval (V - A)%float) in HS.
  destruct (abs_fnn _ FS) as [FS' ES'].
  (* the quotient *)
  assert (PA : 0 < fval A) by lra.
  pose proof (div_frounds (JS.Math_abs (V - A)%float) A FS' FA PA) as HQ.
  rewrite ES' in HQ.
  assert (Q1 : 0.2499 <= fval (V - A)%float / fval A <= 0.2501).
  { split.
    - apply Rmult_le_reg_r with (fval A); [exact PA|].
      unfold Rdiv. rewrite Rmult_assoc, Rinv_l, Rmult_1_r by lra. lra.
    - apply Rmult_le_reg_r with (fval A); [exact PA|].
      unfold Rdiv. rewrite Rmult_assoc, Rinv_l, Rmult_1_r by lra. lra. }
  destruct (frounds_near _ _ HQ) as [FQ HQ']; [lra | lra|].
  fold (fnn (JS.Math_abs (V - A) / A)%float) in FQ.
  fold (fval (JS.Math_abs (V - A) / A)%float) in HQ'.
  set (Q := (JS.Math_abs (V - A) / A)%float) in *.
  (* times 100 *)
  assert (F100 : fnn 100%float) by const.
  assert (E100 : fval 100%float = 100).
  { rewrite (fval_constant 100%float 7036874417766400 46); [|vm_compute; reflexivity|lia].
    change (2 ^ 46)%Z with 70368744177664%Z. lra. }
  destruct (frounds_near _ _ (mul_frounds Q 100%float FQ F100)) as [FR HR];
    [rewrite E100; lra | rewrite E100; lra|].
  fold (fnn (Q * 100)%float) in FR. fold (fval (Q * 100)%float) in HR.
  rewrite E100 in HR.
  (* the bounds *)
  assert (Elo : fval 24.9%float = 7008726920095334 / 281474976710656).
  { rewrite (fval_constant 24.9%float 7008726920095334 48); [reflexivity| |lia].
    vm_compute. reflexivity. }
  assert (Ehi : fval 25.1%float = 7065021915437466 / 281474976710656).
  { rewrite (fval_constant 25.1%float 7065021915437466 48); [reflexivity| |lia].
    vm_compute. reflexivity. }
  assert (Flo : fnn 24.9%float) by const.
  assert (Fhi : fnn 25.1%float) by const.
  split.
  - apply (leb_fval _ _ Flo FR). rewrite Elo. lra.
  - apply (leb_fval _ _ FR Fhi). rewrite Ehi. lra.
Qed.

End VolumeVolatility.

(** ** The engine's optimal trade size *)

Section EngineTradeSize.

Import PricingEngine Rounding.
Local Open Scope float_scope.

(** X27.  For a liquidity score between 0 and 100 and a supply that is not
    negative, the engine's optimal trade size, when it is returned, is not
    negative and at most the integer part of a thousandth of the supply. *)
Theorem engine_optimalTradeSize_bounds
    (coin : CreatorCoin) (liquidityScore : float) (size : Z) :
  (0 <= circulatingSupply coin)%Z ->
  (0 <=? liquidityScore) = true -> (liquidityScore <=? 100) = true ->
  calculateOptimalTradeSize coin liquidityScore = Ok size ->
  (0 <= size)%Z
  /\ exists thousandth,
       JS.BigInt_floor (JS.Number (circulatingSupply coin) / 1000) = Ok thousandth
       /\ (size <= thousandth)%Z.
Proof.
  intros Hs H0 H100. unfold calculateOptimalTradeSize. cbv zeta.
  set (baseSize := JS.Number (circulatingSupply coin) / 1000).
  set (mult := liquidityScore / 100).
  intros E. apply BigInt_floor_ok in E.
  assert (F100 : fnn 100) by (vm_compute; reflexivity).
  pose proof (leb_fnn _ _ (nonneg_fnns _ H0) F100 H100) as Fl.
  apply (leb_fval _ _ Fl F100) in H100.
  assert (P100 : (0 < fval 100)%R).
  { assert (H : (fval 0 < fval 100)%R)
      by (apply ltb_fval; [exact I | exact F100 | vm_compute; reflexivity]).
    exact H. }
  assert (E1 : 100 / 100 = 1) by (vm_compute; reflexivity).
  assert (F1 : fnn (100 / 100)) by (rewrite E1; vm_compute; reflexivity).
  destruct (div_mono_num liquidityScore 100 100 Fl F100 F100 P100 H100 F1) as [Fm Hm].
  fold mult in Fm, Hm. rewrite E1 in Hm.
  assert (Nb : fnfn baseSize).
  { apply div_fnfn; [apply Number_fnfn; exact Hs | vm_compute; reflexivity]. }
  pose proof (floorZ_some _ _ E (mul_fnfn _ _ Nb (fnn_fnfn _ Fm))) as Fx.
  destruct (mul_fnn_inv _ _ Nb (fnn_fnfn _ Fm) Fx) as [Fb _].
  split; [exact (floorZ_nonneg _ _ Fx E)|].
  destruct (mul_1_r_fval baseSize Fb) as [Fb1 Eb1].
  destruct (mul_mono_r baseSize mult 1 Fm ltac:(vm_compute; reflexivity) Fb Hm Fb1)
    as [_ Hle].
  rewrite Eb1 in Hle.
  destruct (JS.floorZ baseSize) as [b|] eqn:Eb.
  - exists b. split; [apply BigInt_floor_ok; exact Eb|].
    exact (floorZ_mono _ _ _ _ Fx Fb Hle E Eb).
  - exfalso. revert Eb Fb. unfold JS.floorZ, fnn.
    generalize (Prim2SF baseSize). intros f.
    destruct f; cbn; intros Eb Fb; try contradiction; discriminate.
Qed.

End EngineTradeSize.

(** ** Pricing data: when the promise is rejected *)

Section PricingDataRejected.

Import PricingEngine.
Local Open Scope float_scope.

Variable coin : CreatorCoin.

(** Without 24h volume the volume volatility is [0 / 0]. *)
Lemma volumeVolatility_without_volume :
  tradingVolume24h coin = 0%Z -> is_nan (calculateVolumeVolatility coin) = true.
Proof.
  intros H. unfold calculateVolumeVolatility. rewrite H. reflexivity.
Qed.

Lemma volatilityScore_nan :
  tradingVolume24h coin = 0%Z \/ is_nan (priceChange24h coin) = true ->
  is_nan (calculateVolatilityScore coin) = true.
Proof.
  intros H. unfold calculateVolatilityScore. apply Math_min_nan_l.
  destruct H as [H|H].
  - apply add_nan_r, volumeVolatility_without_volume, H.
  - apply add_nan_l, mul_nan_l. rewrite abs_nan. exact H.
Qed.

Lemma trendScore_nan :
  is_nan (priceChange24h coin) = true -> is_nan (calculateTrendScore coin) = true.
Proof.
  intros H. unfold calculateTrendScore.
  apply Math_max_nan_r, Math_min_nan_r, add_nan_l, add_nan_l, H.
Qed.

(** A price target is the conversion of a product by its multiplier: with a
    volatility or a trend that is [NaN], the conversion throws. *)
Lemma generatePriceTargets_nan (currentPrice : Z) (random1 random2 random3 : float) :
  is_nan (calculateVolatilityScore coin) = true
  \/ is_nan (calculateTrendScore coin) = true ->
  generatePriceTargets coin currentPrice random1 random2 random3 = Err RangeError.
Proof.
  intros H. unfold generatePriceTargets. cbv zeta.
  rewrite BigInt_floor_nan; [reflexivity|].
  apply mul_nan_r. destruct H as [H|H].
  - apply add_nan_r, mul_nan_r, div_nan_l, H.
  - apply add_nan_l, add_nan_r, mul_nan_l, H.
Qed.

(** X28.  [calculatePricingData] is rejected, with 'Failed to calculate pricing
    data', for every coin without 24h volume (its volatility is [0 / 0], and
    no price target can be converted to a bigint), for every coin whose
    price change is [NaN], and for every coin whose circulating supply is at
    or above the 10^9 cap of the engine's default curve. *)
Theorem pricingData_rejected
    (env : Env) (newDate random1 random2 random3 : float) :
  tradingVolume24h coin = 0%Z
  \/ is_nan (priceChange24h coin) = true
  \/ (10 ^ 9 <= circulatingSupply coin)%Z ->
  calculatePricingData env newDate random1 random2 random3 coin
  = Rejected FailedToCalculatePricingData.
Proof.
  intros H. unfold calculatePricingData.
  destruct (BondingCurve.calculatePrice env BondingCurve.defaultBondingCurve
              (circulatingSupply coin) (Some coin) (Some (tradingVolume24h coin))
              (Some newDate)) as [customPrice|e] eqn:P; [|reflexivity].
  cbn [bind].
  destruct (calculateOptimalTradeSize coin (calculateLiquidityScore coin))
    as [size|e]; [|reflexivity].
  cbn [bind].
  destruct H as [H|[H|H]].
  - rewrite generatePriceTargets_nan; [reflexivity|].
    left. apply volatilityScore_nan. left. exact H.
  - rewrite generatePriceTargets_nan; [reflexivity|].
    left. apply volatilityScore_nan. right. exact H.
  - rewrite calculatePrice_at_or_above_cap in P by exact H. discriminate P.
Qed.

End PricingDataRejected.

(** ** Pricing data: the scores of a resolved promise *)

Section PricingDataScores.

Import PricingEngine Rounding.
Local Open Scope float_scope.

Variable coin : CreatorCoin.

Hypothesis volume_unsigned : (0 <= tradingVolume24h coin)%Z.
Hypothesis marketCap_unsigned : (0 <= marketCap coin)%Z.
Hypothesis supply_unsigned : (0 <= circulatingSupply coin)%Z.

(** A volatility score that is a number is between 0 and 100. *)
Lemma volatilityScore_range :
  is_nan (calculateVolatilityScore coin) = false ->
  (0 <=? calculateVolatilityScore coin) = true
  /\ (calculateVolatilityScore coin <=? 100) = true.
Proof.
  intros N. unfold calculateVolatilityScore in *. cbv zeta in *.
  destruct (Math_min_nan _ _ N) as [Ns _].
  destruct (not_nan_add _ _ Ns) as [Np Nv].
  assert (Nc : is_nan (priceChange24h coin) = false).
  { apply not_nan_mul_l in Np. rewrite abs_nan in Np. exact Np. }
  apply clamped_score; [|const].
  apply add_fnns.
  - apply pns_fnns, mul_pns; [apply abs_pns; exact Nc | reflexivity].
  - apply nnn_fnns; [|exact Nv].
    unfold calculateVolumeVolatility in *. cbv zeta in *.
    apply mul_nnn; [|right; const].
    apply div_pns.
    + apply abs_pns. apply not_nan_mul_l, not_nan_div_l in Nv.
      rewrite abs_nan in Nv. exact Nv.
    + apply mul_pns; [apply Number_pns; exact volume_unsigned | reflexivity].
Qed.

(** A trend score that is a number is between -100 and 100. *)
Lemma trendScore_range :
  is_nan (calculateTrendScore coin) = false ->
  (-100 <=? calculateTrendScore coin) = true
  /\ (calculateTrendScore coin <=? 100) = true.
Proof.
  intros N. unfold calculateTrendScore in *. cbv zeta in *. split.
  - apply Math_max_ge_l. exact N.
  - destruct (Math_max_nan _ _ N) as [_ Nm].
    apply Math_max_le; [exact N | const|].
    apply Math_min_le_l. exact Nm.
Qed.

(** With a price difference and a liquidity score that are numbers, the
    latter not negative, the confidence is between 0 and 100. *)
Lemma confidence_range (priceDifference liquidityScore : float) :
  is_nan priceDifference = false -> fnns liquidityScore ->
  (0 <=? calculateConfidence coin priceDifference liquidityScore) = true
  /\ (calculateConfidence coin priceDifference liquidityScore <=? 100) = true.
Proof.
  intros Nd Fl. unfold calculateConfidence. cbv zeta.
  apply clamped_score; [|const].
  repeat apply add_fnns.
  - apply Math_min_fnns; [|const].
    apply pns_fnns, mul_pns; [apply abs_pns; exact Nd | reflexivity].
  - apply mul_fnns; [reflexivity | exact Fl].
  - apply Math_min_fnns; [|const].
    apply div_fnns; [reflexivity|].
    apply div_fnns; [reflexivity|]. apply Number_fnns, volume_unsigned.
Qed.

(** A buy or sell recommendation is only made above a liquidity score of
    50 and for a price difference of more than 0.1 either way. *)
Lemma generateRecommendation_not_hold (priceDifference liquidityScore : float) :
  generateRecommendation coin priceDifference liquidityScore <> hold ->
  JS.gt liquidityScore 50 = true
  /\ JS.gt (JS.Math_abs priceDifference) 0.1 = true.
Proof.
  unfold generateRecommendation.
  rewrite (abs_gt priceDifference 0.1 (-0.1) _ _ eq_refl eq_refl).
  destruct (JS.gt priceDifference 0.1), (JS.gt liquidityScore 50),
    (JS.lt priceDifference (-0.1)); cbn; intros H; try (split; reflexivity);
    exfalso; apply H; reflexivity.
Qed.

(** The engine's trade size is not negative, for a liquidity score that is
    not negative. *)
Lemma engine_optimalTradeSize_nonneg (liquidityScore : float) (size : Z) :
  fnns liquidityScore ->
  calculateOptimalTradeSize coin liquidityScore = Ok size -> (0 <= size)%Z.
Proof.
  intros Fl. unfold calculateOptimalTradeSize. cbv zeta. intros E.
  apply BigInt_floor_ok in E.
  assert (Nx : fnfn (JS.Number (circulatingSupply coin) / 1000 * (liquidityScore / 100))).
  { apply mul_fnfn; apply div_fnfn.
    - apply Number_fnfn. exact supply_unsigned.
    - const.
    - apply nns_nfn. exact Fl.
    - const. }
  exact (floorZ_nonneg _ _ (floorZ_some _ _ E Nx) E).
Qed.

(** X29.  In the data of a resolved [calculatePricingData], for a coin with
    unsigned amounts: the reported prices are the coin's current price; the
    liquidity and volatility scores are numbers between 0 and 100 and the
    trend score one between -100 and 100; the confidence is between 0 and
    100 unless the price difference is [NaN]; a recommendation other than
    'hold' comes with a liquidity score above 50 and a price difference
    above 0.1 in absolute value; the optimal trade size is not negative. *)
Theorem pricingData_scores
    (env : Env) (newDate random1 random2 random3 : float) (data : PricingData) :
  calculatePricingData env newDate random1 random2 random3 coin = Resolved data ->
  currentPrice_ data = currentPrice coin
  /\ zoraPrice data = currentPrice coin
  /\ ((0 <=? liquidityScore data) = true /\ (liquidityScore data <=? 100) = true)
  /\ ((0 <=? volatilityScore data) = true /\ (volatilityScore data <=? 100) = true)
  /\ ((-100 <=? trendScore data) = true /\ (trendScore data <=? 100) = true)
  /\ (is_nan (priceDifference data) = false ->
      (0 <=? confidence data) = true /\ (confidence data <=? 100) = true)
  /\ (recommendation data <> hold ->
      JS.gt (liquidityScore data) 50 = true
      /\ JS.gt (JS.Math_abs (priceDifference data)) 0.1 = true)
  /\ (0 <= optimalTradeSize data)%Z.
Proof.
  unfold calculatePricingData.
  destruct (BondingCurve.calculatePrice env BondingCurve.defaultBondingCurve
              (circulatingSupply coin) (Some coin) (Some (tradingVolume24h coin))
              (Some newDate)) as [custom|e] eqn:P; [|discriminate].
  cbn [bind].
  destruct (calculateOptimalTradeSize coin (calculateLiquidityScore coin))
    as [size|e] eqn:S; [|discriminate].
  cbn [bind].
  destruct (generatePriceTargets coin custom random1 random2 random3)
    as [targets|e] eqn:T; [|discriminate].
  cbn [bind try_catch]. intros E. injection E as <-.
  cbn [currentPrice_ zoraPrice liquidityScore volatilityScore trendScore
       priceDifference confidence recommendation optimalTradeSize].
  assert (Nv : is_nan (calculateVolatilityScore coin) = false).
  { destruct (is_nan (calculateVolatilityScore coin)) eqn:N; [|reflexivity].
    rewrite generatePriceTargets_nan in T by (left; exact N). discriminate T. }
  assert (Nt : is_nan (calculateTrendScore coin) = false).
  { destruct (is_nan (calculateTrendScore coin)) eqn:N; [|reflexivity].
    rewrite generatePriceTargets_nan in T by (right; exact N). discriminate T. }
  assert (Nc : is_nan (priceChange24h coin) = false).
  { destruct (is_nan (priceChange24h coin)) eqn:N; [|reflexivity].
    rewrite trendScore_nan in Nt by exact N. discriminate Nt. }
  pose proof (engine_liquidityScore_fnns coin volume_unsigned marketCap_unsigned
                supply_unsigned Nc) as Fl.
  split; [reflexivity|]. split; [reflexivity|].
  split.
  { split; [apply fnns_nonneg, Fl|].
    unfold calculateLiquidityScore in *. cbv zeta in *.
    apply Math_min_le_r, fnns_not_nan, Fl. }
  split; [exact (volatilityScore_range Nv)|].
  split; [exact (trendScore_range Nt)|].
  split; [intros Nd; exact (confidence_range _ _ Nd Fl)|].
  split; [apply generateRecommendation_not_hold|].
  exact (engine_optimalTradeSize_nonneg _ _ Fl S).
Qed.

End PricingDataScores.

(** ** The engine's price impact *)

Section EnginePriceImpact.

Import PricingEngine.
Local Open Scope float_scope.

(** X30.  For a trade that leaves a supply that is not negative,
    [calculatePriceImpact] is rejected exactly when that supply reaches the
    10^9 cap of the engine's default curve; when it resolves, the new price
    is not negative and the slippage is the absolute value of the price
    impact. *)
Theorem priceImpact_resolves_iff
    (env : Env) (coin : CreatorCoin) (tradeAmount : Z) (isBuy : bool) :
  let newSupply :=
    if isBuy then (circulatingSupply coin + tradeAmount)%Z
    else (circulatingSupply coin - tradeAmount)%Z in
  (0 <= newSupply)%Z ->
  match calculatePriceImpact env coin tradeAmount isBuy with
  | Resolved impact =>
      (newSupply < 1000000000)%Z
      /\ (0 <= newPrice impact)%Z
      /\ slippage impact = JS.Math_abs (priceImpact_ impact)
  | Rejected message =>
      (1000000000 <= newSupply)%Z /\ message = FailedToCalculatePriceImpact
  end.
Proof.
  cbv zeta. intros Hs. unfold calculatePriceImpact.
  set (newSupply := if isBuy then _ else _) in *.
  destruct (Z.lt_ge_cases newSupply 1000000000) as [L|G].
  - destruct (default_curve_priced env newSupply (Some coin) None ltac:(lia))
      as (p & E & Hp).
    rewrite E. cbn. repeat split; assumption.
  - rewrite calculatePrice_at_or_above_cap by exact G. cbn. split; [exact G|reflexivity].
Qed.

End EnginePriceImpact.

(** ** Evaluations of the engine *)

Section EngineExamples.

Import PricingEngine.
Local Open Scope float_scope.

(** A coin with half the default cap in circulation, 2 whole units of 24h
    volume and a 3% price change. *)
Definition coinHalf : CreatorCoin := {|
  totalSupply_ := 1000000000;
  circulatingSupply := 500000000;
  currentPrice := 50000000000000000000000;
  marketCap := 25000000000000;
  tradingVolume24h := 2000000000000000000;
  priceChange24h := 3
|}.

(** The same coin without 24h volume. *)
Definition coinWithoutVolume : CreatorCoin := {|
  totalSupply_ := 1000000000;
  circulatingSupply := 500000000;
  currentPrice := 50000000000000000000000;
  marketCap := 25000000000000;
  tradingVolume24h := 0;
  priceChange24h := 3
|}.

(** What [updateMarketConditions] stores for [coinHalf] and [coin25]. *)
Definition conditionsOfTwo : MarketConditions := {|
  overallTrend := bearish;
  marketCap_ := 5000000025000000000000;
  totalVolume := 52000000000000000000;
  activeTraders := 2;
  averageTradeSize := 26000000000000000000;
  priceVolatility := 11
|}.

(** The pricing data of [coinHalf], with the clock at the time of the last
    trade and three draws of 0.5. *)
Definition dataOfCoinHalf : PricingData := {|
  currentPrice_ := 50000000000000000000000;
  zoraPrice := 50000000000000000000000;
  customPrice := 49999999999999995805696;
  priceDifference := -8.3886080000000009e-17;
  liquidityScore := 17.002000002500001;
  volatilityScore := 31;
  trendScore := 5.4000000000000004;
  recommendation := hold;
  confidence := 5.1206000007500165;
  optimalTradeSize := 85010;
  priceTarget1h := 50269999999999996329984;
  priceTarget24h := 52700000000000001048576;
  priceTarget7d := 63499999999999996854272;
  riskLevel := medium;
  riskFactors := [LowLiquidity]
|}.

Example pricingData_of_coinHalf :
  calculatePricingData env0 1700000000000 0.5 0.5 0.5 coinHalf
  = Resolved dataOfCoinHalf.
Proof. vm_compute. reflexivity. Qed.

Lemma marketConditions_order_witness :
  marketCap_ conditionsOfTwo = marketCap_ conditionsOfTwo
  /\ totalVolume conditionsOfTwo = totalVolume conditionsOfTwo
  /\ activeTraders conditionsOfTwo = activeTraders conditionsOfTwo
  /\ averageTradeSize conditionsOfTwo = averageTradeSize conditionsOfTwo.
Proof.
  apply (marketConditions_order [coinHalf; coin25] [coin25; coinHalf]).
  - apply perm_swap.
  - vm_compute. reflexivity.
  - vm_compute. reflexivity.
Defined.

Lemma marketConditions_average_witness :
  let n := Z.of_nat (activeTraders conditionsOfTwo) in
  (0 < n)%Z
  /\ (0 <= averageTradeSize conditionsOfTwo <= totalVolume conditionsOfTwo)%Z
  /\ (averageTradeSize conditionsOfTwo * n <= totalVolume conditionsOfTwo
      < (averageTradeSize conditionsOfTwo + 1) * n)%Z.
Proof.
  apply (marketConditions_average [coinHalf; coin25]).
  - repeat constructor; vm_compute; discriminate.
  - vm_compute. reflexivity.
Defined.

Lemma marketConditions_trend_witness :
  (overallTrend conditionsOfTwo = neutral
   <-> JS.gt (priceVolatility conditionsOfTwo) 5 = false)
  /\ (overallTrend conditionsOfTwo = bullish \/ overallTrend conditionsOfTwo = bearish
      <-> JS.gt (priceVolatility conditionsOfTwo) 5 = true).
Proof.
  apply (marketConditions_trend [coinHalf; coin25]).
  vm_compute. reflexivity.
Defined.

Lemma engine_liquidityScore_bounds_witness :
  is_nan (calculateLiquidityScore coinHalf) = is_nan (priceChange24h coinHalf)
  /\ (is_nan (priceChange24h coinHalf) = false ->
      (0 <=? calculateLiquidityScore coinHalf) = true
      /\ (calculateLiquidityScore coinHalf <=? 100) = true).
Proof.
  apply (engine_liquidityScore_bounds coinHalf); vm_compute; discriminate.
Defined.

Lemma volumeVolatility_constant_witness :
  (24.9 <=? calculateVolumeVolatility coinHalf) = true
  /\ (calculateVolumeVolatility coinHalf <=? 25.1) = true.
Proof.
  apply (volumeVolatility_constant coinHalf).
  vm_compute. split; reflexivity.
Defined.

Lemma engine_optimalTradeSize_bounds_witness :
  (0 <= 85010)%Z
  /\ exists thousandth,
       JS.BigInt_floor (JS.Number (circulatingSupply coinHalf) / 1000) = Ok thousandth
       /\ (85010 <= thousandth)%Z.
Proof.
  apply (engine_optimalTradeSize_bounds coinHalf 17.002000002500001 85010).
  - vm_compute. discriminate.
  - reflexivity.
  - reflexivity.
  - vm_compute. reflexivity.
Defined.

Lemma pricingData_rejected_witness :
  calculatePricingData env0 1700000000000 0.5 0.5 0.5 coinWithoutVolume
  = Rejected FailedToCalculatePricingData.
Proof.
  apply (pricingData_rejected coinWithoutVolume env0 1700000000000 0.5 0.5 0.5).
  left. reflexivity.
Defined.

Lemma pricingData_scores_witness :
  currentPrice_ dataOfCoinHalf = currentPrice coinHalf
  /\ zoraPrice dataOfCoinHalf = currentPrice coinHalf
  /\ ((0 <=? liquidityScore dataOfCoinHalf) = true
      /\ (liquidityScore dataOfCoinHalf <=? 100) = true)
  /\ ((0 <=? volatilityScore dataOfCoinHalf) = true
      /\ (volatilityScore dataOfCoinHalf <=? 100) = true)
  /\ ((-100 <=? trendScore dataOfCoinHalf) = true
      /\ (trendScore dataOfCoinHalf <=? 100) = true)
  /\ (is_nan (priceDifference dataOfCoinHalf) = false ->
      (0 <=? confidence dataOfCoinHalf) = true
      /\ (confidence dataOfCoinHalf <=? 100) = true)
  /\ (recommendation dataOfCoinHalf <> hold ->
      JS.gt (liquidityScore dataOfCoinHalf) 50 = true
      /\ JS.gt (JS.Math_abs (priceDifference dataOfCoinHalf)) 0.1 = true)
  /\ (0 <= optimalTradeSize dataOfCoinHalf)%Z.
Proof.
  apply (pricingData_scores coinHalf) with (env := env0) (newDate := 1700000000000)
    (random1 := 0.5) (random2 := 0.5) (random3 := 0.5).
  - vm_compute. discriminate.
  - vm_compute. discriminate.
  - vm_compute. discriminate.
  - vm_compute. reflexivity.
Defined.

Lemma priceImpact_resolves_iff_witness :
  match calculatePriceImpact env0 coinHalf 1000000 true with
  | Resolved impact =>
      (circulatingSupply coinHalf + 1000000 < 1000000000)%Z
      /\ (0 <= newPrice impact)%Z
      /\ slippage impact = JS.Math_abs (priceImpact_ impact)
  | Rejected message =>
      (1000000000 <= circulatingSupply coinHalf + 1000000)%Z
      /\ message = FailedToCalculatePriceImpact
  end.
Proof.
  apply (priceImpact_resolves_iff env0 coinHalf 1000000 true).
  vm_compute. discriminate.
Defined.

End EngineExamples.
